(** * skill-issue audit: a shallow embedding of [scripts/audit.mjs]

    The script inventories skill directories, mines usage from logs,
    checks declared dependencies and a registry, and derives one
    recommendation per skill.  JavaScript strings are modelled as lists
    of UTF-16 code units, values read from [JSON.parse] as a tagged
    union, exceptions as an explicit outcome type, and the host (file
    system, clock, shell, locale) as a record read by the functions. *)

From Stdlib Require Import String Ascii NArith ZArith QArith List Lia Bool Sorting.Sorted.
From stdpp Require Import base decidable option list countable gmap.

#[local] Set Warnings "-register-all".
#[local] Close Scope Q_scope.

(** ** JavaScript strings *)

(** A JavaScript string is a sequence of UTF-16 code units. *)
Abbreviation jsstring := (list N).

(** ASCII literals of the source, as code units. *)
Definition js (s : string) : jsstring :=
  List.map N_of_ascii (list_ascii_of_string s).

(** Code units of the characters the script names. *)
Definition LF : N := 10.
Definition HYPHEN : N := 45.
Definition COLON : N := 58.
Definition DQUOTE : N := 34.
Definition QUOTE : N := 39.

(** ECMAScript [WhiteSpace] and [LineTerminator] code units: what [\s]
    matches and what [trim] strips. *)
Definition whitespace : list N :=
  [9; 10; 11; 12; 13; 32; 160; 5760; 8192; 8193; 8194; 8195; 8196; 8197;
   8198; 8199; 8200; 8201; 8202; 8232; 8233; 8239; 8287; 12288; 65279]%N.

Definition is_space (c : N) : bool := existsb (N.eqb c) whitespace.

(** [LineTerminator]: what [.] refuses. *)
Definition is_line_terminator (c : N) : bool :=
  existsb (N.eqb c) [10; 13; 8232; 8233]%N.

(** [\d] and [\w] of a pattern without the [i] and [u] flags. *)
Definition is_digit (c : N) : bool := (48 <=? c)%N && (c <=? 57)%N.
Definition is_upper (c : N) : bool := (65 <=? c)%N && (c <=? 90)%N.
Definition is_lower (c : N) : bool := (97 <=? c)%N && (c <=? 122)%N.
Definition is_word (c : N) : bool :=
  is_digit c || is_upper c || is_lower c || (c =? 95)%N.

(** [s.startsWith(p)]. *)
Fixpoint startsWith (s p : jsstring) : bool :=
  match p, s with
  | [], _ => true
  | a :: p', b :: s' => (a =? b)%N && startsWith s' p'
  | _ :: _, [] => false
  end.

(** [s.endsWith(p)]. *)
Definition endsWith (s p : jsstring) : bool := startsWith (rev s) (rev p).

(** [a < b] on strings: code unit by code unit, a proper prefix first. *)
Fixpoint js_lt (a b : jsstring) : bool :=
  match a, b with
  | _, [] => false
  | [], _ :: _ => true
  | x :: a', y :: b' => (x <? y)%N || ((x =? y)%N && js_lt a' b')
  end.

(** [a >= b] on strings is the negation of [a < b]. *)
Definition js_ge (a b : jsstring) : bool := negb (js_lt a b).

(** [s.split(sep)] for a one-code-unit separator. *)
Fixpoint split_on (sep : N) (cur : jsstring) (s : jsstring) : list jsstring :=
  match s with
  | [] => [rev cur]
  | c :: s' => if (c =? sep)%N then rev cur :: split_on sep [] s'
               else split_on sep (c :: cur) s'
  end.

Definition split (s : jsstring) (sep : N) : list jsstring := split_on sep [] s.

(** [s.split(/\s+/)]: a maximal run of white space is one separator. *)
Fixpoint split_ws_from (in_sep : bool) (cur : jsstring) (s : jsstring)
  : list jsstring :=
  match s with
  | [] => [rev cur]
  | c :: s' =>
      if is_space c then
        if in_sep then split_ws_from true cur s'
        else rev cur :: split_ws_from true [] s'
      else split_ws_from false (c :: cur) s'
  end.

Definition split_ws (s : jsstring) : list jsstring := split_ws_from false [] s.

Fixpoint trimStart (s : jsstring) : jsstring :=
  match s with
  | c :: s' => if is_space c then trimStart s' else s
  | [] => []
  end.

(** [s.trim()]. *)
Definition trim (s : jsstring) : jsstring :=
  rev (trimStart (rev (trimStart s))).

(** [arr.join(sep)] on strings. *)
Fixpoint join (sep : jsstring) (l : list jsstring) : jsstring :=
  match l with
  | [] => []
  | [x] => x
  | x :: l' => x ++ sep ++ join sep l'
  end.

(** The first occurrence of [p] in [s]: what precedes it and what
    follows it. *)
Fixpoint find_first (p : jsstring) (s : jsstring) : option (jsstring * jsstring) :=
  if startsWith s p then Some ([], List.skipn (List.length p) s)
  else match s with
       | [] => None
       | c :: s' => match find_first p s' with
                    | Some (pre, post) => Some (c :: pre, post)
                    | None => None
                    end
       end.

(** [s.replace(p, r)] for a string pattern [p] and a replacement [r]
    without [$]: the first occurrence only. *)
Definition replace_first (s p r : jsstring) : jsstring :=
  match find_first p s with
  | Some (pre, post) => pre ++ r ++ post
  | None => s
  end.

(** Decimal digits of a natural number, as [String(n)] prints an
    integer count. *)
Fixpoint digits_fuel (fuel : nat) (n : N) (acc : jsstring) : jsstring :=
  match fuel with
  | O => acc
  | S fuel' =>
      let acc' := (48 + n mod 10)%N :: acc in
      if (n <? 10)%N then acc' else digits_fuel fuel' (n / 10)%N acc'
  end.

Definition decimal (n : N) : jsstring := digits_fuel (S (N.to_nat (N.log2 n))) n [].

(** ** Outcomes: a value or a thrown exception *)

Inductive JsError := SyntaxError | TypeError | RangeError | SystemError.

Inductive outcome (A : Type) :=
| Ok (a : A)
| Throw (e : JsError).
Arguments Ok {A} a.
Arguments Throw {A} e.

#[global] Instance outcome_ret : MRet outcome := fun A a => Ok a.

#[global] Instance outcome_bind : MBind outcome := fun A B f x =>
  match x with
  | Ok a => f a
  | Throw e => Throw e
  end.

(** A [for] loop whose body can throw, collecting one value per item. *)
Fixpoint forM {A B} (f : A -> outcome B) (l : list A) : outcome (list B) :=
  match l with
  | [] => Ok []
  | a :: l' => b ← f a; bs ← forM f l'; Ok (b :: bs)
  end.

(** A [for] loop whose body can throw, threading an accumulator. *)
Fixpoint foldM {A S} (f : S -> A -> outcome S) (l : list A) (s : S) : outcome S :=
  match l with
  | [] => Ok s
  | a :: l' => s' ← f s a; foldM f l' s'
  end.

(** ** Regular expressions built at run time

    [checkUsage] compiles a pattern from the skill's directory name
    with [new RegExp(source, "gi")].  The grammar modelled here is the
    part of the ECMAScript pattern grammar (without the [u] flag) made
    of pattern characters, [.], [^], [$], groups, [|], the quantifiers
    [*], [+], [?] with their lazy forms, and the class [[\s-]] that
    [checkUsage] itself writes.  A source that uses anything else
    (a backslash, another class, a brace, a [(?] group) is outside the
    grammar and is handed to the host's own engine. *)

Inductive regex :=
| REmpty
| RChar (c : N)
| RSpaceDash
| RAny
| RBol
| REol
| RSeq (a b : regex)
| RAlt (a b : regex)
| RStar (greedy : bool) (a : regex)
| RPlus (greedy : bool) (a : regex)
| ROpt (greedy : bool) (a : regex).

Inductive parsed :=
| Parsed (r : regex)
| Malformed
| Beyond.

(** One open group (or the top level) while parsing: the alternatives
    already closed by [|], the terms of the current alternative (both
    latest first), and whether the latest term may take a quantifier. *)
Record frame := {
  f_alts : list regex;
  f_terms : list regex;
  f_quantifiable : bool }.

Definition frame0 : frame :=
  {| f_alts := []; f_terms := []; f_quantifiable := false |}.

Definition seq_of (terms : list regex) : regex := fold_right RSeq REmpty terms.

Fixpoint alt_of (a : regex) (alts : list regex) : regex :=
  match alts with
  | [] => a
  | b :: alts' => RAlt a (alt_of b alts')
  end.

(** The disjunction a frame stands for once it is complete. *)
Definition close_frame (f : frame) : regex :=
  match rev (seq_of (rev (f_terms f)) :: f_alts f) with
  | [] => REmpty
  | a :: alts => alt_of a alts
  end.

Definition push_term (f : frame) (t : regex) (q : bool) : frame :=
  {| f_alts := f_alts f; f_terms := t :: f_terms f; f_quantifiable := q |}.

(** A quantifier applies to the latest term, which must be an atom
    that has no quantifier yet; otherwise there is nothing to repeat. *)
Definition quantify (f : frame) (q : regex -> regex) : option frame :=
  if f_quantifiable f then
    match f_terms f with
    | t :: ts => Some {| f_alts := f_alts f; f_terms := q t :: ts;
                         f_quantifiable := false |}
    | [] => None
    end
  else None.

Fixpoint parse_from (s : jsstring) (cur : frame) (stack : list frame) : parsed :=
  match s with
  | [] => match stack with
          | [] => Parsed (close_frame cur)
          | _ :: _ => Malformed              (* unterminated group *)
          end
  | c :: s' =>
      let quantifier (greedy_q lazy_q : regex -> regex) :=
        match s' with
        | 63%N :: s'' =>
            match quantify cur lazy_q with
            | Some cur' => parse_from s'' cur' stack
            | None => Malformed              (* nothing to repeat *)
            end
        | _ =>
            match quantify cur greedy_q with
            | Some cur' => parse_from s' cur' stack
            | None => Malformed              (* nothing to repeat *)
            end
        end in
      match c with
      | 40%N (* ( *) =>
          match s' with
          | 63%N :: _ => Beyond
          | _ => parse_from s' frame0 (cur :: stack)
          end
      | 41%N (* ) *) =>
          match stack with
          | [] => Malformed                  (* unmatched ')' *)
          | parent :: stack' =>
              parse_from s' (push_term parent (close_frame cur) true) stack'
          end
      | 124%N (* | *) =>
          parse_from s' {| f_alts := seq_of (rev (f_terms cur)) :: f_alts cur;
                           f_terms := []; f_quantifiable := false |} stack
      | 42%N (* * *) => quantifier (RStar true) (RStar false)
      | 43%N (* + *) => quantifier (RPlus true) (RPlus false)
      | 63%N (* ? *) => quantifier (ROpt true) (ROpt false)
      | 94%N (* ^ *) => parse_from s' (push_term cur RBol false) stack
      | 36%N (* $ *) => parse_from s' (push_term cur REol false) stack
      | 46%N (* . *) => parse_from s' (push_term cur RAny true) stack
      | 91%N (* [ *) =>
          match s' with
          | 92%N :: 115%N :: 45%N :: 93%N :: s'' =>
              parse_from s'' (push_term cur RSpaceDash true) stack
          | _ => Beyond
          end
      | 92%N (* \ *) => Beyond
      | 123%N (* { *) => Beyond
      | _ => parse_from s' (push_term cur (RChar c) true) stack
      end
  end.

Definition parse_pattern (source : jsstring) : parsed := parse_from source frame0 [].

(** [SyntaxCharacter] of the pattern grammar. *)
Definition syntax_characters : jsstring := js "^$\.*+?()[]{}|".

Definition is_syntax (c : N) : bool := existsb (N.eqb c) syntax_characters.

Section Matcher.

(** [String.prototype.toUpperCase] on one code unit at or above 128,
    when the result is one code unit (the code unit itself otherwise):
    the host's Unicode table. *)
Variable unicodeUpper : N -> N.

(** [Canonicalize] of a pattern with the [i] flag and without [u]:
    the upper case of the code unit, except that a code unit at or
    above 128 is never sent below 128. *)
Definition Canonicalize (ch : N) : N :=
  if (ch <? 128)%N then (if is_lower ch then ch - 32 else ch)%N
  else let cu := unicodeUpper ch in
       if (cu <? 128)%N then ch else cu.

(** What the class [[\s-]] and a pattern character accept under the
    [i] flag. *)
Definition accepts_space_dash (ch : N) : bool :=
  existsb (fun a => (Canonicalize a =? Canonicalize ch)%N) (whitespace ++ [HYPHEN]).

Definition accepts_char (c ch : N) : bool := (Canonicalize ch =? Canonicalize c)%N.

(** A match position: the index and the text from it on. *)
Definition pos := (nat * jsstring)%type.

Definition step_if (ok : N -> bool) (x : pos) (k : pos -> option nat) : option nat :=
  match snd x with
  | ch :: t => if ok ch then k (S (fst x), t) else None
  | [] => None
  end.

(** An iteration of a quantified atom must consume input once the
    minimum is reached. *)
Definition consumed (x y : pos) : bool :=
  (List.length (snd y) <? List.length (snd x))%nat.

(** [RepeatMatcher] for a quantifier without upper bound, once its
    minimum is reached: another iteration of [step] that consumes
    input, or the continuation [k], in the order the greediness gives.
    Every iteration shortens the rest of the text, so a [fuel] above
    its length is never used up. *)
Definition star_loop (step : pos → (pos → option nat) → option nat)
  (greedy : bool) (k : pos → option nat) : nat → pos → option nat :=
  fix rep (fuel : nat) (x : pos) {struct fuel} : option nat :=
    match fuel with
    | O => None
    | S fuel' =>
        let again := step x (fun y => if consumed x y then rep fuel' y else None) in
        if greedy then
          match again with Some e => Some e | None => k x end
        else
          match k x with Some e => Some e | None => again end
    end.

(** The backtracking matcher of the language specification, in
    continuation style: [matcher r x k] is the end index of the first
    way, in priority order, to match [r] at [x] and then [k]. *)
Fixpoint matcher (r : regex) (x : pos) (k : pos → option nat) {struct r}
  : option nat :=
  match r with
  | REmpty => k x
  | RChar c => step_if (accepts_char c) x k
  | RSpaceDash => step_if accepts_space_dash x k
  | RAny =>
      (* no code unit has a line terminator as its upper case *)
      step_if (fun ch => negb (is_line_terminator ch)) x k
  | RBol => match fst x with O => k x | S _ => None end
  | REol => match snd x with [] => k x | _ :: _ => None end
  | RSeq a b => matcher a x (fun y => matcher b y k)
  | RAlt a b => match matcher a x k with Some e => Some e | None => matcher b x k end
  | RStar greedy a => star_loop (matcher a) greedy k (S (List.length (snd x))) x
  | RPlus greedy a =>
      matcher a x (fun y => star_loop (matcher a) greedy k (S (List.length (snd y))) y)
  | ROpt greedy a =>
      let once := matcher a x (fun y => if consumed x y then k y else None) in
      if greedy then
        match once with Some e => Some e | None => k x end
      else
        match k x with Some e => Some e | None => once end
  end.

(** One attempt of [RegExpBuiltinExec] at index [i]: the end index of
    the match that starts there, if any. *)
Definition match_at (r : regex) (i : nat) (rest : jsstring) : option nat :=
  matcher r (i, rest) (fun y => Some (fst y)).

(** [text.match(pattern)] with the [g] flag, counted: matches are taken
    left to right, the search resumes where the last match ended, and
    one code unit further after an empty match.  [skip] is the number
    of code units left of the previous match. *)
Fixpoint count_from (r : regex) (i : nat) (rest : jsstring) (skip : nat) : nat :=
  match skip with
  | S skip' =>
      match rest with
      | [] => 0
      | _ :: rest' => count_from r (S i) rest' skip'
      end
  | O =>
      match match_at r i rest with
      | Some e =>
          match rest with
          | [] => 1
          | _ :: rest' => S (count_from r (S i) rest' (Nat.pred (e - i)))
          end
      | None =>
          match rest with
          | [] => 0
          | _ :: rest' => count_from r (S i) rest' 0
          end
      end
  end.

Definition count_matches (r : regex) (text : jsstring) : nat :=
  count_from r 0 text 0.

End Matcher.

(** ** Values read from [JSON.parse] *)

Inductive JSON :=
| JNull
| JBool (b : bool)
| JNum (q : Q)
| JStr (s : jsstring)
| JArr (l : list JSON)
| JObj (o : list (jsstring * JSON)).

(** [!!v]. *)
Definition truthy (v : JSON) : bool :=
  match v with
  | JNull => false
  | JBool b => b
  | JNum q => negb (Qnum q =? 0)%Z
  | JStr s => match s with [] => false | _ :: _ => true end
  | JArr _ | JObj _ => true
  end.

(** [v || d], where [None] is [undefined]. *)
Definition or_else (v : option JSON) (d : JSON) : JSON :=
  match v with
  | Some x => if truthy x then x else d
  | None => d
  end.

Fixpoint assoc (o : list (jsstring * JSON)) (k : jsstring) : option JSON :=
  match o with
  | [] => None
  | (k', v) :: o' => if decide (k' = k) then Some v else assoc o' k
  end.

(** [v[k]] for the keys the script reads ([clawdbot], [requires],
    [bins], [env], [emoji]): an own property of an object; arrays,
    strings, numbers and booleans have no such property. *)
Definition get_prop (v : JSON) (k : jsstring) : option JSON :=
  match v with
  | JObj o => assoc o k
  | _ => None
  end.

(** The body of the loop of [getNestedField]: an [undefined], falsy or
    non-object value ends the walk with [undefined]. *)
Fixpoint getNestedField_keys (val : option JSON) (keys : list jsstring)
  : option JSON :=
  match keys with
  | [] => val
  | k :: keys' =>
      match val with
      | Some (JObj o) => getNestedField_keys (get_prop (JObj o) k) keys'
      | Some (JArr l) => getNestedField_keys (get_prop (JArr l) k) keys'
      | _ => None
      end
  end.

Definition getNestedField (obj : JSON) (path : jsstring) : option JSON :=
  getNestedField_keys (Some obj) (split path 46).

(** ** The host: platform functions and the state the script reads *)

(** What is at [<root>/<entry>/SKILL.md]. *)
Inductive SkillFile :=
| NoSkillFile
| SkillFileText (content : jsstring)
| SkillFileUnreadable.

(** An entry of a skill root, as [readdir] with [withFileTypes] lists it. *)
Record Dirent := {
  d_name : jsstring;
  d_isDirectory : bool;
  d_skillFile : SkillFile }.

Inductive RootState :=
| RootMissing
| RootUnlistable
| RootEntries (entries : list Dirent).

(** An entry of the log directory: its name, what [stat] gives as the
    modification time (in ms since the epoch) and what [readFile] gives
    as text; [None] where the call throws. *)
Record LogFile := {
  f_name : jsstring;
  f_mtime : option Z;
  f_text : option jsstring }.

Inductive LogDirState :=
| LogDirMissing
| LogDirUnlistable
| LogDirFiles (files : list LogFile).

Record Host := {
  (** one code unit of [toUpperCase], see [Canonicalize] *)
  unicodeUpper : N -> N;
  toLowerCase : jsstring -> jsstring;
  (** the sign of [a.localeCompare(b)] is the sign of this integer *)
  localeCompare : jsstring -> jsstring -> Z;
  (** [None] where [JSON.parse] throws *)
  JSON_parse : jsstring -> option JSON;
  (** [String(x)] of a number *)
  Number_toString : Q -> jsstring;
  (** the engine on sources outside the grammar modelled above: [None]
      where [new RegExp] throws, else the number of matches that
      [text.match] returns *)
  RegExp_host : jsstring -> option (jsstring -> nat);
  (** the offset of local time, [LocalTZA(t, isUTC)] *)
  LocalTZA : Z -> bool -> Z;
  (** [path.join] *)
  path_join : list jsstring -> jsstring;
  homedir : jsstring;
  (** the time value of the [new Date()] of the [k]-th skill's usage scan *)
  clock : nat -> Z;
  skillRoot : jsstring -> RootState;
  logDir : jsstring -> LogDirState;
  (** whether the shell command [command -v <text>] succeeds *)
  command_v : jsstring -> bool;
  (** whether [process.env[name]] is truthy *)
  env_truthy : jsstring -> bool;
  (** the output of [clawdhub search "<name>"], [None] where the
      subprocess fails or times out *)
  clawdhub_search : jsstring -> option jsstring }.

(** The configuration read from the environment at start-up;
    [DAYS_BACK] is [None] where [parseInt] gives [NaN]. *)
Record Config := {
  SKILL_DIRS : list jsstring;
  MEMORY_DIR : jsstring;
  DAYS_BACK : option Z;
  SKIP_HUB : bool }.

(** ** Dates *)

Definition msPerDay : Z := 86400000.

(** [TimeClip]: a time value beyond 8.64e15 ms is an invalid date. *)
Definition TimeClip (t : Z) : option Z :=
  if (8640000000000000 <? Z.abs t)%Z then None else Some t.

(** The civil date (year, month, day of month) of a day number counted
    from 1970-01-01, in the proleptic Gregorian calendar. *)
Definition civil_from_days (z0 : Z) : Z * Z * Z :=
  let z := (z0 + 719468)%Z in
  let era := (z / 146097)%Z in
  let doe := (z - era * 146097)%Z in
  let yoe := ((doe - doe / 1460 + doe / 36524 - doe / 146096) / 365)%Z in
  let doy := (doe - (365 * yoe + yoe / 4 - yoe / 100))%Z in
  let mp := ((5 * doy + 2) / 153)%Z in
  let d := (doy - (153 * mp + 2) / 5 + 1)%Z in
  let m := (if mp <? 10 then mp + 3 else mp - 9)%Z in
  let y := (yoe + era * 400 + (if m <=? 2 then 1 else 0))%Z in
  (y, m, d).

(** A number in decimal, padded with zeros to [width] digits. *)
Definition pad (width : nat) (n : Z) : jsstring :=
  let d := decimal (Z.to_N n) in
  repeat 48%N (width - List.length d) ++ d.

(** The date part of [toISOString()]: four digits of year, or a sign
    and six digits for a year outside 0..9999. *)
Definition iso_date (t : Z) : jsstring :=
  let '(y, m, d) := civil_from_days (t / msPerDay) in
  let year := if ((0 <=? y) && (y <=? 9999))%Z then pad 4 y
              else (if (y <? 0)%Z then 45%N else 43%N) :: pad 6 (Z.abs y) in
  year ++ js "-" ++ pad 2 m ++ js "-" ++ pad 2 d.

(** [date.toISOString().slice(0, 10)]; an invalid date throws a
    [RangeError]. *)
Definition toISOString_slice10 (t : option Z) : outcome jsstring :=
  match t with
  | Some t => Ok (firstn 10 (iso_date t))
  | None => Throw RangeError
  end.

(** ** [parseFrontmatter] *)

(** [content.match(/^---\n([\s\S]*?)\n---/)]: the text is opened by
    [---] and a line feed, and the lazy group ends at the first line
    feed followed by [---] after that; the group captured. *)
Definition header_match (content : jsstring) : option jsstring :=
  if startsWith content (js "---" ++ [LF]) then
    match find_first (LF :: js "---") (skipn 4 content) with
    | Some (yaml, _) => Some yaml
    | None => None
    end
  else None.

(** The longest prefix of code units that satisfy [ok], and the rest. *)
Fixpoint span (ok : N -> bool) (s : jsstring) : jsstring * jsstring :=
  match s with
  | c :: s' => if ok c then let '(a, b) := span ok s' in (c :: a, b) else ([], s)
  | [] => ([], [])
  end.

(** [\s*(.+)] at the start of [v]: the greedy [\s*] first takes the
    white space code unit at hand and gives it back when the rest cannot
    match; [(.+)] then runs to the next line terminator. *)
Fixpoint value_match (v : jsstring) : option jsstring :=
  match v with
  | [] => None
  | c :: v' =>
      let here := if is_line_terminator c then None
                  else Some (fst (span (fun x => negb (is_line_terminator x)) v)) in
      if is_space c then
        match value_match v' with
        | Some m => Some m
        | None => here
        end
      else here
  end.

(** [line.match(...)] with the pattern of line 40: a key made of a
    word character and then word characters and hyphens, a colon, and
    the value matched by [value_match]; the two groups. *)
Definition line_match (line : jsstring) : option (jsstring * jsstring) :=
  match line with
  | c :: rest =>
      if is_word c then
        let '(key_tail, after) := span (fun x => is_word x || (x =? HYPHEN)%N) rest in
        match after with
        | c' :: v =>
            if (c' =? COLON)%N then
              match value_match v with
              | Some m2 => Some (c :: key_tail, m2)
              | None => None
              end
            else None
        | [] => None
        end
      else None
  | [] => None
  end.

(** The quote stripping: [val.slice(1, -1)] when [val] starts and ends
    with the same quote character. *)
Definition strip_quotes (val : jsstring) : jsstring :=
  if (startsWith val [DQUOTE] && endsWith val [DQUOTE])
     || (startsWith val [QUOTE] && endsWith val [QUOTE])
  then removelast (tl val)
  else val.

(** The object [parseFrontmatter] returns: the properties written by
    [result[m[1]] = val], all strings, and the [_meta] property written
    by the [JSON.parse] step when it runs. *)
Record Frontmatter := {
  fm_fields : gmap jsstring jsstring;
  fm_parsed_meta : option JSON }.

(** [result[key] = val] on a plain object: the key [__proto__] goes to
    the inherited setter, which ignores a string. *)
Definition set_field (result : gmap jsstring jsstring) (key val : jsstring)
  : gmap jsstring jsstring :=
  if decide (key = js "__proto__") then result else <[key := val]> result.

Definition parse_lines (lines : list jsstring) : gmap jsstring jsstring :=
  fold_left (fun result line =>
               match line_match line with
               | Some (key, m2) => set_field result key (strip_quotes (trim m2))
               | None => result
               end) lines ∅.

(** [fm.name], [fm.description], [result.metadata]. *)
Definition fm_get (fm : Frontmatter) (key : jsstring) : option jsstring :=
  fm_fields fm !! key.

(** [fm._meta]. *)
Definition fm_meta (fm : Frontmatter) : option JSON :=
  match fm_parsed_meta fm with
  | Some j => Some j
  | None => JStr <$> fm_fields fm !! js "_meta"
  end.

(** [s || d] on a string property that may be [undefined]. *)
Definition str_or (s : option jsstring) (d : jsstring) : jsstring :=
  match s with
  | Some (c :: s') => c :: s'
  | _ => d
  end.

Section Audit.

Variable h : Host.
Variable cfg : Config.

Definition parseFrontmatter (content : jsstring) : Frontmatter :=
  match header_match content with
  | None => {| fm_fields := ∅; fm_parsed_meta := None |}
  | Some yaml =>
      let result := parse_lines (split yaml LF) in
      {| fm_fields := result;
         fm_parsed_meta :=
           match str_or (result !! js "metadata") [] with
           | [] => None
           | metadata => Some (match JSON_parse h metadata with
                               | Some j => j
                               | None => JObj []
                               end)
           end |}
  end.

(** ** [getSkillsFromDir] *)

(** The object pushed by [getSkillsFromDir]. *)
Record SkillRecord := {
  dirName : jsstring;
  name : jsstring;
  description : jsstring;
  meta : JSON;
  path : jsstring }.

(** One turn of the loop over the entries of [dir]: the record pushed,
    if the entry is a directory that holds a [SKILL.md]. *)
Definition skill_of_entry (dir : jsstring) (entry : Dirent)
  : outcome (option SkillRecord) :=
  if d_isDirectory entry then
    let skillFile := path_join h [dir; d_name entry; js "SKILL.md"] in
    match d_skillFile entry with
    | NoSkillFile => Ok None
    | SkillFileUnreadable => Throw SystemError
    | SkillFileText content =>
        let fm := parseFrontmatter content in
        Ok (Some {| dirName := d_name entry;
                    name := str_or (fm_get fm (js "name")) (d_name entry);
                    description := str_or (fm_get fm (js "description")) [];
                    meta := or_else (fm_meta fm) (JObj []);
                    path := skillFile |})
    end
  else Ok None.

(** The records pushed, in the order of the entries. *)
Fixpoint pushed_records (turns : list (option SkillRecord)) : list SkillRecord :=
  match turns with
  | [] => []
  | Some s :: turns' => s :: pushed_records turns'
  | None :: turns' => pushed_records turns'
  end.

Definition getSkillsFromDir (dir : jsstring) : outcome (list SkillRecord) :=
  match skillRoot h dir with
  | RootMissing => Ok []
  | RootUnlistable => Throw SystemError
  | RootEntries entries =>
      turns ← forM (skill_of_entry dir) entries;
      Ok (pushed_records turns)
  end.

(** ** [checkUsage] *)

(** [skillName.replace(/-/g, "[\\s-]")]. *)
Definition pattern_source (skillName : jsstring) : jsstring :=
  flat_map (fun c => if (c =? HYPHEN)%N then js "[\s-]" else [c]) skillName.

(** The term that the code units written for one code unit of the
    name stand for, when that code unit is no syntax character. *)
Definition atom (c : N) : regex :=
  if (c =? HYPHEN)%N then RSpaceDash else RChar c.

(** A compiled pattern with the flags [gi]. *)
Inductive Pattern :=
| Compiled (r : regex)
| HostCompiled (count : jsstring -> nat).

(** [new RegExp(source, "gi")]. *)
Definition RegExp_new (source : jsstring) : outcome Pattern :=
  match parse_pattern source with
  | Parsed r => Ok (Compiled r)
  | Malformed => Throw SyntaxError
  | Beyond =>
      match RegExp_host h source with
      | Some count => Ok (HostCompiled count)
      | None => Throw SyntaxError
      end
  end.

(** The length of [content.match(pattern)], 0 for [null]. *)
Definition match_count (p : Pattern) (content : jsstring) : nat :=
  match p with
  | Compiled r => count_matches (unicodeUpper h) r content
  | HostCompiled count => count content
  end.

(** The file name pattern of line 115: four digits, a hyphen, two
    digits, a hyphen, two digits and [.md], nothing before and nothing
    after; the date captured. *)
Definition dateMatch (f : jsstring) : option jsstring :=
  match f with
  | [y1; y2; y3; y4; h1; m1; m2; h2; d1; d2; dot; m; d] =>
      if forallb is_digit [y1; y2; y3; y4; m1; m2; d1; d2]
         && (h1 =? HYPHEN)%N && (h2 =? HYPHEN)%N
         && bool_decide ([dot; m; d] = js ".md")
      then Some [y1; y2; y3; y4; h1; m1; m2; h2; d1; d2]
      else None
  | _ => None
  end.

(** [cutoff.setDate(cutoff.getDate() - DAYS_BACK)] on a date of time
    value [t]: the local time moves back by whole days and is clipped;
    a [NaN] day count gives an invalid date. *)
Definition cutoff_of (t : Z) (days : option Z) : option Z :=
  match days with
  | None => None
  | Some n =>
      let local := (t + LocalTZA h t true)%Z in
      let newDate := (local - n * msPerDay)%Z in
      TimeClip (newDate - LocalTZA h newDate false)
  end.

Definition readFile (f : LogFile) : outcome jsstring :=
  match f_text f with
  | Some content => Ok content
  | None => Throw SystemError
  end.

Definition stat_mtime (f : LogFile) : outcome Z :=
  match f_mtime f with
  | Some t => Ok t
  | None => Throw SystemError
  end.

(** [mtime >= cutoff] on dates: the time values are compared, and an
    invalid date compares false. *)
Definition date_ge (mtime : Z) (cutoff : option Z) : bool :=
  match cutoff with
  | Some c => (c <=? mtime)%Z
  | None => false
  end.

(** The body of the loop over the files of the log directory. *)
Definition scan_file (cutoff : option Z) (cutoffStr : jsstring) (pattern : Pattern)
  (count : nat) (f : LogFile) : outcome nat :=
  match dateMatch (f_name f) with
  | Some date =>
      if js_ge date cutoffStr then
        content ← readFile f;
        Ok (count + match_count pattern content)%nat
      else Ok count
  | None =>
      if endsWith (f_name f) (js ".log") || endsWith (f_name f) (js ".md") then
        mtime ← stat_mtime f;
        if date_ge mtime cutoff then
          content ← readFile f;
          Ok (count + match_count pattern content)%nat
        else Ok count
      else Ok count
  end.

(** [checkUsage(skillName)], called for the [k]-th skill. *)
Definition checkUsage (k : nat) (skillName : jsstring) : outcome nat :=
  match logDir h (MEMORY_DIR cfg) with
  | LogDirMissing => Ok 0%nat
  | dir =>
      let cutoff := cutoff_of (clock h k) (DAYS_BACK cfg) in
      cutoffStr ← toISOString_slice10 cutoff;
      files ← match dir with
              | LogDirFiles files => Ok files
              | _ => Throw SystemError
              end;
      pattern ← RegExp_new (pattern_source skillName);
      foldM (scan_file cutoff cutoffStr pattern) files 0%nat
  end.

(** ** [checkHealth] and [checkHubVersion] *)

(** [String(v)] and [`${v}`] of a value read from JSON. *)
Fixpoint ToString (v : JSON) : jsstring :=
  match v with
  | JNull => js "null"
  | JBool true => js "true"
  | JBool false => js "false"
  | JNum q => Number_toString h q
  | JStr s => s
  | JArr l => join (js ",") (List.map (fun x => match x with
                                                | JNull => []
                                                | _ => ToString x
                                                end) l)
  | JObj _ => js "[object Object]"
  end.

(** [l.join(sep)] on an array of values: [null] prints as nothing. *)
Definition join_values (sep : jsstring) (l : list JSON) : jsstring :=
  join sep (List.map (fun x => match x with JNull => [] | _ => ToString x end) l).

Definition commandExists (cmd : JSON) : bool := command_v h (ToString cmd).

Definition envExists (name : JSON) : bool := env_truthy h (ToString name).

(** The receiver of [.filter] and [.join] must be an array: any other
    value has no such method and the call throws a [TypeError]. *)
Definition as_array (v : JSON) : outcome (list JSON) :=
  match v with
  | JArr l => Ok l
  | _ => Throw TypeError
  end.

Record HealthResult := {
  missingBins : list JSON;
  missingEnvs : list JSON;
  bins : list JSON;
  envs : list JSON }.

Definition checkHealth (meta : JSON) : outcome HealthResult :=
  let requires := or_else (getNestedField meta (js "clawdbot.requires")) (JObj []) in
  let bins := or_else (get_prop requires (js "bins")) (JArr []) in
  let envs := or_else (get_prop requires (js "env")) (JArr []) in
  bins ← as_array bins;
  envs ← as_array envs;
  Ok {| missingBins := List.filter (fun b => negb (commandExists b)) bins;
        missingEnvs := List.filter (fun e => negb (envExists e)) envs;
        bins := bins;
        envs := envs |}.

Record HubResult := { available : bool; version : jsstring }.

(** [parts[1]?.replace(/^v/, "") || "unknown"]. *)
Definition hub_version (parts : list jsstring) : jsstring :=
  match parts with
  | _ :: p1 :: _ =>
      str_or (Some (match p1 with
                    | 118%N :: p1' => p1'
                    | _ => p1
                    end)) (js "unknown")
  | _ => js "unknown"
  end.

(** The loop over the lines of the registry's output: the version of
    the first line whose first word is the skill's name. *)
Fixpoint hub_lines (skillName : jsstring) (lines : list jsstring) : jsstring :=
  match lines with
  | [] => js "not found"
  | line :: lines' =>
      let parts := split_ws (trim line) in
      match parts with
      | (c :: p0) :: _ =>
          if decide (toLowerCase h (c :: p0) = toLowerCase h skillName)
          then hub_version parts
          else hub_lines skillName lines'
      | _ => hub_lines skillName lines'
      end
  end.

Definition checkHubVersion (skillName : jsstring) : HubResult :=
  if commandExists (JStr (js "clawdhub")) then
    match clawdhub_search h skillName with
    | Some output =>
        {| available := true; version := hub_lines skillName (split output LF) |}
    | None => {| available := true; version := js "error" |}
    end
  else {| available := false; version := js "n/a" |}.

(** ** [main] *)

(** A value of [skillMap]: the record spread with its [source]. *)
Record Skill := {
  record :> SkillRecord;
  source : jsstring }.

(** [skillMap.set(key, value)] on a [Map], whose entries are kept in
    the order of first insertion: an existing key keeps its place and
    takes the new value. *)
Fixpoint map_set (m : list (jsstring * Skill)) (key : jsstring) (value : Skill)
  : list (jsstring * Skill) :=
  match m with
  | [] => [(key, value)]
  | (k, v) :: m' =>
      if decide (k = key) then (key, value) :: m'
      else (k, v) :: map_set m' key value
  end.

(** The inner loop of the collection: the skills of one root are set
    in the map with the root's label. *)
Definition set_all (m : list (jsstring * Skill)) (dirLabel : jsstring)
  (skills : list SkillRecord) : list (jsstring * Skill) :=
  fold_left (fun m s => map_set m (dirName s) {| record := s; source := dirLabel |})
            skills m.

(** [dir.replace(homedir(), "~")]. *)
Definition dirLabel (dir : jsstring) : jsstring :=
  replace_first dir (homedir h) (js "~").

(** The loop over [SKILL_DIRS] (lines 179-186). *)
Definition collect_from (dirs : list jsstring) (m : list (jsstring * Skill))
  : outcome (list (jsstring * Skill)) :=
  foldM (fun m dir =>
           skills ← getSkillsFromDir dir;
           Ok (set_all m (dirLabel dir) skills)) dirs m.

Definition skillMap : outcome (list (jsstring * Skill)) :=
  collect_from (SKILL_DIRS cfg) [].

(** [arr.sort(compare)]: the sort is stable, which fixes its result for
    a consistent comparison; an insertion sort stands for it. *)
Fixpoint sort_insert (x : Skill) (l : list Skill) : list Skill :=
  match l with
  | [] => [x]
  | y :: l' =>
      if (localeCompare h (dirName x) (dirName y) <=? 0)%Z then x :: l
      else y :: sort_insert x l'
  end.

Definition sort_skills (l : list Skill) : list Skill := fold_right sort_insert [] l.

(** [allSkills] (line 188). *)
Definition allSkills : outcome (list Skill) :=
  m ← skillMap;
  Ok (sort_skills (List.map snd m)).

Definition hubAvailable : bool :=
  negb (SKIP_HUB cfg) && commandExists (JStr (js "clawdhub")).

Inductive Recommendation := keep | update | review | remove.

(** The recommendation (lines 200-213): the [if]/[else if] chain over
    [health], [hub] and [usage]. *)
Definition main_rec (health : HealthResult) (usage : nat) (hub : HubResult)
  : Recommendation :=
  if (0 <? List.length (missingBins health))%nat then remove
  else if bool_decide (version hub ≠ js "not found")
          && bool_decide (version hub ≠ js "n/a")
          && bool_decide (version hub ≠ js "error")
  then (if (0 <? usage)%nat then keep else review)
  else if (0 <? usage)%nat then keep
  else if (0 <? List.length (missingEnvs health))%nat then review
  else review.

(** An element of [results]. *)
Record Result := {
  r_skill : Skill;
  r_emoji : JSON;
  r_health : HealthResult;
  r_usage : nat;
  r_hub : HubResult;
  r_bins : jsstring;
  r_rec : Recommendation }.

(** The body of the loop over [allSkills], for the [k]-th skill. *)
Definition process_skill (k : nat) (skill : Skill) : outcome Result :=
  let emoji := or_else (getNestedField (meta skill) (js "clawdbot.emoji")) (JStr []) in
  health ← checkHealth (meta skill);
  usage ← checkUsage k (dirName skill);
  let hub := if hubAvailable then checkHubVersion (dirName skill)
             else {| available := false; version := js "n/a" |} in
  declared ← as_array (or_else (getNestedField (meta skill) (js "clawdbot.requires.bins"))
                               (JArr []));
  let bins := str_or (Some (join_values (js ", ") declared)) [8212%N] in
  Ok {| r_skill := skill; r_emoji := emoji; r_health := health;
        r_usage := usage; r_hub := hub; r_bins := bins;
        r_rec := main_rec health usage hub |}.

Fixpoint process_from (k : nat) (skills : list Skill) : outcome (list Result) :=
  match skills with
  | [] => Ok []
  | skill :: skills' =>
      r ← process_skill k skill;
      rs ← process_from (S k) skills';
      Ok (r :: rs)
  end.

(** [results] (lines 192-216). *)
Definition main_results : outcome (list Result) :=
  skills ← allSkills;
  process_from 0 skills.

(** [const tally = { keep: 0, update: 0, review: 0, remove: 0 }]. *)
Record Tally := { t_keep : nat; t_update : nat; t_review : nat; t_remove : nat }.

Definition tally0 : Tally :=
  {| t_keep := 0; t_update := 0; t_review := 0; t_remove := 0 |}.

(** [tally[r.rec]++]. *)
Definition tally_incr (t : Tally) (r : Result) : Tally :=
  match r_rec r with
  | keep => {| t_keep := S (t_keep t); t_update := t_update t;
               t_review := t_review t; t_remove := t_remove t |}
  | update => {| t_keep := t_keep t; t_update := S (t_update t);
                 t_review := t_review t; t_remove := t_remove t |}
  | review => {| t_keep := t_keep t; t_update := t_update t;
                 t_review := S (t_review t); t_remove := t_remove t |}
  | remove => {| t_keep := t_keep t; t_update := t_update t;
                 t_review := t_review t; t_remove := S (t_remove t) |}
  end.

(** [for (const r of results) tally[r.rec]++]. *)
Definition main_tally (results : list Result) : Tally :=
  fold_left tally_incr results tally0.

(** The row of the detailed table for [results[i]] (lines 247-276). *)
Definition render_row (i : nat) (r : Result) : jsstring :=
  let healthFmt :=
    if (0 <? List.length (missingBins (r_health r)))%nat then
      [10060%N; 32%N] ++ join_values (js ", ") (missingBins (r_health r))
    else if (0 <? List.length (missingEnvs (r_health r)))%nat then
      [9888%N; 65039%N] ++ js " env: " ++ join_values (js ", ") (missingEnvs (r_health r))
    else [9989%N] in
  let recFmt :=
    match r_rec r with
    | keep => 9989%N :: js " keep"
    | update => 55357%N :: 56580%N :: js " update"
    | review => 55357%N :: 56590%N :: js " review"
    | remove => 55357%N :: 56785%N :: 65039%N :: js " remove"
    end in
  let hubFmt :=
    if decide (version (r_hub r) = js "not found") then [8212%N]
    else if decide (version (r_hub r) = js "n/a") then js "n/a"
    else if decide (version (r_hub r) = js "error") then js "err"
    else js "v" ++ version (r_hub r) in
  let usageFmt :=
    if (0 <? r_usage r)%nat
    then 55357%N :: 56522%N :: 32%N :: decimal (N.of_nat (r_usage r))
    else [8212%N] in
  let name :=
    if truthy (r_emoji r)
    then ToString (r_emoji r) ++ js " " ++ dirName (r_skill r)
    else dirName (r_skill r) in
  js "| " ++ decimal (N.of_nat (i + 1)) ++ js " | " ++ name ++ js " | "
     ++ source (r_skill r) ++ js " | " ++ r_bins r ++ js " | " ++ usageFmt
     ++ js " | " ++ healthFmt ++ js " | " ++ hubFmt ++ js " | " ++ recFmt ++ js " |".

Fixpoint render_rows (i : nat) (results : list Result) : list jsstring :=
  match results with
  | [] => []
  | r :: results' => render_row i r :: render_rows (S i) results'
  end.

(** The rows of the detailed table that [main] prints. *)
Definition main_rows : outcome (list jsstring) :=
  results ← main_results;
  Ok (render_rows 0 results).

End Audit.

(** ** Vocabulary of the statements *)

(** The number that a string of decimal digits writes. *)
Definition digits_value (s : jsstring) : N :=
  fold_left (fun v d => (10 * v + (d - 48))%N) s 0%N.

(** The day number of a civil date: the inverse of [civil_from_days]. *)
Definition days_from_civil (y m d : Z) : Z :=
  let y' := (if m <=? 2 then y - 1 else y)%Z in
  let era := (y' / 400)%Z in
  let yoe := (y' - era * 400)%Z in
  let mp := (if 2 <? m then m - 3 else m + 9)%Z in
  let doy := ((153 * mp + 2) / 5 + d - 1)%Z in
  let doe := (yoe * 365 + yoe / 4 - yoe / 100 + doy)%Z in
  (era * 146097 + doe - 719468)%Z.

(** Two code units that are the same letter up to ASCII case. *)
Definition same_letter (c ch : N) : Prop :=
  ch = c
  ∨ (is_lower c = true ∧ ch = (c - 32)%N)
  ∨ (is_upper c = true ∧ ch = (c + 32)%N).

(** How one code unit of a skill's name may stand in prose: a hyphen as
    a hyphen or one white space code unit, any other code unit as
    itself up to case. *)
Definition occurrence_char (c ch : N) : Prop :=
  if (c =? HYPHEN)%N then ch = HYPHEN ∨ is_space ch = true
  else same_letter c ch.

(** [occ] is an occurrence of the name [id]. *)
Definition occurrence (id occ : jsstring) : Prop := Forall2 occurrence_char id occ.

(** The frame of the parser after the atoms of a name.  *)
Definition push_atoms (cur : frame) (id : jsstring) : frame :=
  fold_left (fun f c => push_term f (atom c) true) id cur.

(** A log file's name has the strict date shape, with [date] its ten
    leading code units. *)
Definition strict_date_name (f date : jsstring) : Prop :=
  ∃ y1 y2 y3 y4 m1 m2 d1 d2 : N,
    Forall (fun c => is_digit c = true) [y1; y2; y3; y4; m1; m2; d1; d2]
    ∧ date = [y1; y2; y3; y4; HYPHEN; m1; m2; HYPHEN; d1; d2]
    ∧ f = date ++ js ".md".

(** The lexicographic order of strings by code units. *)
Inductive lex_lt : jsstring → jsstring → Prop :=
| lex_lt_nil y b : lex_lt [] (y :: b)
| lex_lt_head x y a b : (x < y)%N → lex_lt (x :: a) (y :: b)
| lex_lt_tail x a b : lex_lt a b → lex_lt (x :: a) (x :: b).

Definition ends_with (s p : jsstring) : Prop := ∃ q, s = q ++ p.

(** The files of the log directory that count, in the words of the
    specification: a file with a strict date name when its date is not
    below the cutoff date string, any other [.log] or [.md] file when
    it was modified at or after the cutoff instant. *)
Definition Included (cutoff : Z) (cutoffStr : jsstring) (f : LogFile) : Prop :=
  (∃ date, strict_date_name (f_name f) date ∧ ¬ lex_lt date cutoffStr)
  ∨ ((¬ ∃ date, strict_date_name (f_name f) date)
     ∧ (ends_with (f_name f) (js ".log") ∨ ends_with (f_name f) (js ".md"))
     ∧ ∃ mtime, f_mtime f = Some mtime ∧ (cutoff ≤ mtime)%Z).

(** The same, decided. *)
Definition included (cutoff : Z) (cutoffStr : jsstring) (f : LogFile) : bool :=
  match dateMatch (f_name f) with
  | Some date => js_ge date cutoffStr
  | None =>
      (endsWith (f_name f) (js ".log") || endsWith (f_name f) (js ".md"))
      && match f_mtime f with
         | Some mtime => (cutoff <=? mtime)%Z
         | None => false
         end
  end.

(** The scan can read what it needs of the file: the modification time
    of a [.log] or [.md] file without a date name, and the text of a
    file that counts. *)
Definition scannable (cutoff : Z) (cutoffStr : jsstring) (f : LogFile) : Prop :=
  (included cutoff cutoffStr f = true → is_Some (f_text f))
  ∧ (dateMatch (f_name f) = None →
     endsWith (f_name f) (js ".log") || endsWith (f_name f) (js ".md") = true →
     is_Some (f_mtime f)).

(** The cutoff date string of a cutoff instant. *)
Definition cutoff_string (cutoff : Z) : jsstring := firstn 10 (iso_date cutoff).

(** The text of a file, empty where it cannot be read. *)
Definition text_of (f : LogFile) : jsstring := default [] (f_text f).

(** The text begins with a header: [---] and a line feed at the very
    start, and later a line feed followed by [---]. *)
Definition has_header (content : jsstring) : Prop :=
  ∃ yaml tail, content = js "---" ++ [LF] ++ yaml ++ [LF] ++ js "---" ++ tail.

(** The record of a skill whose descriptor gives nothing. *)
Definition default_record (h : Host) (dir : jsstring) (entry : Dirent) : SkillRecord :=
  {| dirName := d_name entry;
     name := d_name entry;
     description := [];
     meta := JObj [];
     path := path_join h [dir; d_name entry; js "SKILL.md"] |}.

(** The root [root] holds a skill directory named [d]: a directory
    entry of that name with a [SKILL.md] in it. *)
Definition has_skill (h : Host) (root d : jsstring) : Prop :=
  ∃ entries entry,
    skillRoot h root = RootEntries entries
    ∧ In entry entries
    ∧ d_name entry = d
    ∧ d_isDirectory entry = true
    ∧ d_skillFile entry ≠ NoSkillFile.

(** A configured root is well formed: it is missing, or it can be
    listed and every [SKILL.md] in its directories can be read. *)
Definition readable_root (h : Host) (root : jsstring) : Prop :=
  match skillRoot h root with
  | RootMissing => True
  | RootUnlistable => False
  | RootEntries entries =>
      Forall (fun e => d_isDirectory e = true → d_skillFile e ≠ SkillFileUnreadable)
             entries
  end.

(** A consistent comparison: total and transitive. *)
Definition consistent (cmp : jsstring → jsstring → Z) : Prop :=
  (∀ a b, (cmp a b ≤ 0)%Z ∨ (cmp b a ≤ 0)%Z)
  ∧ (∀ a b c, (cmp a b ≤ 0)%Z → (cmp b c ≤ 0)%Z → (cmp a c ≤ 0)%Z).

Definition name_le (h : Host) (a b : Skill) : Prop :=
  (localeCompare h (dirName a) (dirName b) ≤ 0)%Z.

(** The skill [s] is the record of its directory in the last of the
    roots [dirs] that holds a skill directory of that name. *)
Definition from_last_root (h : Host) (dirs : list jsstring) (s : Skill) : Prop :=
  ∃ before root after skills,
    dirs = before ++ root :: after
    ∧ getSkillsFromDir h root = Ok skills
    ∧ In (record s) skills
    ∧ source s = dirLabel h root
    ∧ ∀ root', In root' after → ¬ has_skill h root' (dirName s).

(** The entries of [skillMap] are filed under their directory name,
    once each. *)
Definition keyed (m : list (jsstring * Skill)) : Prop :=
  Forall (fun kv : jsstring * Skill => dirName (snd kv) = fst kv) m
  ∧ List.NoDup (List.map fst m).

(** The host [h] over other skill roots. *)
Definition with_skillRoot (h : Host) (roots : jsstring → RootState) : Host :=
  {| unicodeUpper := unicodeUpper h;
     toLowerCase := toLowerCase h;
     localeCompare := localeCompare h;
     JSON_parse := JSON_parse h;
     Number_toString := Number_toString h;
     RegExp_host := RegExp_host h;
     LocalTZA := LocalTZA h;
     path_join := path_join h;
     homedir := homedir h;
     clock := clock h;
     skillRoot := roots;
     logDir := logDir h;
     command_v := command_v h;
     env_truthy := env_truthy h;
     clawdhub_search := clawdhub_search h |}.

(** Two descriptor texts whose headers differ at most in the [name]
    field. *)
Definition same_but_name (h : Host) (c c' : jsstring) : Prop :=
  ∀ key, key ≠ js "name" →
         fm_get (parseFrontmatter h c) key = fm_get (parseFrontmatter h c') key.

(** Two entries, two roots that differ at most in the [name] fields of
    their descriptors. *)
Definition entry_renamed (h : Host) (e e' : Dirent) : Prop :=
  d_name e = d_name e'
  ∧ d_isDirectory e = d_isDirectory e'
  ∧ match d_skillFile e, d_skillFile e' with
    | SkillFileText c, SkillFileText c' => same_but_name h c c'
    | NoSkillFile, NoSkillFile => True
    | SkillFileUnreadable, SkillFileUnreadable => True
    | _, _ => False
    end.

Definition root_renamed (h : Host) (r r' : RootState) : Prop :=
  match r, r' with
  | RootEntries es, RootEntries es' => Forall2 (entry_renamed h) es es'
  | RootMissing, RootMissing => True
  | RootUnlistable, RootUnlistable => True
  | _, _ => False
  end.

(** A record, a skill and a result without the declared name. *)
Definition forget_declared (s : SkillRecord) : SkillRecord :=
  {| dirName := dirName s; name := []; description := description s;
     meta := meta s; path := path s |}.

Definition forget_name (s : Skill) : Skill :=
  {| record := forget_declared s; source := source s |}.

Definition forget_result (r : Result) : Result :=
  {| r_skill := forget_name (r_skill r); r_emoji := r_emoji r;
     r_health := r_health r; r_usage := r_usage r; r_hub := r_hub r;
     r_bins := r_bins r; r_rec := r_rec r |}.

Definition forget_names (m : list (jsstring * Skill)) : list (jsstring * Skill) :=
  List.map (fun kv => (fst kv, forget_name (snd kv))) m.

Definition outcome_map {A B} (f : A → B) (x : outcome A) : outcome B :=
  match x with
  | Ok a => Ok (f a)
  | Throw e => Throw e
  end.

(** ** A concrete host

    A small world on which the definitions run: two skill roots, a log
    directory, a clock in UTC, ASCII case folding and a comparison of
    names by code units. *)

Module Demo.

(** A literal in which every single quote stands for a double quote. *)
Definition jq (s : string) : jsstring :=
  List.map (fun c => if (c =? QUOTE)%N then DQUOTE else c) (js s).

Definition lines (l : list jsstring) : jsstring := join [LF] l.

(** The number of matches of the pattern [p] in the text [t], where
    the pattern is in the grammar modelled. *)
Definition count_in (p t : string) : option nat :=
  match parse_pattern (js p) with
  | Parsed r => Some (count_matches (fun c => c) r (js t))
  | _ => None
  end.

Definition lower_ascii (s : jsstring) : jsstring :=
  List.map (fun c => if is_upper c then (c + 32)%N else c) s.

Fixpoint compare_units (a b : jsstring) : Z :=
  match a, b with
  | [], [] => 0
  | [], _ :: _ => -1
  | _ :: _, [] => 1
  | x :: a', y :: b' =>
      if (x <? y)%N then -1 else if (y <? x)%N then 1 else compare_units a' b'
  end.

Definition beta_metadata : jsstring :=
  jq "{'clawdbot':{'emoji':'B','requires':{'bins':['zzznotarealbin'],'env':['API_KEY']}}}".

(** [JSON.parse] on the one metadata text of this world. *)
Definition parse (s : jsstring) : option JSON :=
  if decide (s = beta_metadata) then
    Some (JObj [(js "clawdbot",
                 JObj [(js "emoji", JStr (js "B"));
                       (js "requires",
                        JObj [(js "bins", JArr [JStr (js "zzznotarealbin")]);
                              (js "env", JArr [JStr (js "API_KEY")])])])])
  else None.

Definition alpha_md : jsstring :=
  lines [js "---"; js "name: Alpha"; js "description: 'first skill'"; js "---"; js "# Alpha"].

Definition alpha_renamed_md : jsstring :=
  lines [js "---"; js "name: Omega"; js "description: 'first skill'"; js "---"; js "# Alpha"].

Definition beta_md : jsstring :=
  lines [js "---"; js "name: beta"; js "metadata: " ++ beta_metadata; js "---"].

Definition web_search_md : jsstring :=
  lines [js "---"; js "name: Web Search"; js "description: search the web"; js "---"].

Definition plain_md : jsstring := lines [js "# No header here"; js "---"; js "name: x"; js "---"].

Definition root_entries (alpha : jsstring) : list Dirent :=
  [ {| d_name := js "web-search"; d_isDirectory := true;
       d_skillFile := SkillFileText plain_md |};
    {| d_name := js "alpha"; d_isDirectory := true; d_skillFile := SkillFileText alpha |};
    {| d_name := js "README.md"; d_isDirectory := false; d_skillFile := NoSkillFile |};
    {| d_name := js "drafts"; d_isDirectory := true; d_skillFile := NoSkillFile |} ].

Definition extra_entries : list Dirent :=
  [ {| d_name := js "beta"; d_isDirectory := true; d_skillFile := SkillFileText beta_md |};
    {| d_name := js "web-search"; d_isDirectory := true;
       d_skillFile := SkillFileText web_search_md |} ].

(** The first root with one more skill, whose name is not a pattern. *)
Definition cpp_entries : list Dirent :=
  root_entries alpha_md
  ++ [ {| d_name := js "c++"; d_isDirectory := true; d_skillFile := SkillFileText plain_md |} ].

Definition roots (entries : list Dirent) (dir : jsstring) : RootState :=
  if decide (dir = js "/home/u/skills") then RootEntries entries
  else if decide (dir = js "/opt/skills") then RootEntries extra_entries
  else RootMissing.

(** 2026-11-02T09:00:00Z. *)
Definition now : Z := 1793610000000.

Definition log_files : list LogFile :=
  [ {| f_name := js "2026-11-01.md"; f_mtime := Some now;
       f_text := Some (js "Used alpha, then Web Search and web-search; ALPHA again.") |};
    {| f_name := js "2026-10-01.md"; f_mtime := Some now;
       f_text := Some (js "alpha alpha alpha") |};
    {| f_name := js "actions.log"; f_mtime := Some (now - 3600000)%Z;
       f_text := Some (js "run web-search") |};
    {| f_name := js "old.md"; f_mtime := Some (now - 30 * msPerDay)%Z;
       f_text := Some (js "alpha web-search") |};
    {| f_name := js "data.json"; f_mtime := None; f_text := None |} ].

Definition logs (dir : jsstring) : LogDirState :=
  if decide (dir = js "/home/u/memory") then LogDirFiles log_files else LogDirMissing.

Definition host_of (entries : list Dirent) : Host :=
  {| unicodeUpper := fun c => c;
     toLowerCase := lower_ascii;
     localeCompare := compare_units;
     JSON_parse := parse;
     Number_toString := fun _ => js "0";
     RegExp_host := fun _ => None;
     LocalTZA := fun _ _ => 0%Z;
     path_join := join (js "/");
     homedir := js "/home/u";
     clock := fun _ => now;
     skillRoot := roots entries;
     logDir := logs;
     command_v := fun cmd => bool_decide (cmd = js "clawdhub");
     env_truthy := fun _ => false;
     clawdhub_search := fun name =>
       if decide (name = js "alpha") then Some (js "alpha v1.2.0  Alpha  (0.9)")
       else Some [] |}.

Definition host (alpha : jsstring) : Host := host_of (root_entries alpha).

(** The world with the first descriptor of [alpha]. *)
Definition world : Host := host alpha_md.

(** The first entry of the first root, whose descriptor has no header. *)
Definition plain_entry : Dirent :=
  {| d_name := js "web-search"; d_isDirectory := true;
     d_skillFile := SkillFileText plain_md |}.

(** The cutoff of a window of seven days. *)
Definition cutoff : Z := (now - 7 * msPerDay)%Z.

(** Results of the health and registry checks, to try the decision on. *)
Definition broken_health : HealthResult :=
  {| missingBins := [JStr (js "zzznotarealbin")]; missingEnvs := [];
     bins := [JStr (js "zzznotarealbin")]; envs := [] |}.

Definition sound_health : HealthResult :=
  {| missingBins := []; missingEnvs := []; bins := [JStr (js "curl")]; envs := [] |}.

Definition found_hub : HubResult := {| available := true; version := js "1.2.0" |}.

Definition config : Config :=
  {| SKILL_DIRS := [js "/home/u/skills"; js "/opt/skills"; js "/nowhere"];
     MEMORY_DIR := js "/home/u/memory";
     DAYS_BACK := Some 7%Z;
     SKIP_HUB := false |}.

(** The same configuration with a log directory that does not exist. *)
Definition config_no_logs : Config :=
  {| SKILL_DIRS := SKILL_DIRS config; MEMORY_DIR := js "/home/u/none";
     DAYS_BACK := None; SKIP_HUB := false |}.

End Demo.

(** ** The report of [main] (lines 175-176 and 222-302) *)

(** [r.rec === c] on the four recommendation strings. *)
Definition rec_eqb (a b : Recommendation) : bool :=
  match a, b with
  | keep, keep | update, update | review, review | remove, remove => true
  | _, _ => false
  end.

(** The time part of [toISOString()]: hours, minutes, seconds and
    milliseconds of the day. *)
Definition iso_time (t : Z) : jsstring :=
  let ms := (t mod msPerDay)%Z in
  pad 2 (ms / 3600000) ++ js ":" ++ pad 2 (ms / 60000 mod 60) ++ js ":"
    ++ pad 2 (ms / 1000 mod 60) ++ js "." ++ pad 3 (ms mod 1000).

(** [date.toISOString()] of a valid date. *)
Definition toISOString (t : Z) : jsstring :=
  iso_date t ++ js "T" ++ iso_time t ++ js "Z".

(** [now.toISOString().replace("T", " ").slice(0, 19)] (line 176). *)
Definition timestamp (now : Z) : jsstring :=
  firstn 19 (replace_first (toISOString now) (js "T") (js " ")).

Section Report.

Variable h : Host.
Variable cfg : Config.

(** [`${DAYS_BACK}`]: [NaN] prints as such, an integer below 10^21 in
    magnitude prints its sign and decimal digits, and a larger number is
    printed by the host in exponent form. *)
Definition days_text : jsstring :=
  match DAYS_BACK cfg with
  | None => js "NaN"
  | Some n =>
      if (Z.abs n <? 10 ^ 21)%Z then
        (if (n <? 0)%Z then js "-" else []) ++ decimal (Z.to_N (Z.abs n))
      else Number_toString h (inject_Z n)
  end.

(** The lines pushed before the rows of the table (lines 226-245). *)
Definition report_head (now : Z) (skills : list Skill) (results : list Result)
  : list jsstring :=
  let tally := main_tally results in
  [ js "# " ++ [55357; 56589]%N ++ js " Skill Audit Report";
    [];
    js "_Generated: " ++ timestamp now ++ js "_";
    js "_Usage window: last " ++ days_text ++ js " days_";
    [];
    js "## Summary";
    [];
    js "- **Total skills:** " ++ decimal (N.of_nat (List.length skills));
    js "- **ClawdHub:** "
      ++ (if hubAvailable h cfg then js "available " ++ [9989%N]
          else js "not installed " ++ [9888; 65039]%N ++ js " (version checks skipped)");
    js "- " ++ [9989%N] ++ js " **Keep:** " ++ decimal (N.of_nat (t_keep tally));
    js "- " ++ [55357; 56580]%N ++ js " **Update:** " ++ decimal (N.of_nat (t_update tally));
    js "- " ++ [55357; 56590]%N ++ js " **Review:** " ++ decimal (N.of_nat (t_review tally));
    js "- " ++ [55357; 56785; 65039]%N ++ js " **Remove:** "
      ++ decimal (N.of_nat (t_remove tally));
    [];
    js "## Detailed Report";
    [];
    js "| # | Skill | Source | Bins | Usage (" ++ days_text ++ js "d) | Health | Hub | Rec |";
    js "|---|-------|--------|------|---------|--------|-----|-----|" ].

(** [results.filter((r) => r.rec === "remove")] (line 284). *)
Definition broken (results : list Result) : list Result :=
  List.filter (fun r => rec_eqb (r_rec r) remove) results.

(** The filter of line 285. *)
Definition envIssues (results : list Result) : list Result :=
  List.filter (fun r => (0 <? List.length (missingEnvs (r_health r)))%nat
                        && negb (rec_eqb (r_rec r) remove)) results.

(** The line pushed for a broken skill (line 291). *)
Definition broken_line (r : Result) : jsstring :=
  js "- **" ++ dirName (r_skill r) ++ js "** " ++ [8212%N] ++ js " "
    ++ [55357; 56785; 65039]%N ++ js " Broken: `"
    ++ join_values h (js ", ") (missingBins (r_health r))
    ++ js "` not found. Install deps or remove skill.".

(** The line pushed for a skill with unset variables (line 294). *)
Definition env_line (r : Result) : jsstring :=
  js "- **" ++ dirName (r_skill r) ++ js "** " ++ [8212%N] ++ js " "
    ++ [9888; 65039]%N ++ js " Missing env: `"
    ++ join_values h (js ", ") (missingEnvs (r_health r))
    ++ js "`. Set env vars or review if needed.".

(** The lines of the attention section below its heading
    (lines 284-296). *)
Definition attention (results : list Result) : list jsstring :=
  if (List.length (broken results) =? 0)%nat && (List.length (envIssues results) =? 0)%nat
  then [js "_No critical issues found._"]
  else List.map broken_line (broken results) ++ List.map env_line (envIssues results).

(** All the lines pushed, in order (lines 223-300). *)
Definition report_lines (now : Z) (skills : list Skill) (results : list Result)
  : list jsstring :=
  report_head now skills results
  ++ render_rows h 0 results
  ++ [ [];
       js "## " ++ [9888; 65039]%N ++ js " Skills Needing Attention";
       [] ]
  ++ attention results
  ++ [ [];
       js "---";
       js "_Audit complete. This report is read-only " ++ [8212%N]
         ++ js " no changes were made._" ].

(** [main], run at the time value [now]: the text given to
    [console.log], or the exception that reaches [main().catch]. *)
Definition main (now : Z) : outcome jsstring :=
  skills ← allSkills h cfg;
  results ← process_from h cfg 0 skills;
  Ok (join [LF] (report_lines now skills results)).

End Report.

(** ** The configuration (lines 20-26) *)

(** The process environment and the platform functions that the
    configuration reads. *)
Record Env := {
  (** [process.env[name]], [None] where it is [undefined] *)
  getenv : jsstring → option jsstring;
  (** [path.resolve] of one path *)
  resolve : jsstring → jsstring;
  (** [parseInt(text, 10)] on a text with more than 15 digits, whose
      number is rounded to a double: [None] for [NaN]; an infinite
      result is outside the model *)
  parseInt_long : jsstring → option Z }.

(** The digits of [parseInt(text, 10)], once the sign is read: the
    digits up to the first code unit that is no digit write the number;
    without a digit the result is [NaN]. *)
Definition parse_digits (E : Env) (text : jsstring) (negative : bool) (rest : jsstring)
  : option Z :=
  let digits := fst (span is_digit rest) in
  match digits with
  | [] => None
  | _ :: _ =>
      if (List.length digits <=? 15)%nat then
        let mathInt := Z.of_N (fold_left (fun v d => (10 * v + (d - 48))%N) digits 0%N) in
        Some (if negative then (- mathInt)%Z else mathInt)
      else parseInt_long E text
  end.

(** [parseInt(text, 10)]: leading white space is skipped and a sign is
    read. *)
Definition parseInt (E : Env) (text : jsstring) : option Z :=
  match trimStart text with
  | 45%N :: rest => parse_digits E text true rest
  | 43%N :: rest => parse_digits E text false rest
  | rest => parse_digits E text false rest
  end.

(** The four constants of the configuration. *)
Definition config_of (E : Env) : Config :=
  {| SKILL_DIRS :=
       match getenv E (js "SKILL_DIRS") with
       | Some (c :: s) => List.map (fun d => resolve E (trim d)) (split (c :: s) 44)
       | _ => [resolve E (js "./skills")]
       end;
     MEMORY_DIR := resolve E (str_or (getenv E (js "MEMORY_DIR")) (js "./memory"));
     DAYS_BACK := parseInt E (str_or (getenv E (js "AUDIT_DAYS")) (js "7"));
     SKIP_HUB := bool_decide (getenv E (js "SKIP_HUB") = Some (js "1"))
                 || bool_decide (getenv E (js "SKIP_HUB") = Some (js "true")) |}.

(** ** More vocabulary *)

(** The number of results with the recommendation [c]. *)
Definition recommended (c : Recommendation) (results : list Result) : nat :=
  List.length (List.filter (fun r => rec_eqb (r_rec r) c) results).

(** A result with nothing missing. *)
Definition nothing_missing (r : Result) : bool :=
  match missingBins (r_health r), missingEnvs (r_health r) with
  | [], [] => true
  | _, _ => false
  end.

(** A result with a declared binary missing, and one that misses
    variables only. *)
Definition lacks_bin (r : Result) : bool :=
  match missingBins (r_health r) with
  | [] => false
  | _ :: _ => true
  end.

Definition lacks_env_only (r : Result) : bool :=
  match missingBins (r_health r), missingEnvs (r_health r) with
  | [], _ :: _ => true
  | _, _ => false
  end.

(** An entry whose [SKILL.md] is there and cannot be read. *)
Definition unreadable_entry (e : Dirent) : Prop :=
  d_isDirectory e = true ∧ d_skillFile e = SkillFileUnreadable.



(** The health result of a skill that declares nothing. *)
Definition nothing_declared : HealthResult :=
  {| missingBins := []; missingEnvs := []; bins := []; envs := [] |}.

(** The object that holds [v] under the keys [keys], one inside the
    other. *)
Definition nest (keys : list jsstring) (v : JSON) : JSON :=
  fold_right (fun k inner => JObj [(k, inner)]) v keys.


(** The same configuration with the registry checks switched off. *)
Definition skip_hub (cfg : Config) : Config :=
  {| SKILL_DIRS := SKILL_DIRS cfg; MEMORY_DIR := MEMORY_DIR cfg;
     DAYS_BACK := DAYS_BACK cfg; SKIP_HUB := true |}.

(** A result whose registry check was skipped. *)
Definition without_hub (r : Result) : Result :=
  {| r_skill := r_skill r; r_emoji := r_emoji r; r_health := r_health r;
     r_usage := r_usage r;
     r_hub := {| available := false; version := js "n/a" |};
     r_bins := r_bins r; r_rec := r_rec r |}.

(** A header line [key:text]. *)
Definition field_line (kv : jsstring * jsstring) : jsstring :=
  fst kv ++ [COLON] ++ snd kv.

(** A descriptor: the header with one line per field, then [body]. *)
Definition descriptor (fields : list (jsstring * jsstring)) (body : jsstring)
  : jsstring :=
  js "---" ++ [LF] ++ join [LF] (List.map field_line fields) ++ [LF] ++ js "---" ++ body.

(** A key the header pattern takes: a word character, then word
    characters and hyphens. *)
Definition field_key (k : jsstring) : Prop :=
  match k with
  | c :: k' => is_word c = true
               ∧ Forall (fun x => is_word x || (x =? HYPHEN)%N = true) k'
  | [] => False
  end.

(** A text the header pattern takes as a value: on one line, with a
    code unit that is no white space. *)
Definition field_text (v : jsstring) : Prop :=
  Forall (fun c => is_line_terminator c = false) v
  ∧ Exists (fun c => is_space c = false) v.

(** A line of a header that cannot be taken for its end. *)
Definition inner_line (line : jsstring) : Prop :=
  ∃ c t, line = c :: t ∧ c ≠ HYPHEN ∧ Forall (fun x => x ≠ LF) line.

(** What is stored for a field: the text trimmed, without its quotes;
    nothing is stored under [__proto__]. *)
Definition stored (fields : list (jsstring * jsstring)) : list (jsstring * jsstring) :=
  List.map (fun kv => (fst kv, strip_quotes (trim (snd kv))))
           (List.filter (fun kv => negb (bool_decide (fst kv = js "__proto__"))) fields).

(** The daily log of the day that holds the instant [t]. *)
Definition daily_log (t : Z) : jsstring := cutoff_string t ++ js ".md".

(** The years 0 to 9999, in which a date prints with a four-digit year. *)
Definition four_digit_year (t : Z) : Prop :=
  (-62167219200000 ≤ t ≤ 253402300799999)%Z.

(** Dates in the order of the calendar. *)
Definition date_lt (a b : Z * Z * Z) : Prop :=
  let '(y, m, d) := a in
  let '(y', m', d') := b in
  (y < y' ∨ (y = y' ∧ (m < m' ∨ (m = m' ∧ d < d'))))%Z.

(** The host's case mapping leaves white space alone: a code unit
    that canonicalizes as a white space code unit does is white
    space. *)
Definition keeps_space (up : N → N) : Prop :=
  ∀ a ch, is_space a = true → Canonicalize up a = Canonicalize up ch →
          is_space ch = true.


Definition blank (s : jsstring) : Prop := Forall (fun c => is_space c = true) s.

(** A variable of the environment that is unset or empty. *)
Definition unset (E : Env) (name : jsstring) : Prop :=
  getenv E name = None ∨ getenv E name = Some [].

(** What may follow the digits of a number: nothing, or a code unit
    that is no digit. *)
Definition no_digit_ahead (s : jsstring) : Prop :=
  match s with
  | [] => True
  | c :: _ => is_digit c = false
  end.

(** A name in ASCII. *)
Definition ascii_name (id : jsstring) : Prop := Forall (fun c => (c < 128)%N) id.

Module Tour.

(** A descriptor with quoted and padded values and a repeated key. *)
Definition fields : list (jsstring * jsstring) :=
  [ (js "name", js " first");
    (js "description", Demo.jq "  'A  quoted text'  ");
    (js "__proto__", js " x");
    (js "name", js "second") ].

Definition skill_md : jsstring := descriptor fields (LF :: js "# Body").

(** A descriptor whose metadata is no JSON text. *)
Definition broken_md : jsstring :=
  descriptor [(js "name", js " gamma"); (js "metadata", js " {clawdbot}")] [].

Definition broken_entry : Dirent :=
  {| d_name := js "gamma"; d_isDirectory := true; d_skillFile := SkillFileText broken_md |}.

(** A skill whose metadata declares its binaries as a string. *)
Definition string_bins : JSON :=
  nest [js "clawdbot"; js "requires"; js "bins"] (JStr (js "curl")).


(** A world whose log directory is a file, and one whose second root
    cannot be listed. *)
Definition host_unlistable_logs : Host :=
  {| unicodeUpper := unicodeUpper Demo.world; toLowerCase := toLowerCase Demo.world;
     localeCompare := localeCompare Demo.world; JSON_parse := JSON_parse Demo.world;
     Number_toString := Number_toString Demo.world; RegExp_host := RegExp_host Demo.world;
     LocalTZA := LocalTZA Demo.world; path_join := path_join Demo.world;
     homedir := homedir Demo.world; clock := clock Demo.world;
     skillRoot := skillRoot Demo.world;
     logDir := fun _ => LogDirUnlistable;
     command_v := command_v Demo.world; env_truthy := env_truthy Demo.world;
     clawdhub_search := clawdhub_search Demo.world |}.

Definition host_unlistable_root : Host :=
  with_skillRoot Demo.world
    (fun dir => if decide (dir = js "/opt/skills") then RootUnlistable
                else skillRoot Demo.world dir).

(** A window that is no number, over the log directory of the world. *)
Definition config_nan : Config :=
  {| SKILL_DIRS := SKILL_DIRS Demo.config; MEMORY_DIR := MEMORY_DIR Demo.config;
     DAYS_BACK := None; SKIP_HUB := false |}.

(** Results with other inputs but the same missing binaries and the
    same usage. *)
Definition env_health : HealthResult :=
  {| missingBins := []; missingEnvs := [JStr (js "API_KEY")];
     bins := []; envs := [JStr (js "API_KEY")] |}.

Definition absent_hub : HubResult := {| available := true; version := js "not found" |}.

(** The second skill of the world, as the collection records it. *)
Definition beta_skill : Skill :=
  {| record := {| dirName := js "beta"; name := js "beta"; description := [];
                  meta := default (JObj []) (Demo.parse Demo.beta_metadata);
                  path := js "/opt/skills/beta/SKILL.md" |};
     source := js "/opt/skills" |}.

(** The daily log of the day before the scan, without a modification
    time, and the pattern of the name [alpha]. *)
Definition yesterday : Z := (Demo.now - msPerDay)%Z.

Definition log : LogFile :=
  {| f_name := daily_log yesterday; f_mtime := None;
     f_text := Some (js "alpha and Alpha") |}.

Definition pattern : Pattern := Compiled (seq_of (List.map atom (js "alpha"))).

(** The report of the world, line by line. *)
Definition report : list jsstring :=
  [ js "# " ++ [55357; 56589]%N ++ js " Skill Audit Report";
    [];
    js "_Generated: 2026-11-02 09:00:00_";
    js "_Usage window: last 7 days_";
    [];
    js "## Summary";
    [];
    js "- **Total skills:** 3";
    js "- **ClawdHub:** available " ++ [9989%N];
    js "- " ++ [9989%N] ++ js " **Keep:** 2";
    js "- " ++ [55357; 56580]%N ++ js " **Update:** 0";
    js "- " ++ [55357; 56590]%N ++ js " **Review:** 0";
    js "- " ++ [55357; 56785; 65039]%N ++ js " **Remove:** 1";
    [];
    js "## Detailed Report";
    [];
    js "| # | Skill | Source | Bins | Usage (7d) | Health | Hub | Rec |";
    js "|---|-------|--------|------|---------|--------|-----|-----|";
    js "| 1 | alpha | ~/skills | " ++ [8212%N] ++ js " | " ++ [55357; 56522]%N
      ++ js " 2 | " ++ [9989%N] ++ js " | v1.2.0 | " ++ [9989%N] ++ js " keep |";
    js "| 2 | B beta | /opt/skills | zzznotarealbin | " ++ [8212%N] ++ js " | "
      ++ [10060%N] ++ js " zzznotarealbin | " ++ [8212%N] ++ js " | "
      ++ [55357; 56785; 65039]%N ++ js " remove |";
    js "| 3 | web-search | /opt/skills | " ++ [8212%N] ++ js " | " ++ [55357; 56522]%N
      ++ js " 3 | " ++ [9989%N] ++ js " | " ++ [8212%N] ++ js " | " ++ [9989%N]
      ++ js " keep |";
    [];
    js "## " ++ [9888; 65039]%N ++ js " Skills Needing Attention";
    [];
    js "- **beta** " ++ [8212%N] ++ js " " ++ [55357; 56785; 65039]%N
      ++ js " Broken: `zzznotarealbin` not found. Install deps or remove skill.";
    [];
    js "---";
    js "_Audit complete. This report is read-only " ++ [8212%N]
      ++ js " no changes were made._" ].

(** An environment that sets the window and the roots. *)
Definition env : Env :=
  {| getenv := fun name =>
       if decide (name = js "AUDIT_DAYS") then Some (js " 14 days")
       else if decide (name = js "SKILL_DIRS") then Some (js "/home/u/skills, /opt/skills")
       else None;
     resolve := fun p => p;
     parseInt_long := fun _ => None |}.

End Tour.

(** * Properties *)

(** ** The model on known inputs *)

Section Checks.

Local Abbreviation text := Demo.count_in.

(** Matches are counted as [String.prototype.match] returns them with
    the [g] flag: empty matches count, and the search resumes after a
    match. *)
Example count_star : text "a*" "baaac" = Some 4.
Proof. reflexivity. Qed.

Example count_lazy_plus : text "a+?" "baaac aa" = Some 5.
Proof. reflexivity. Qed.

Example count_alternation : text "(a|ab)(c|bcd)" "abcd abcd" = Some 2.
Proof. reflexivity. Qed.

Example count_nested_star : text "(a*)*" "aab" = Some 3.
Proof. reflexivity. Qed.

Example count_ignores_case : text "c+" "C++ c cc" = Some 3.
Proof. reflexivity. Qed.

Example count_class :
  text "my[\s-]skill" "use My Skill and my-skill, not myskill" = Some 2.
Proof. reflexivity. Qed.

Example malformed_patterns :
  List.map (fun p => parse_pattern (js p)) ["c++"; "("; "a)"; "^*"; "a|*"; "a+??"]%string
  = [Malformed; Malformed; Malformed; Malformed; Malformed; Malformed].
Proof. reflexivity. Qed.

Example dates :
  List.map iso_date [0; 951782400000; 1793610000000; -1;
                     8640000000000000; -8640000000000000]%Z
  = [js "1970-01-01"; js "2000-02-29"; js "2026-11-02"; js "1969-12-31";
     js "+275760-09-13"; js "-271821-04-20"].
Proof. reflexivity. Qed.

Example line_values :
  List.map line_match [js "name: my-skill"; js "description: 'x'  "; js "key:   ";
                       js "-key: v"; js "key : v"]
  = [Some (js "name", js "my-skill"); Some (js "description", js "'x'  ");
     Some (js "key", js " "); None; None].
Proof. reflexivity. Qed.

Lemma digits_fuel_value fuel : ∀ n acc,
  (n < 2 ^ N.of_nat fuel)%N →
  digits_value (digits_fuel fuel n acc)
  = fold_left (fun v d => (10 * v + (d - 48))%N) acc n.
Proof.
  unfold digits_value.
  induction fuel as [|fuel IH]; intros n acc Hn.
  - change (2 ^ N.of_nat 0)%N with 1%N in Hn.
    assert (n = 0%N) as -> by lia. reflexivity.
  - cbn [digits_fuel].
    assert (Hdigit : (10 * (n / 10) + (48 + n mod 10 - 48) = n)%N).
    { rewrite (N.add_comm 48), N.add_sub. symmetry. apply N.div_mod'. }
    destruct (n <? 10)%N eqn:Hlt.
    + apply N.ltb_lt in Hlt. simpl. f_equal.
      rewrite (N.add_comm 48), N.add_sub, N.mod_small by exact Hlt. reflexivity.
    + rewrite IH.
      * simpl. f_equal. exact Hdigit.
      * apply N.Div0.div_lt_upper_bound.
        rewrite Nat2N.inj_succ, N.pow_succ_r' in Hn. lia.
Qed.

(** [decimal] writes its number: the fuel it takes is enough. *)
Lemma decimal_value n : digits_value (decimal n) = n.
Proof.
  unfold decimal. rewrite digits_fuel_value; [reflexivity|].
  rewrite Nat2N.inj_succ, N2Nat.id.
  destruct n as [|p]; [reflexivity|]. apply N.log2_spec. lia.
Qed.

Lemma digits_fuel_digits fuel : ∀ n acc,
  Forall (fun c => is_digit c = true) acc →
  Forall (fun c => is_digit c = true) (digits_fuel fuel n acc).
Proof.
  induction fuel as [|fuel IH]; intros n acc Hacc; [exact Hacc|].
  cbn [digits_fuel].
  assert (Hd : is_digit (48 + n mod 10) = true).
  { assert (Hm : (n mod 10 < 10)%N) by (apply N.mod_lt; discriminate).
    unfold is_digit. apply andb_true_intro.
    revert Hm. generalize (n mod 10)%N. intros r Hr.
    split; apply N.leb_le; lia. }
  destruct (n <? 10)%N; [|apply IH]; constructor; assumption.
Qed.

Lemma digits_fuel_length fuel : ∀ n acc w,
  (0 < w)%nat → (n < 10 ^ N.of_nat w)%N →
  (List.length (digits_fuel fuel n acc) ≤ List.length acc + w)%nat.
Proof.
  induction fuel as [|fuel IH]; intros n acc w Hw Hn; [simpl; lia|].
  cbn [digits_fuel]. destruct (n <? 10)%N eqn:Hlt; [simpl; lia|].
  apply N.ltb_ge in Hlt.
  destruct w as [|[|w]]; [lia | simpl in Hn; lia |].
  etransitivity; [apply (IH _ _ (S w)); [lia|] | simpl; lia].
  apply N.Div0.div_lt_upper_bound.
  rewrite (Nat2N.inj_succ (S w)), N.pow_succ_r' in Hn. exact Hn.
Qed.

(** A number below [10 ^ width] is padded to exactly [width] digits. *)
Lemma pad_shape width n :
  (0 < width)%nat → (0 ≤ n < 10 ^ Z.of_nat width)%Z →
  List.length (pad width n) = width
  ∧ Forall (fun c => is_digit c = true) (pad width n).
Proof.
  intros Hw Hn. unfold pad, decimal.
  set (d := digits_fuel _ _ _).
  assert (Hlen : (List.length d ≤ width)%nat).
  { subst d. apply (digits_fuel_length _ _ [] width Hw).
    apply N2Z.inj_lt. rewrite N2Z.inj_pow, Z2N.id, nat_N_Z by lia.
    change (Z.of_N 10) with 10%Z. lia. }
  split.
  - rewrite length_app, repeat_length. lia.
  - apply Forall_app. split.
    + apply List.Forall_forall. intros c Hc. apply repeat_spec in Hc.
      subst c. reflexivity.
    + subst d. apply digits_fuel_digits. constructor.
Qed.

(** The calendar of [toISOString]: in the years 0 to 9999 the months
    and days are in range, and the date gives back its day number. *)
Lemma civil_from_days_bounds t :
  (-62167219200000 ≤ t ≤ 253402300799999)%Z →
  let '(y, m, d) := civil_from_days (t / msPerDay) in
  (0 ≤ y ≤ 9999 ∧ 1 ≤ m ≤ 12 ∧ 1 ≤ d ≤ 31)%Z.
Proof.
  intros H. unfold civil_from_days, msPerDay. cbv zeta.
  set (z := (t / 86400000 + 719468)%Z).
  assert (Hz : (-60 ≤ z ≤ 3652364)%Z) by (subst z; Z.div_mod_to_equations; lia).
  clearbody z. clear H t.
  set (era := (z / 146097)%Z).
  set (doe := (z - era * 146097)%Z).
  assert (Hdoe : (0 ≤ doe ≤ 146096)%Z) by (subst doe era; Z.div_mod_to_equations; lia).
  set (yoe := ((doe - doe / 1460 + doe / 36524 - doe / 146096) / 365)%Z).
  set (doy := (doe - (365 * yoe + yoe / 4 - yoe / 100))%Z).
  assert (Hy : (0 ≤ yoe ≤ 399 ∧ 0 ≤ doy ≤ 365)%Z).
  { subst doy yoe. clearbody doe. clear -Hdoe.
    repeat split; Z.div_mod_to_equations; lia. }
  set (mp := ((5 * doy + 2) / 153)%Z).
  assert (Hmp : (0 ≤ mp ≤ 11)%Z) by (subst mp; Z.div_mod_to_equations; lia).
  split; [|split].
  - destruct (mp <? 10)%Z eqn:E; [apply Z.ltb_lt in E | apply Z.ltb_ge in E].
    + replace (mp + 3 <=? 2)%Z with false by (symmetry; apply Z.leb_gt; lia).
      subst mp doy yoe doe era. Z.div_mod_to_equations. lia.
    + replace (mp - 9 <=? 2)%Z with true by (symmetry; apply Z.leb_le; lia).
      subst mp doy yoe doe era. Z.div_mod_to_equations. lia.
  - destruct (mp <? 10)%Z eqn:E; [apply Z.ltb_lt in E | apply Z.ltb_ge in E]; lia.
  - subst mp. clearbody doy. Z.div_mod_to_equations. lia.
Qed.

Lemma civil_from_days_inverse z :
  let '(y, m, d) := civil_from_days z in days_from_civil y m d = z.
Proof.
  unfold civil_from_days. cbv zeta.
  set (z1 := (z + 719468)%Z).
  set (era := (z1 / 146097)%Z).
  set (doe := (z1 - era * 146097)%Z).
  assert (Hdoe : (0 ≤ doe ≤ 146096)%Z) by (subst doe era; Z.div_mod_to_equations; lia).
  set (yoe := ((doe - doe / 1460 + doe / 36524 - doe / 146096) / 365)%Z).
  set (doy := (doe - (365 * yoe + yoe / 4 - yoe / 100))%Z).
  assert (Hy : (0 ≤ yoe ≤ 399 ∧ 0 ≤ doy ≤ 365)%Z).
  { subst doy yoe. clearbody doe. clear -Hdoe.
    repeat split; Z.div_mod_to_equations; lia. }
  set (mp := ((5 * doy + 2) / 153)%Z).
  assert (Hmp : (0 ≤ mp ≤ 11)%Z) by (subst mp; Z.div_mod_to_equations; lia).
  assert (Hd : ((153 * mp + 2) / 5 + (doy - (153 * mp + 2) / 5 + 1) - 1 = doy)%Z) by lia.
  unfold days_from_civil.
  destruct (mp <? 10)%Z eqn:E; [apply Z.ltb_lt in E | apply Z.ltb_ge in E].
  - replace (mp + 3 <=? 2)%Z with false by (symmetry; apply Z.leb_gt; lia).
    replace (2 <? mp + 3)%Z with true by (symmetry; apply Z.ltb_lt; lia).
    cbv zeta. replace (mp + 3 - 3)%Z with mp by lia.
    assert (Hyear : ((yoe + era * 400 + 0) / 400 = era)%Z)
      by (clear -Hy; Z.div_mod_to_equations; lia).
    rewrite Hyear, Hd.
    replace (yoe + era * 400 + 0 - era * 400)%Z with yoe by lia.
    subst doy doe z1. lia.
  - replace (mp - 9 <=? 2)%Z with true by (symmetry; apply Z.leb_le; lia).
    replace (2 <? mp - 9)%Z with false by (symmetry; apply Z.ltb_ge; lia).
    cbv zeta. replace (mp - 9 + 9)%Z with mp by lia.
    assert (Hyear : ((yoe + era * 400 + 1 - 1) / 400 = era)%Z)
      by (clear -Hy; Z.div_mod_to_equations; lia).
    rewrite Hyear, Hd.
    replace (yoe + era * 400 + 1 - 1 - era * 400)%Z with yoe by lia.
    subst doy doe z1. lia.
Qed.

(** In the years 0 to 9999 the cutoff date string has the shape
    YYYY-MM-DD, the shape of the date in a log file's name. *)
Lemma cutoff_string_shape t :
  (-62167219200000 ≤ t ≤ 253402300799999)%Z →
  strict_date_name (cutoff_string t ++ js ".md") (cutoff_string t).
Proof.
  intros Ht. pose proof (civil_from_days_bounds t Ht) as Hb.
  unfold cutoff_string, iso_date.
  destruct (civil_from_days (t / msPerDay)) as [[y m] d].
  destruct Hb as (Hy & Hm & Hd).
  replace ((0 <=? y) && (y <=? 9999))%Z with true
    by (symmetry; apply andb_true_intro; split; apply Z.leb_le; lia).
  destruct (pad_shape 4 y) as [Ly Dy]; [lia | simpl; lia |].
  destruct (pad_shape 2 m) as [Lm Dm]; [lia | simpl; lia |].
  destruct (pad_shape 2 d) as [Ld Dd]; [lia | simpl; lia |].
  destruct (pad 4 y) as [|y1 [|y2 [|y3 [|y4 [|]]]]]; try discriminate Ly.
  destruct (pad 2 m) as [|m1 [|m2 [|]]]; try discriminate Lm.
  destruct (pad 2 d) as [|d1 [|d2 [|]]]; try discriminate Ld.
  exists y1, y2, y3, y4, m1, m2, d1, d2. split; [|split; reflexivity].
  repeat match goal with
         | H : Forall _ (_ :: _) |- _ => apply Forall_cons in H as [? H]
         end.
  repeat constructor; assumption.
Qed.

End Checks.

(** ** The recommendation engine *)

Section Recommendation.

Implicit Types (health : HealthResult) (usage : nat) (hub : HubResult).

(** C1. A skill with a missing required executable is recommended
    [remove], whatever the usage count and the registry result. *)
Theorem missing_bin_gives_remove health usage hub :
  missingBins health ≠ [] →
  main_rec health usage hub = remove.
Proof.
  intros Hmissing. unfold main_rec.
  destruct (missingBins health) as [|b l]; [congruence | reflexivity].
Qed.

(** C2. With no missing executable and a registry version other than
    "not found", "n/a" and "error", the recommendation is [keep] for a
    positive usage count and [review] for a count of zero. *)
Theorem concrete_version_keep_or_review health usage hub :
  missingBins health = [] →
  version hub ≠ js "not found" →
  version hub ≠ js "n/a" →
  version hub ≠ js "error" →
  (0 < usage → main_rec health usage hub = keep)
  ∧ (usage = 0 → main_rec health usage hub = review).
Proof.
  intros Hbins H1 H2 H3. unfold main_rec. rewrite Hbins. simpl.
  rewrite !bool_decide_eq_true_2 by assumption. simpl.
  split; intros Hu.
  - destruct usage; [lia | reflexivity].
  - subst usage. reflexivity.
Qed.

Lemma main_rec_cases health usage hub :
  main_rec health usage hub = keep
  ∨ main_rec health usage hub = review
  ∨ main_rec health usage hub = remove.
Proof.
  unfold main_rec.
  repeat match goal with
         | |- context [if ?b then _ else _] => destruct b
         end; auto.
Qed.

Lemma process_skill_rec h cfg k skill r :
  process_skill h cfg k skill = Ok r →
  r_rec r = main_rec (r_health r) (r_usage r) (r_hub r).
Proof.
  unfold process_skill. intros H.
  destruct (checkHealth h (meta skill)) as [health|]; simpl in H; [|discriminate].
  destruct (checkUsage h cfg k (dirName skill)) as [usage|]; simpl in H; [|discriminate].
  destruct (as_array _) as [declared|]; simpl in H; [|discriminate].
  injection H as <-. reflexivity.
Qed.

Lemma process_from_rec h cfg skills : ∀ k results,
  process_from h cfg k skills = Ok results →
  Forall (fun r => r_rec r = main_rec (r_health r) (r_usage r) (r_hub r)) results.
Proof.
  induction skills as [|skill skills IH]; intros k results H; simpl in H.
  - injection H as <-. constructor.
  - destruct (process_skill h cfg k skill) as [r|] eqn:Hr; simpl in H; [|discriminate].
    destruct (process_from h cfg (S k) skills) as [rs|] eqn:Hrs; simpl in H; [|discriminate].
    injection H as <-. constructor; eauto using process_skill_rec.
Qed.

Lemma tally_update_fold results : ∀ t,
  Forall (fun r => r_rec r ≠ update) results →
  t_update (fold_left tally_incr results t) = t_update t.
Proof.
  induction results as [|r results IH]; intros t Hall; simpl; [reflexivity|].
  inversion Hall as [|? ? Hr Hrest]; subst.
  rewrite IH by assumption.
  unfold tally_incr. destruct (r_rec r); simpl; congruence.
Qed.

(** C3. The recommendation is one of [keep], [review] and [remove] and
    never [update]; so the [update] slot of the tally of any result
    set that [main] builds is 0. *)
Theorem update_never_recommended :
  (∀ health usage hub,
      main_rec health usage hub ≠ update
      ∧ (main_rec health usage hub = keep
         ∨ main_rec health usage hub = review
         ∨ main_rec health usage hub = remove))
  ∧ (∀ results,
        Forall (fun r => r_rec r = main_rec (r_health r) (r_usage r) (r_hub r)) results →
        t_update (main_tally results) = 0)
  ∧ (∀ h cfg results,
        main_results h cfg = Ok results →
        Forall (fun r => r_rec r ≠ update) results
        ∧ t_update (main_tally results) = 0).
Proof.
  assert (Hnever : ∀ results,
             Forall (fun r => r_rec r = main_rec (r_health r) (r_usage r) (r_hub r))
                    results →
             Forall (fun r => r_rec r ≠ update) results).
  { intros results H. eapply Forall_impl; [exact H|]. intros r ->.
    destruct (main_rec_cases (r_health r) (r_usage r) (r_hub r)) as [-> | [-> | ->]];
      discriminate. }
  split; [|split].
  - intros health usage hub.
    pose proof (main_rec_cases health usage hub) as Hc.
    split; [|exact Hc]. destruct Hc as [-> | [-> | ->]]; discriminate.
  - intros results H. unfold main_tally.
    rewrite tally_update_fold by exact (Hnever results H). reflexivity.
  - intros h cfg results H. unfold main_results in H.
    destruct (allSkills h cfg) as [skills|]; simpl in H; [|discriminate].
    apply process_from_rec, Hnever in H.
    split; [exact H|].
    unfold main_tally. rewrite tally_update_fold by exact H. reflexivity.
Qed.

End Recommendation.

(** ** The pattern built from a skill's name *)

Section Pattern.

Lemma parse_from_char c s cur stack :
  is_syntax c = false →
  parse_from (c :: s) cur stack = parse_from s (push_term cur (RChar c) true) stack.
Proof.
  intros Hc. destruct c as [|p]; [reflexivity|].
  do 8 (try (destruct p as [p|p|]; try reflexivity; try discriminate Hc)).
Qed.

Lemma parse_from_space_dash s cur stack :
  parse_from (js "[\s-]" ++ s) cur stack
  = parse_from s (push_term cur RSpaceDash true) stack.
Proof. reflexivity. Qed.

Lemma parse_from_source id : ∀ s cur stack,
  Forall (fun c => is_syntax c = false) id →
  parse_from (pattern_source id ++ s) cur stack
  = parse_from s (push_atoms cur id) stack.
Proof.
  induction id as [|c id IH]; intros s cur stack Hid; [reflexivity|].
  inversion Hid as [|? ? Hc Hrest]; subst.
  unfold pattern_source in *. simpl flat_map. unfold push_atoms. simpl fold_left.
  unfold atom at 2.
  destruct (c =? HYPHEN)%N eqn:Hh.
  - rewrite <- app_assoc, parse_from_space_dash. apply IH, Hrest.
  - simpl app. rewrite parse_from_char by exact Hc. apply IH, Hrest.
Qed.

Lemma push_atoms_terms id : ∀ cur,
  f_terms (push_atoms cur id) = rev (List.map atom id) ++ f_terms cur
  ∧ f_alts (push_atoms cur id) = f_alts cur.
Proof.
  induction id as [|c id IH]; intros cur; [split; reflexivity|].
  unfold push_atoms in *. simpl.
  destruct (IH (push_term cur (atom c) true)) as [-> ->]. simpl.
  rewrite <- app_assoc. split; reflexivity.
Qed.

(** A name without syntax characters compiles to the sequence of its
    atoms. *)
Lemma parse_pattern_source id :
  Forall (fun c => is_syntax c = false) id →
  parse_pattern (pattern_source id) = Parsed (seq_of (List.map atom id)).
Proof.
  intros Hid. unfold parse_pattern.
  rewrite <- (app_nil_r (pattern_source id)), parse_from_source by exact Hid.
  simpl. unfold close_frame.
  destruct (push_atoms_terms id frame0) as [-> ->]. simpl.
  rewrite app_nil_r, rev_involutive. reflexivity.
Qed.

Variable up : N → N.

Lemma same_letter_accepted c ch :
  same_letter c ch → accepts_char up c ch = true.
Proof.
  unfold accepts_char, Canonicalize, is_lower, is_upper.
  intros [-> | [[Hl ->] | [Hu ->]]].
  - apply N.eqb_refl.
  - apply andb_prop in Hl as [H1%N.leb_le H2%N.leb_le].
    replace (c <? 128)%N with true by (symmetry; apply N.ltb_lt; lia).
    replace (c - 32 <? 128)%N with true by (symmetry; apply N.ltb_lt; lia).
    replace (97 <=? c)%N with true by (symmetry; apply N.leb_le; lia).
    replace (c <=? 122)%N with true by (symmetry; apply N.leb_le; lia).
    replace (97 <=? c - 32)%N with false by (symmetry; apply N.leb_gt; lia).
    simpl. apply N.eqb_refl.
  - apply andb_prop in Hu as [H1%N.leb_le H2%N.leb_le].
    replace (c <? 128)%N with true by (symmetry; apply N.ltb_lt; lia).
    replace (c + 32 <? 128)%N with true by (symmetry; apply N.ltb_lt; lia).
    replace (97 <=? c + 32)%N with true by (symmetry; apply N.leb_le; lia).
    replace (c + 32 <=? 122)%N with true by (symmetry; apply N.leb_le; lia).
    replace (c <=? 122)%N with true by (symmetry; apply N.leb_le; lia).
    replace (97 <=? c)%N with false by (symmetry; apply N.leb_gt; lia).
    simpl. apply N.eqb_eq. lia.
Qed.

Lemma space_or_hyphen_accepted ch :
  ch = HYPHEN ∨ is_space ch = true → accepts_space_dash up ch = true.
Proof.
  intros H. unfold accepts_space_dash. apply existsb_exists. exists ch. split.
  - apply in_or_app. destruct H as [-> | Hs]; [right; left; reflexivity|].
    left. unfold is_space in Hs. apply existsb_exists in Hs as (a & Ha & Heq).
    apply N.eqb_eq in Heq. subst a. exact Ha.
  - apply N.eqb_refl.
Qed.

#[local] Arguments star_loop : simpl never.

Lemma star_loop_S step greedy k fuel x :
  star_loop step greedy k (S fuel) x
  = let again := step x (fun y => if consumed x y
                                  then star_loop step greedy k fuel y else None) in
    if greedy then match again with Some e => Some e | None => k x end
    else match k x with Some e => Some e | None => again end.
Proof. reflexivity. Qed.

(** The matcher reads its continuation only through its values. *)
Lemma star_loop_ext step greedy k k' :
  (∀ x k1 k2, (∀ y, k1 y = k2 y) → step x k1 = step x k2) →
  (∀ y, k y = k' y) →
  ∀ fuel x, star_loop step greedy k fuel x = star_loop step greedy k' fuel x.
Proof.
  intros Hstep Hk. induction fuel as [|fuel IH]; intros x; [reflexivity|].
  rewrite !star_loop_S. cbv zeta.
  rewrite (Hstep x _ (fun y => if consumed x y then star_loop step greedy k' fuel y
                               else None))
    by (intros y; destruct (consumed x y); [apply IH | reflexivity]).
  rewrite Hk. reflexivity.
Qed.

Lemma step_if_ext ok x k k' :
  (∀ y, k y = k' y) → step_if ok x k = step_if ok x k'.
Proof.
  intros Hk. unfold step_if. destruct (snd x); [reflexivity|]. rewrite Hk. reflexivity.
Qed.

Lemma matcher_ext r : ∀ x k k',
  (∀ y, k y = k' y) → matcher up r x k = matcher up r x k'.
Proof.
  induction r as [| c | | | | | a IHa b IHb | a IHa b IHb
                 | greedy a IHa | greedy a IHa | greedy a IHa];
    intros x k k' Hk; simpl.
  - apply Hk.
  - apply step_if_ext, Hk.
  - apply step_if_ext, Hk.
  - apply step_if_ext, Hk.
  - destruct (fst x); [apply Hk | reflexivity].
  - destruct (snd x); [apply Hk | reflexivity].
  - apply IHa. intros y. apply IHb, Hk.
  - rewrite (IHa x k k' Hk), (IHb x k k' Hk). reflexivity.
  - apply star_loop_ext; [exact IHa | exact Hk].
  - apply IHa. intros y. apply star_loop_ext; [exact IHa | exact Hk].
  - rewrite (IHa x _ (fun y => if consumed x y then k' y else None))
      by (intros y; destruct (consumed x y); [apply Hk | reflexivity]).
    rewrite Hk. reflexivity.
Qed.

(** The loop of a quantifier does not run out of fuel: any fuel above
    the length of the rest of the text gives the same result. *)
Lemma star_loop_fuel step greedy k :
  (∀ x k1 k2, (∀ y, k1 y = k2 y) → step x k1 = step x k2) →
  ∀ fuel fuel' x,
    List.length (snd x) < fuel → List.length (snd x) < fuel' →
    star_loop step greedy k fuel x = star_loop step greedy k fuel' x.
Proof.
  intros Hstep. induction fuel as [|fuel IH]; intros [|fuel'] x Hf Hf'; try lia.
  rewrite !star_loop_S. cbv zeta.
  rewrite (Hstep x _ (fun y => if consumed x y then star_loop step greedy k fuel' y
                               else None)); [reflexivity|].
  intros y. unfold consumed. destruct (_ <? _) eqn:Hc; [|reflexivity].
  apply Nat.ltb_lt in Hc. apply IH; lia.
Qed.

Lemma star_fuel_enough greedy a x k fuel :
  List.length (snd x) < fuel →
  star_loop (matcher up a) greedy k fuel x = matcher up (RStar greedy a) x k.
Proof.
  intros Hf. cbn [matcher]. apply star_loop_fuel; [apply matcher_ext | exact Hf | lia].
Qed.

(** An occurrence of the name is consumed by the sequence of its atoms,
    which then goes on with what follows. *)
Lemma matcher_atoms id occ :
  occurrence id occ →
  ∀ rest i k,
    matcher up (seq_of (List.map atom id)) (i, occ ++ rest) k
    = k ((i + List.length id)%nat, rest).
Proof.
  induction 1 as [|c ch id occ Hc Hocc IH]; intros rest i k; simpl.
  - f_equal. f_equal. lia.
  - assert (Hstep : ∀ k', matcher up (atom c) (i, ch :: occ ++ rest) k'
                          = k' (S i, occ ++ rest)).
    { intros k'. unfold atom, occurrence_char in *.
      destruct (c =? HYPHEN)%N; simpl; unfold step_if; simpl.
      - rewrite space_or_hyphen_accepted by exact Hc. reflexivity.
      - rewrite same_letter_accepted by exact Hc. reflexivity. }
    rewrite Hstep, IH. f_equal. f_equal. lia.
Qed.

(** A match at some index gives a count of at least one. *)
Lemma count_from_found r before : ∀ i rest e,
  match_at up r (i + List.length before) rest = Some e →
  1 ≤ count_from up r i (before ++ rest) 0.
Proof.
  induction before as [|c before IH]; intros i rest e He; simpl.
  - rewrite Nat.add_0_r in He. destruct rest; simpl; rewrite He; lia.
  - destruct (match_at up r i (c :: before ++ rest)); [lia|].
    apply (IH (S i) rest e). rewrite <- He. f_equal. simpl. lia.
Qed.

Lemma count_from_skip_all r rest : ∀ i,
  count_from up r i rest (List.length rest)
  = match match_at up r (i + List.length rest) [] with Some _ => 1 | None => 0 end.
Proof.
  induction rest as [|c rest IH]; intros i; simpl.
  - rewrite Nat.add_0_r. destruct (match_at up r i []); reflexivity.
  - rewrite IH. replace (S i + List.length rest) with (i + S (List.length rest)) by lia.
    reflexivity.
Qed.

Lemma count_from_match r i c rest e :
  match_at up r i (c :: rest) = Some e →
  count_from up r i (c :: rest) 0 = S (count_from up r (S i) rest (Nat.pred (e - i))).
Proof. intros He. cbn [count_from]. rewrite He. reflexivity. Qed.

Lemma occurrence_length id occ : occurrence id occ → List.length occ = List.length id.
Proof. induction 1; simpl; congruence. Qed.

End Pattern.

(** X1. A name without syntax characters compiles, and its pattern
    finds every occurrence of the name: with each hyphen written as a
    hyphen or as white space, and in any letter case. *)
Theorem name_without_syntax_matches_occurrences h id :
  Forall (fun c => is_syntax c = false) id →
  ∃ r, RegExp_new h (pattern_source id) = Ok (Compiled r)
       ∧ ∀ occ, occurrence id occ →
           (∀ before after,
               1 ≤ match_count h (Compiled r) (before ++ occ ++ after))
           ∧ (id ≠ [] → match_count h (Compiled r) occ = 1).
Proof.
  intros Hid. exists (seq_of (List.map atom id)). split.
  - unfold RegExp_new. rewrite parse_pattern_source by exact Hid. reflexivity.
  - intros occ Hocc. split.
    + intros before after. simpl. unfold count_matches.
      apply (count_from_found _ _ _ _ _ (List.length before + List.length id)).
      unfold match_at. rewrite (matcher_atoms _ _ _ Hocc). reflexivity.
    + intros Hne. simpl. unfold count_matches.
      pose proof (occurrence_length _ _ Hocc) as Hlen.
      destruct Hocc as [|c ch id occ Hc Hocc]; [congruence|].
      assert (Hm : match_at (unicodeUpper h) (seq_of (List.map atom (c :: id))) 0 (ch :: occ)
                   = Some (S (List.length id))).
      { unfold match_at. rewrite <- (app_nil_r (ch :: occ)).
        rewrite (matcher_atoms _ (c :: id) (ch :: occ)) by (constructor; assumption).
        reflexivity. }
      rewrite (count_from_match _ _ _ _ _ _ Hm). simpl in Hlen.
      replace (Nat.pred (S (List.length id) - 0)) with (List.length occ) by lia.
      rewrite count_from_skip_all.
      unfold match_at, atom. simpl.
      destruct (c =? HYPHEN)%N; reflexivity.
Qed.

(** C5. The pattern does not find every hyphenated or space-separated
    occurrence of every name: a name with a pattern syntax character is
    given to [new RegExp] as it is.  For the name [c++-tools] the
    construction throws; for [notes(v2)-sync] the pattern finds neither
    the name as written nor the name with a space. *)
Theorem pattern_misses_names_with_syntax_characters :
  RegExp_new Demo.world (pattern_source (js "c++-tools")) = Throw SyntaxError
  ∧ ∃ p, RegExp_new Demo.world (pattern_source (js "notes(v2)-sync")) = Ok p
         ∧ occurrence (js "notes(v2)-sync") (js "notes(v2)-sync")
         ∧ occurrence (js "notes(v2)-sync") (js "notes(v2) sync")
         ∧ match_count Demo.world p (js "I ran notes(v2)-sync today") = 0
         ∧ match_count Demo.world p (js "I ran notes(v2) sync today") = 0
         ∧ match_count Demo.world p (js "I ran notesv2 sync today") = 1.
Proof.
  split; [reflexivity|].
  eexists. split; [reflexivity|].
  split; [|split].
  - repeat constructor.
  - unfold occurrence, js. simpl.
    repeat (constructor; [first [left; reflexivity | right; reflexivity]|]).
    constructor.
  - repeat split; vm_compute; reflexivity.
Qed.

(** ** The usage scan *)

Section Usage.

Lemma startsWith_spec p : ∀ s, startsWith s p = true ↔ ∃ q, s = p ++ q.
Proof.
  induction p as [|a p IH]; intros s; simpl.
  - split; [intros _; exists s; reflexivity | destruct s; reflexivity].
  - destruct s as [|b s].
    + split; [discriminate | intros [q Hq]; discriminate].
    + simpl. rewrite andb_true_iff, N.eqb_eq, IH. split.
      * intros [-> [q ->]]. exists q. reflexivity.
      * intros [q Hq]. injection Hq as -> ->. split; [reflexivity | exists q; reflexivity].
Qed.

Lemma endsWith_spec s p : endsWith s p = true ↔ ends_with s p.
Proof.
  unfold endsWith, ends_with. rewrite startsWith_spec. split.
  - intros [q Hq]. exists (rev q).
    rewrite <- (rev_involutive s), Hq, rev_app_distr, rev_involutive. reflexivity.
  - intros [q ->]. exists (rev q). apply rev_app_distr.
Qed.

Lemma js_lt_spec a : ∀ b, js_lt a b = true ↔ lex_lt a b.
Proof.
  induction a as [|x a IH]; intros [|y b]; simpl.
  - split; [discriminate | inversion 1].
  - split; [constructor | reflexivity].
  - split; [discriminate | inversion 1].
  - rewrite orb_true_iff, andb_true_iff, N.ltb_lt, N.eqb_eq, IH. split.
    + intros [Hlt | [-> Hlt]]; [apply lex_lt_head | apply lex_lt_tail]; assumption.
    + inversion 1; subst; [left | right]; auto.
Qed.

Lemma js_ge_spec a b : js_ge a b = true ↔ ¬ lex_lt a b.
Proof.
  unfold js_ge. rewrite negb_true_iff, <- js_lt_spec.
  destruct (js_lt a b); split; congruence.
Qed.

Lemma dateMatch_spec f date : dateMatch f = Some date ↔ strict_date_name f date.
Proof.
  unfold strict_date_name. split.
  - intros H.
    do 14 (destruct f as [|? f]; try discriminate H).
    unfold dateMatch in H.
    destruct (forallb is_digit _) eqn:Hd; [|discriminate H].
    destruct (n3 =? HYPHEN)%N eqn:H1; [|discriminate H].
    destruct (n6 =? HYPHEN)%N eqn:H2; [|discriminate H].
    destruct (bool_decide _) eqn:H3; [|discriminate H].
    simpl in H. injection H as <-.
    apply N.eqb_eq in H1, H2. apply bool_decide_eq_true in H3. subst.
    injection H3 as -> -> ->.
    exists n, n0, n1, n2, n4, n5, n7, n8.
    split; [|split; reflexivity].
    apply List.Forall_forall. apply List.forallb_forall. exact Hd.
  - intros (y1 & y2 & y3 & y4 & m1 & m2 & d1 & d2 & Hd & -> & ->).
    pose proof (proj2 (List.forallb_forall is_digit _)
                      (proj1 (List.Forall_forall _ _) Hd)) as Hb.
    change (js ".md") with [46%N; 109%N; 100%N]. simpl app.
    unfold dateMatch. rewrite Hb. reflexivity.
Qed.

Lemma included_spec cutoff cutoffStr f :
  included cutoff cutoffStr f = true ↔ Included cutoff cutoffStr f.
Proof.
  unfold included, Included.
  destruct (dateMatch (f_name f)) as [date|] eqn:Hdm.
  - rewrite js_ge_spec. apply dateMatch_spec in Hdm. split.
    + intros Hge. left. exists date. split; assumption.
    + intros [(date' & Hs & Hge) | (Hno & _)].
      * apply dateMatch_spec in Hs, Hdm. congruence.
      * exfalso. apply Hno. exists date. exact Hdm.
  - assert (Hno : ¬ ∃ date, strict_date_name (f_name f) date).
    { intros [date Hs]. apply dateMatch_spec in Hs. congruence. }
    rewrite andb_true_iff, orb_true_iff, !endsWith_spec. split.
    + intros [Hends Hm]. right. split; [exact Hno|]. split; [exact Hends|].
      destruct (f_mtime f) as [mtime|]; [|discriminate].
      exists mtime. split; [reflexivity|]. apply Z.leb_le. exact Hm.
    + intros [(date & Hs & _) | (_ & Hends & mtime & -> & Hm)].
      * exfalso. apply Hno. exists date. exact Hs.
      * split; [exact Hends|]. apply Z.leb_le. exact Hm.
Qed.

Variable h : Host.

Lemma scan_file_included cutoff cutoffStr p n f :
  scannable cutoff cutoffStr f →
  scan_file h (Some cutoff) cutoffStr p n f
  = Ok (n + if included cutoff cutoffStr f then match_count h p (text_of f) else 0).
Proof.
  unfold scannable, scan_file, included, text_of, readFile, stat_mtime.
  intros [Htext Hstat].
  destruct (dateMatch (f_name f)) as [date|].
  - destruct (js_ge date cutoffStr).
    + destruct (Htext eq_refl) as [content ->]. reflexivity.
    + rewrite Nat.add_0_r. reflexivity.
  - destruct (endsWith (f_name f) (js ".log") || endsWith (f_name f) (js ".md")).
    + destruct (Hstat eq_refl eq_refl) as [mtime Hm]. rewrite Hm in *. simpl.
      destruct (cutoff <=? mtime)%Z.
      * destruct (Htext eq_refl) as [content ->]. reflexivity.
      * rewrite Nat.add_0_r. reflexivity.
    + rewrite Nat.add_0_r. reflexivity.
Qed.

Lemma foldM_scan_file cutoff cutoffStr p files : ∀ n,
  Forall (scannable cutoff cutoffStr) files →
  foldM (scan_file h (Some cutoff) cutoffStr p) files n
  = Ok (n + list_sum (List.map (fun f => if included cutoff cutoffStr f
                                         then match_count h p (text_of f) else 0)
                               files)).
Proof.
  induction files as [|f files IH]; intros n Hall; simpl.
  - rewrite Nat.add_0_r. reflexivity.
  - inversion Hall as [|? ? Hf Hrest]; subst.
    rewrite scan_file_included by exact Hf. simpl.
    rewrite IH by exact Hrest. f_equal. lia.
Qed.

(** C4. The usage scan counts exactly the files that the specification
    includes: a file with a strict date name when its date is not below
    the cutoff date string in the lexicographic order, any other [.log]
    or [.md] file when its modification time is at or after the cutoff
    instant; and the count returned is the sum, over these files, of
    the matches of the pattern in the file's text. *)
Theorem usage_counts_included_files (cfg : Config) (k : nat)
  (skillName : jsstring) (files : list LogFile) (cutoff : Z) (p : Pattern) :
  logDir h (MEMORY_DIR cfg) = LogDirFiles files →
  cutoff_of h (clock h k) (DAYS_BACK cfg) = Some cutoff →
  RegExp_new h (pattern_source skillName) = Ok p →
  Forall (scannable cutoff (cutoff_string cutoff)) files →
  checkUsage h cfg k skillName
  = Ok (list_sum (List.map (fun f => if included cutoff (cutoff_string cutoff) f
                                     then match_count h p (text_of f) else 0)
                           files))
  ∧ ∀ f, included cutoff (cutoff_string cutoff) f = true
         ↔ Included cutoff (cutoff_string cutoff) f.
Proof.
  intros Hdir Hcut Hp Hfiles. split; [|intros f; apply included_spec].
  unfold checkUsage. rewrite Hdir, Hcut, Hp.
  cbv beta iota delta [mbind outcome_bind toISOString_slice10].
  change (firstn 10 (iso_date cutoff)) with (cutoff_string cutoff).
  rewrite (foldM_scan_file cutoff (cutoff_string cutoff) p files 0 Hfiles).
  reflexivity.
Qed.


End Usage.

(** C7. Without a log directory the usage scan returns 0 and does not
    throw, for every name and every window, a [NaN] window included. *)
Theorem usage_zero_without_log_directory h cfg k skillName :
  logDir h (MEMORY_DIR cfg) = LogDirMissing →
  checkUsage h cfg k skillName = Ok 0.
Proof. intros Hdir. unfold checkUsage. rewrite Hdir. reflexivity. Qed.

(** C10. The usage scan is not total in the name: with a log directory
    in place and a valid window, the name [c++] makes [new RegExp] throw
    a [SyntaxError], which [checkUsage] throws on; an audit over a root
    that holds a skill directory of that name ends without a report. *)
Theorem usage_scan_throws_on_syntax_error :
  (∀ h cfg k files cutoff,
      logDir h (MEMORY_DIR cfg) = LogDirFiles files →
      cutoff_of h (clock h k) (DAYS_BACK cfg) = Some cutoff →
      checkUsage h cfg k (js "c++") = Throw SyntaxError)
  ∧ checkUsage Demo.world Demo.config 0 (js "c++") = Throw SyntaxError
  ∧ main_rows (Demo.host_of Demo.cpp_entries) Demo.config = Throw SyntaxError
  ∧ ∃ rows, main_rows Demo.world Demo.config = Ok rows ∧ List.length rows = 3.
Proof.
  split; [|split; [|split]].
  - intros h cfg k files cutoff Hdir Hcut. unfold checkUsage.
    rewrite Hdir, Hcut. reflexivity.
  - vm_compute. reflexivity.
  - vm_compute. reflexivity.
  - eexists. split; [vm_compute; reflexivity | reflexivity].
Qed.

(** ** The inventory *)

Section Inventory.

Variable h : Host.

Lemma startsWith_skipn p : ∀ s,
  startsWith s p = true → s = p ++ skipn (List.length p) s.
Proof.
  induction p as [|a p IH]; intros s H; [destruct s; reflexivity|].
  destruct s as [|b s]; [discriminate|]. simpl in H.
  apply andb_prop in H as [->%N.eqb_eq H]. simpl. f_equal. apply IH, H.
Qed.

Lemma find_first_unfold p s :
  find_first p s
  = if startsWith s p then Some ([], skipn (List.length p) s)
    else match s with
         | [] => None
         | c :: s' => match find_first p s' with
                      | Some (pre, post) => Some (c :: pre, post)
                      | None => None
                      end
         end.
Proof. destruct s; reflexivity. Qed.

Lemma find_first_some p s : ∀ pre post,
  find_first p s = Some (pre, post) → s = pre ++ p ++ post.
Proof.
  induction s as [|c s IH]; intros pre post H; rewrite find_first_unfold in H.
  - destruct (startsWith [] p) eqn:Hs; [|discriminate H].
    injection H as <- <-. apply startsWith_skipn, Hs.
  - destruct (startsWith (c :: s) p) eqn:Hs.
    + injection H as <- <-. apply startsWith_skipn, Hs.
    + destruct (find_first p s) as [[pre' post']|]; [|discriminate H].
      injection H as <- <-. simpl. f_equal. apply IH. reflexivity.
Qed.

Lemma find_first_none p s :
  find_first p s = None → ∀ pre post, s ≠ pre ++ p ++ post.
Proof.
  induction s as [|c s IH]; intros H pre post Heq; rewrite find_first_unfold in H.
  - destruct (startsWith [] p) eqn:Hs; [discriminate H|].
    destruct pre; [|simpl in Heq; discriminate Heq]. simpl in Heq.
    assert (startsWith [] p = true) by (apply startsWith_spec; exists post; exact Heq).
    congruence.
  - destruct (startsWith (c :: s) p) eqn:Hs; [discriminate H|].
    destruct pre as [|c' pre].
    + assert (startsWith (c :: s) p = true) by (apply startsWith_spec; exists post; exact Heq).
      congruence.
    + simpl in Heq. injection Heq as -> Heq.
      destruct (find_first p s) as [[? ?]|] eqn:Hf; [discriminate H|].
      exact (IH eq_refl pre post Heq).
Qed.

(** [header_match] finds a header exactly in the texts that have one. *)
Lemma header_match_spec content :
  is_Some (header_match content) ↔ has_header content.
Proof.
  unfold header_match, has_header. split.
  - intros [yaml H].
    destruct (startsWith content (js "---" ++ [LF])) eqn:Hs; [|discriminate].
    apply startsWith_skipn in Hs.
    change (List.length (js "---" ++ [LF])) with 4 in Hs.
    destruct (find_first (LF :: js "---") (skipn 4 content)) as [[yaml' tail]|] eqn:Hf;
      [|discriminate].
    apply find_first_some in Hf. exists yaml', tail.
    rewrite Hs at 1. rewrite Hf. rewrite <- !app_assoc. reflexivity.
  - intros (yaml & tail & ->).
    replace (startsWith _ (js "---" ++ [LF])) with true
      by (symmetry; apply startsWith_spec; eexists; rewrite <- !app_assoc; reflexivity).
    change (skipn 4 (js "---" ++ [LF] ++ yaml ++ [LF] ++ js "---" ++ tail))
      with (yaml ++ [LF] ++ js "---" ++ tail).
    destruct (find_first (LF :: js "---") _) as [[yaml' tail']|] eqn:Hf; [eexists; reflexivity|].
    exfalso. exact (find_first_none _ _ Hf yaml tail eq_refl).
Qed.

Lemma parseFrontmatter_no_header content :
  ¬ has_header content →
  parseFrontmatter h content = {| fm_fields := ∅; fm_parsed_meta := None |}.
Proof.
  intros Hno. unfold parseFrontmatter.
  destruct (header_match content) as [yaml|] eqn:Hm; [|reflexivity].
  exfalso. apply Hno, header_match_spec. exists yaml. exact Hm.
Qed.

Lemma forM_pushed {A} (f : A → outcome (option SkillRecord)) l : ∀ turns x s,
  forM f l = Ok turns → In x l → f x = Ok (Some s) →
  In s (pushed_records turns).
Proof.
  induction l as [|a l IH]; intros turns x s H Hin Hx; [destruct Hin|].
  simpl in H.
  destruct (f a) as [t|] eqn:Ha; [|discriminate].
  destruct (forM f l) as [ts|] eqn:Hl; [|discriminate].
  injection H as <-.
  destruct Hin as [-> | Hin].
  - rewrite Hx in Ha. injection Ha as <-. left. reflexivity.
  - specialize (IH ts x s eq_refl Hin Hx).
    destruct t; simpl; auto.
Qed.

(** C9. A [SKILL.md] whose text does not begin with a header is still
    inventoried: the record pushed for it has the directory's name as
    name, an empty description and empty metadata. *)
Theorem headerless_skill_is_inventoried (dir : jsstring) (entry : Dirent)
  (content : jsstring) :
  d_isDirectory entry = true →
  d_skillFile entry = SkillFileText content →
  ¬ has_header content →
  skill_of_entry h dir entry = Ok (Some (default_record h dir entry))
  ∧ ∀ entries skills,
      skillRoot h dir = RootEntries entries →
      In entry entries →
      getSkillsFromDir h dir = Ok skills →
      In (default_record h dir entry) skills.
Proof.
  intros Hdir Hfile Hno.
  assert (Hrec : skill_of_entry h dir entry = Ok (Some (default_record h dir entry))).
  { unfold skill_of_entry. rewrite Hdir, Hfile.
    rewrite parseFrontmatter_no_header by exact Hno. reflexivity. }
  split; [exact Hrec|].
  intros entries skills Hroot Hin Hget.
  unfold getSkillsFromDir in Hget. rewrite Hroot in Hget.
  destruct (forM (skill_of_entry h dir) entries) as [turns|] eqn:Hturns; [|discriminate].
  injection Hget as <-.
  exact (forM_pushed _ _ _ _ _ Hturns Hin Hrec).
Qed.

Lemma forM_Forall2 {A B} (f : A → outcome B) l : ∀ turns,
  forM f l = Ok turns → Forall2 (fun x t => f x = Ok t) l turns.
Proof.
  induction l as [|a l IH]; intros turns H; simpl in H.
  - injection H as <-. constructor.
  - destruct (f a) as [t|] eqn:Ha; [|discriminate H].
    destruct (forM f l) as [ts|] eqn:Hl; [|discriminate H].
    injection H as <-. constructor; auto.
Qed.

Lemma forM_total {A B} (f : A → outcome B) l :
  Forall (fun x => ∃ t, f x = Ok t) l → ∃ turns, forM f l = Ok turns.
Proof.
  induction 1 as [|a l [t Ha] _ [ts IH]]; simpl.
  - eexists; reflexivity.
  - rewrite Ha, IH. eexists; reflexivity.
Qed.

Lemma skill_of_entry_name dir entry s :
  skill_of_entry h dir entry = Ok (Some s) →
  dirName s = d_name entry
  ∧ d_isDirectory entry = true ∧ d_skillFile entry ≠ NoSkillFile.
Proof.
  unfold skill_of_entry.
  destruct (d_isDirectory entry); [|discriminate].
  destruct (d_skillFile entry); try discriminate.
  intros [= <-]. auto.
Qed.

Lemma skill_of_entry_pushes dir entry t :
  skill_of_entry h dir entry = Ok t →
  d_isDirectory entry = true → d_skillFile entry ≠ NoSkillFile →
  ∃ s, t = Some s ∧ dirName s = d_name entry.
Proof.
  unfold skill_of_entry. intros H Hd Hfile. rewrite Hd in H.
  destruct (d_skillFile entry); [congruence | | discriminate H].
  injection H as <-. eexists. split; reflexivity.
Qed.

Lemma pushed_records_names dir entries turns :
  Forall2 (fun x t => skill_of_entry h dir x = Ok t) entries turns →
  ∀ d, In d (List.map dirName (pushed_records turns))
       ↔ ∃ entry, In entry entries ∧ d_name entry = d
                  ∧ d_isDirectory entry = true ∧ d_skillFile entry ≠ NoSkillFile.
Proof.
  induction 1 as [|entry t entries turns Ht _ IH]; intros d; simpl.
  - split; [intros [] | intros (? & [] & _)].
  - destruct t as [s|]; simpl; rewrite ?IH.
    + destruct (skill_of_entry_name _ _ _ Ht) as (Hn & Hd & Hf). split.
      * intros [<- | (e & He & Hrest)]; [exists entry | exists e]; auto.
      * intros (e & [<- | He] & Hrest); [left | right; exists e; auto].
        destruct Hrest as [<- _]. exact Hn.
    + split.
      * intros (e & He & Hrest). exists e. auto.
      * intros (e & [<- | He] & Hn & Hd & Hf); [|exists e; auto].
        destruct (skill_of_entry_pushes _ _ _ Ht Hd Hf) as (s & Hs & _). discriminate Hs.
Qed.

Lemma getSkillsFromDir_names root skills :
  getSkillsFromDir h root = Ok skills →
  ∀ d, In d (List.map dirName skills) ↔ has_skill h root d.
Proof.
  unfold getSkillsFromDir, has_skill. intros H d.
  destruct (skillRoot h root) as [| |entries] eqn:Hroot; [| discriminate H |].
  - injection H as <-. simpl. split; [intros [] | intros (? & ? & [=] & _)].
  - destruct (forM (skill_of_entry h root) entries) as [turns|] eqn:Hturns;
      [|discriminate H].
    injection H as <-.
    rewrite (pushed_records_names _ _ _ (forM_Forall2 _ _ _ Hturns)). split.
    + intros (entry & He). exists entries, entry. split; [reflexivity | exact He].
    + intros (entries' & entry & [= <-] & He). exists entry. exact He.
Qed.

Lemma getSkillsFromDir_total root :
  readable_root h root → ∃ skills, getSkillsFromDir h root = Ok skills.
Proof.
  unfold readable_root, getSkillsFromDir.
  destruct (skillRoot h root) as [| |entries]; [eexists; reflexivity | intros [] |].
  intros Hall.
  destruct (forM_total (skill_of_entry h root) entries) as [turns ->];
    [|eexists; reflexivity].
  eapply Forall_impl; [exact Hall|]. intros entry Hentry. simpl in Hentry.
  unfold skill_of_entry.
  destruct (d_isDirectory entry) eqn:Hd; [|eexists; reflexivity].
  destruct (d_skillFile entry) eqn:Hf; try (eexists; reflexivity).
  exfalso. exact (Hentry eq_refl eq_refl).
Qed.

(** *** The map of skills *)

Lemma map_set_keys m key value : ∀ d,
  In d (List.map fst (map_set m key value)) ↔ d = key ∨ In d (List.map fst m).
Proof.
  induction m as [|[k v] m IH]; intros d; simpl.
  - intuition.
  - destruct (decide (k = key)) as [-> | Hne]; simpl; [intuition|].
    rewrite IH. intuition.
Qed.

Lemma map_set_In m key value : ∀ k v,
  List.NoDup (List.map fst m) →
  In (k, v) (map_set m key value) →
  (k = key ∧ v = value) ∨ (k ≠ key ∧ In (k, v) m).
Proof.
  induction m as [|[k0 v0] m IH]; intros k v Hnd Hin; simpl in *.
  - destruct Hin as [[= <- <-] | []]. auto.
  - apply List.NoDup_cons_iff in Hnd as [Hk0 Hnd].
    destruct (decide (k0 = key)) as [-> | Hne]; simpl in Hin.
    + destruct Hin as [[= <- <-] | Hin]; [auto|]. right. split; [|auto].
      intros ->. apply Hk0. apply List.in_map_iff. exists (key, v). auto.
    + destruct Hin as [[= <- <-] | Hin]; [auto|].
      destruct (IH k v Hnd Hin) as [? | [? ?]]; auto.
Qed.

Lemma map_set_keyed m (value : Skill) :
  keyed m → keyed (map_set m (dirName value) value).
Proof.
  unfold keyed. induction m as [|[k v] m IH]; intros [Hall Hnd]; simpl.
  - split; repeat constructor. intros [].
  - inversion Hall as [|? ? Hkv Hall']; subst.
    apply List.NoDup_cons_iff in Hnd as [Hk Hnd].
    destruct (decide (k = dirName value)) as [-> | Hne]; simpl.
    + split; [constructor; auto | constructor; auto].
    + destruct (IH (conj Hall' Hnd)) as [IH1 IH2]. split; [constructor; auto|].
      constructor; [|exact IH2]. rewrite map_set_keys. intros [-> | Hin]; auto.
Qed.

Lemma set_all_spec label skills : ∀ m,
  keyed m →
  keyed (set_all m label skills)
  ∧ (∀ d, In d (List.map fst (set_all m label skills))
          ↔ In d (List.map fst m) ∨ In d (List.map dirName skills))
  ∧ (∀ k v, In (k, v) (set_all m label skills) →
            (In (record v) skills ∧ source v = label)
            ∨ (In (k, v) m ∧ ¬ In k (List.map dirName skills))).
Proof.
  unfold set_all.
  induction skills as [|s skills IH]; intros m Hm; simpl.
  - split; [exact Hm|]. split; [intuition | auto].
  - set (value := {| record := s; source := label |}).
    assert (Hm1 : keyed (map_set m (dirName s) value))
      by exact (map_set_keyed m value Hm).
    destruct (IH _ Hm1) as (Hk & Hkeys & Hin). split; [exact Hk|]. split.
    + intros d. rewrite Hkeys, map_set_keys. intuition.
    + intros k v Hkv. destruct (Hin k v Hkv) as [[Hr Hs] | [Hkv1 Hno]]; [auto|].
      destruct (map_set_In _ _ _ _ _ (proj2 Hm) Hkv1) as [[-> ->] | [Hne Hkv0]].
      * left. simpl. auto.
      * right. split; [exact Hkv0|]. intros [Heq | Hin']; auto.
Qed.

Lemma from_last_root_cons root dirs s :
  from_last_root h dirs s → from_last_root h (root :: dirs) s.
Proof.
  intros (before & r & after & skills & -> & H).
  exists (root :: before), r, after, skills. split; [reflexivity | exact H].
Qed.

Lemma collect_from_spec dirs : ∀ m,
  Forall (readable_root h) dirs →
  keyed m →
  ∃ m', collect_from h dirs m = Ok m'
        ∧ keyed m'
        ∧ (∀ d, In d (List.map fst m')
                ↔ In d (List.map fst m) ∨ ∃ root, In root dirs ∧ has_skill h root d)
        ∧ (∀ k v, In (k, v) m' →
                  from_last_root h dirs v
                  ∨ (In (k, v) m ∧ ∀ root, In root dirs → ¬ has_skill h root k)).
Proof.
  unfold collect_from.
  induction dirs as [|root dirs IH]; intros m Hdirs Hm; simpl.
  - exists m. split; [reflexivity|]. split; [exact Hm|]. split.
    + intros d. split; [auto | intros [? | (? & [] & _)]; assumption].
    + intros k v Hkv. right. split; [exact Hkv | intros ? []].
  - inversion Hdirs as [|? ? Hroot Hrest]; subst.
    destruct (getSkillsFromDir_total root Hroot) as [skills Hskills].
    rewrite Hskills. simpl.
    destruct (set_all_spec (dirLabel h root) skills m Hm)
      as (Hm1 & Hkeys1 & Hin1).
    destruct (IH _ Hrest Hm1) as (m' & Hm' & Hk' & Hkeys' & Hin').
    exists m'. split; [exact Hm'|]. split; [exact Hk'|]. split.
    + intros d. rewrite Hkeys', Hkeys1, (getSkillsFromDir_names root skills Hskills).
      split.
      * intros [[? | ?] | (r & ? & ?)]; eauto.
      * intros [? | (r & [<- | ?] & ?)]; eauto.
    + intros k v Hkv. destruct (Hin' k v Hkv) as [Hlast | [Hkv1 Hno]].
      * left. apply from_last_root_cons, Hlast.
      * assert (Hname : dirName v = k).
        { destruct Hm1 as [Hall _]. rewrite List.Forall_forall in Hall.
          exact (Hall (k, v) Hkv1). }
        destruct (Hin1 k v Hkv1) as [[Hr Hs] | [Hkv0 Hnone]].
        -- left. exists [], root, dirs, skills. rewrite Hname. auto 6.
        -- right. split; [exact Hkv0|]. intros r [<- | Hr]; [|auto].
           rewrite <- (getSkillsFromDir_names root skills Hskills). exact Hnone.
Qed.

(** *** The sort *)

Lemma sort_insert_perm x l : Permutation (sort_insert h x l) (x :: l).
Proof.
  induction l as [|y l IH]; simpl; [reflexivity|].
  destruct (_ <=? 0)%Z; [reflexivity|].
  rewrite IH. apply perm_swap.
Qed.

Lemma sort_skills_perm l : Permutation (sort_skills h l) l.
Proof.
  induction l as [|x l IH]; simpl; [reflexivity|].
  rewrite sort_insert_perm. constructor. exact IH.
Qed.

Lemma sort_insert_sorted x l :
  consistent (localeCompare h) →
  StronglySorted (name_le h) l → StronglySorted (name_le h) (sort_insert h x l).
Proof.
  intros [Htotal Htrans]. induction 1 as [|y l Hsorted IH Hy]; simpl.
  - repeat constructor.
  - destruct (_ <=? 0)%Z eqn:Hxy.
    + apply Z.leb_le in Hxy. constructor; [constructor; assumption|].
      constructor; [exact Hxy|].
      eapply Forall_impl; [exact Hy|]. intros z Hyz. unfold name_le in *. eauto.
    + apply Z.leb_gt in Hxy. constructor; [exact IH|].
      rewrite List.Forall_forall in *. intros z Hz.
      apply (Permutation_in _ (sort_insert_perm x l)) in Hz as [<- | Hz]; [|auto].
      unfold name_le. destruct (Htotal (dirName y) (dirName x)); [assumption | lia].
Qed.

Lemma sort_skills_sorted l :
  consistent (localeCompare h) → StronglySorted (name_le h) (sort_skills h l).
Proof.
  intros Hc. induction l as [|x l IH]; simpl; [constructor|].
  apply sort_insert_sorted; assumption.
Qed.

Lemma process_from_skills cfg skills : ∀ k results,
  process_from h cfg k skills = Ok results → List.map r_skill results = skills.
Proof.
  induction skills as [|skill skills IH]; intros k results H; simpl in H.
  - injection H as <-. reflexivity.
  - destruct (process_skill h cfg k skill) as [r|] eqn:Hr; [|discriminate H].
    destruct (process_from h cfg (S k) skills) as [rs|] eqn:Hrs; [|discriminate H].
    injection H as <-. simpl. f_equal; [|eauto].
    unfold process_skill in Hr.
    destruct (checkHealth h (meta skill)); [|discriminate Hr].
    destruct (checkUsage h cfg k (dirName skill)); [|discriminate Hr].
    simpl in Hr. destruct (as_array _); [|discriminate Hr].
    injection Hr as <-. reflexivity.
Qed.

(** C6. Over well-formed roots the audit has one report row for each
    directory name that holds a [SKILL.md] in some root, and no other;
    the row is the record of the last root that holds that name; and
    the rows are in the order of the names. *)
Theorem one_row_per_skill_directory (cfg : Config) :
  Forall (readable_root h) (SKILL_DIRS cfg) →
  ∃ skills,
    allSkills h cfg = Ok skills
    ∧ List.NoDup (List.map (fun s : Skill => dirName s) skills)
    ∧ (∀ d, In d (List.map (fun s : Skill => dirName s) skills)
            ↔ ∃ root, In root (SKILL_DIRS cfg) ∧ has_skill h root d)
    ∧ (∀ s, In s skills → from_last_root h (SKILL_DIRS cfg) s)
    ∧ (consistent (localeCompare h) → StronglySorted (name_le h) skills)
    ∧ (∀ results, main_results h cfg = Ok results →
                  List.map r_skill results = skills).
Proof.
  intros Hroots.
  destruct (collect_from_spec (SKILL_DIRS cfg) [] Hroots)
    as (m & Hm & [Hall Hnd] & Hkeys & Hin).
  { split; constructor. }
  assert (Hnames : List.map (fun s : Skill => dirName s) (List.map snd m) = List.map fst m).
  { rewrite List.map_map. apply List.map_ext_in. intros kv Hkv.
    rewrite List.Forall_forall in Hall. exact (Hall kv Hkv). }
  pose proof (sort_skills_perm (List.map snd m)) as Hperm.
  exists (sort_skills h (List.map snd m)).
  split; [|split; [|split; [|split; [|split]]]].
  - unfold allSkills, skillMap. rewrite Hm. reflexivity.
  - eapply Permutation_NoDup; [symmetry; apply Permutation_map, Hperm|].
    rewrite Hnames. exact Hnd.
  - intros d. split.
    + intros Hd. apply (Permutation_in _ (Permutation_map _ Hperm)) in Hd.
      rewrite Hnames in Hd. apply Hkeys in Hd as [[] | Hd]. exact Hd.
    + intros Hd. apply (Permutation_in _ (Permutation_sym (Permutation_map _ Hperm))).
      rewrite Hnames. apply Hkeys. right. exact Hd.
  - intros s Hs. apply (Permutation_in _ Hperm) in Hs.
    apply List.in_map_iff in Hs as ([k v] & <- & Hkv).
    destruct (Hin k v Hkv) as [Hlast | [[] _]]. exact Hlast.
  - intros Hcmp. apply sort_skills_sorted, Hcmp.
  - intros results Hres. unfold main_results, allSkills, skillMap in Hres.
    rewrite Hm in Hres. simpl in Hres.
    exact (process_from_skills _ _ _ _ Hres).
Qed.

End Inventory.

(** ** The declared name *)

Section Renaming.

Variable h : Host.
Variable roots' : jsstring → RootState.

Local Abbreviation h' := (with_skillRoot h roots').

Lemma parseFrontmatter_meta content :
  fm_parsed_meta (parseFrontmatter h content)
  = match str_or (fm_get (parseFrontmatter h content) (js "metadata")) [] with
    | [] => None
    | metadata => Some (match JSON_parse h metadata with
                        | Some j => j
                        | None => JObj []
                        end)
    end.
Proof.
  unfold parseFrontmatter, fm_get. destruct (header_match content); reflexivity.
Qed.

Lemma same_but_name_meta c c' :
  same_but_name h c c' →
  fm_meta (parseFrontmatter h c) = fm_meta (parseFrontmatter h c').
Proof.
  intros Hsame. unfold fm_meta. rewrite !parseFrontmatter_meta.
  rewrite (Hsame (js "metadata")) by discriminate.
  pose proof (Hsame (js "_meta")) as Hm. unfold fm_get in Hm.
  rewrite Hm by discriminate. reflexivity.
Qed.

Lemma skill_of_entry_renamed dir e e' :
  entry_renamed h e e' →
  outcome_map (option_map forget_declared) (skill_of_entry h' dir e')
  = outcome_map (option_map forget_declared) (skill_of_entry h dir e).
Proof.
  intros (Hname & Hdir & Hfile). unfold skill_of_entry.
  rewrite <- Hdir, <- Hname. destruct (d_isDirectory e); [|reflexivity].
  destruct (d_skillFile e) as [|c|], (d_skillFile e') as [|c'|];
    try contradiction; try reflexivity.
  change (parseFrontmatter h' c') with (parseFrontmatter h c').
  simpl. unfold forget_declared. simpl.
  rewrite (same_but_name_meta c c' Hfile).
  rewrite (Hfile (js "description")) by discriminate. reflexivity.
Qed.

Lemma forM_renamed dir es es' :
  Forall2 (entry_renamed h) es es' →
  outcome_map (fun turns => List.map forget_declared (pushed_records turns))
              (forM (skill_of_entry h' dir) es')
  = outcome_map (fun turns => List.map forget_declared (pushed_records turns))
                (forM (skill_of_entry h dir) es).
Proof.
  induction 1 as [|e e' es es' He _ IH]; [reflexivity|]. simpl.
  pose proof (skill_of_entry_renamed dir e e' He) as Hhead.
  destruct (skill_of_entry h' dir e') as [t'|], (skill_of_entry h dir e) as [t|];
    simpl in Hhead; try discriminate Hhead;
    [|injection Hhead as ->; reflexivity].
  injection Hhead as Hhead. simpl.
  destruct (forM (skill_of_entry h' dir) es') as [ts'|],
           (forM (skill_of_entry h dir) es) as [ts|];
    simpl in IH; try discriminate IH;
    [|injection IH as ->; reflexivity].
  injection IH as IH. simpl. f_equal.
  destruct t' as [s'|], t as [s|]; simpl in Hhead; try discriminate Hhead; simpl.
  - rewrite IH. f_equal. congruence.
  - exact IH.
Qed.

Hypothesis Hroots : ∀ dir, root_renamed h (skillRoot h dir) (roots' dir).

Lemma getSkillsFromDir_renamed dir :
  outcome_map (List.map forget_declared) (getSkillsFromDir h' dir)
  = outcome_map (List.map forget_declared) (getSkillsFromDir h dir).
Proof.
  unfold getSkillsFromDir. change (skillRoot h' dir) with (roots' dir).
  specialize (Hroots dir). unfold root_renamed in Hroots.
  destruct (skillRoot h dir) as [| |es], (roots' dir) as [| |es'];
    try contradiction; try reflexivity.
  pose proof (forM_renamed dir es es' Hroots) as H.
  destruct (forM (skill_of_entry h' dir) es'), (forM (skill_of_entry h dir) es);
    simpl in *; congruence.
Qed.

Lemma map_set_forget m key value :
  forget_names (map_set m key value)
  = map_set (forget_names m) key (forget_name value).
Proof.
  induction m as [|[k v] m IH]; simpl; [reflexivity|].
  destruct (decide (k = key)); simpl; [reflexivity|]. rewrite IH. reflexivity.
Qed.

Lemma set_all_forget label skills : ∀ m,
  forget_names (set_all m label skills)
  = set_all (forget_names m) label (List.map forget_declared skills).
Proof.
  unfold set_all. induction skills as [|s skills IH]; intros m; simpl; [reflexivity|].
  rewrite IH, map_set_forget. reflexivity.
Qed.

Lemma collect_from_renamed dirs : ∀ m m',
  forget_names m' = forget_names m →
  outcome_map forget_names (collect_from h' dirs m')
  = outcome_map forget_names (collect_from h dirs m).
Proof.
  unfold collect_from.
  induction dirs as [|dir dirs IH]; intros m m' Hm; simpl; [congruence|].
  pose proof (getSkillsFromDir_renamed dir) as Hdir.
  destruct (getSkillsFromDir h' dir) as [skills'|], (getSkillsFromDir h dir) as [skills|];
    simpl in Hdir; try discriminate Hdir; [|injection Hdir as ->; reflexivity].
  injection Hdir as Hskills. simpl. apply IH.
  change (homedir h') with (homedir h).
  rewrite !set_all_forget, Hm, Hskills. reflexivity.
Qed.

Lemma sort_insert_forget x l :
  sort_insert h (forget_name x) (List.map forget_name l)
  = List.map forget_name (sort_insert h x l).
Proof.
  induction l as [|y l IH]; simpl; [reflexivity|].
  destruct (_ <=? 0)%Z; simpl; [reflexivity|]. rewrite IH. reflexivity.
Qed.

Lemma sort_skills_forget l :
  sort_skills h (List.map forget_name l) = List.map forget_name (sort_skills h l).
Proof.
  induction l as [|x l IH]; simpl; [reflexivity|].
  rewrite IH. apply sort_insert_forget.
Qed.

Lemma allSkills_renamed cfg :
  outcome_map (List.map forget_name) (allSkills h' cfg)
  = outcome_map (List.map forget_name) (allSkills h cfg).
Proof.
  unfold allSkills, skillMap.
  pose proof (collect_from_renamed (SKILL_DIRS cfg) [] [] eq_refl) as Hm.
  destruct (collect_from h' (SKILL_DIRS cfg) []) as [m'|],
           (collect_from h (SKILL_DIRS cfg) []) as [m|];
    simpl in Hm; try discriminate Hm; [|injection Hm as ->; reflexivity].
  injection Hm as Hm. simpl. f_equal.
  change (sort_skills h') with (sort_skills h).
  rewrite <- !sort_skills_forget. f_equal.
  unfold forget_names in Hm.
  apply (f_equal (List.map snd)) in Hm. rewrite !List.map_map in Hm.
  rewrite !List.map_map. exact Hm.
Qed.

Lemma process_skill_forget cfg k s s' :
  forget_name s' = forget_name s →
  outcome_map forget_result (process_skill h' cfg k s')
  = outcome_map forget_result (process_skill h cfg k s).
Proof.
  intros Hs. change (process_skill h' cfg k s') with (process_skill h cfg k s').
  assert (Hdir : dirName s' = dirName s) by (injection Hs; auto).
  assert (Hmeta : meta s' = meta s) by (injection Hs; auto).
  unfold process_skill. rewrite Hdir, Hmeta.
  destruct (checkHealth h (meta s)); [|reflexivity]. simpl.
  destruct (checkUsage h cfg k (dirName s)); [|reflexivity]. simpl.
  destruct (as_array _); [|reflexivity]. simpl.
  unfold forget_result. simpl. rewrite Hs. reflexivity.
Qed.

Lemma process_from_forget cfg l : ∀ l' k,
  List.map forget_name l' = List.map forget_name l →
  outcome_map (List.map forget_result) (process_from h' cfg k l')
  = outcome_map (List.map forget_result) (process_from h cfg k l).
Proof.
  induction l as [|s l IH]; intros [|s' l'] k Hl; try discriminate Hl; [reflexivity|].
  assert (Hs : forget_name s' = forget_name s) by (simpl in Hl; congruence).
  assert (Hrest : List.map forget_name l' = List.map forget_name l)
    by (simpl in Hl; congruence).
  cbn [process_from].
  pose proof (process_skill_forget cfg k s s' Hs) as Hhead.
  destruct (process_skill h' cfg k s') as [r'|], (process_skill h cfg k s) as [r|];
    simpl in Hhead; try discriminate Hhead; [|injection Hhead as ->; reflexivity].
  specialize (IH l' (S k) Hrest). simpl.
  destruct (process_from h' cfg (S k) l') as [rs'|], (process_from h cfg (S k) l) as [rs|];
    simpl in IH; try discriminate IH; [|injection IH as ->; reflexivity].
  simpl. congruence.
Qed.

Lemma render_rows_forget results : ∀ i,
  render_rows h' i (List.map forget_result results) = render_rows h i results.
Proof.
  induction results as [|r results IH]; intros i; simpl; [reflexivity|].
  rewrite IH. reflexivity.
Qed.

(** C8. Two runs over descriptors that differ only in [name] fields
    give the same results but for the declared names, skill by skill
    and in the same order, and print the same rows: the directory name
    alone files, orders and labels a row. *)
Theorem renaming_keeps_rows (cfg : Config) :
  outcome_map (List.map forget_result) (main_results h' cfg)
  = outcome_map (List.map forget_result) (main_results h cfg)
  ∧ main_rows h' cfg = main_rows h cfg.
Proof.
  assert (Hres : outcome_map (List.map forget_result) (main_results h' cfg)
                 = outcome_map (List.map forget_result) (main_results h cfg)).
  { unfold main_results. pose proof (allSkills_renamed cfg) as Hskills.
    destruct (allSkills h' cfg) as [l'|], (allSkills h cfg) as [l|];
      simpl in Hskills; try discriminate Hskills; [|injection Hskills as ->; reflexivity].
    injection Hskills as Hskills. simpl. apply process_from_forget, Hskills. }
  split; [exact Hres|].
  unfold main_rows.
  destruct (main_results h' cfg) as [rs'|], (main_results h cfg) as [rs|];
    simpl in Hres; try discriminate Hres; [|injection Hres as ->; reflexivity].
  injection Hres as Hres. simpl. f_equal.
  change (render_rows h' 0 rs') with (render_rows h 0 rs').
  rewrite <- (render_rows_forget rs' 0), Hres. apply render_rows_forget.
Qed.

End Renaming.

(** ** The statements on the concrete host *)

Section Instances.

Lemma compare_units_sign a : ∀ b,
  (Demo.compare_units a b ≤ 0)%Z ↔ (0 ≤ Demo.compare_units b a)%Z.
Proof.
  induction a as [|x a IH]; intros [|y b]; simpl; try lia.
  destruct (x <? y)%N eqn:Hxy, (y <? x)%N eqn:Hyx;
    try apply N.ltb_lt in Hxy; try apply N.ltb_lt in Hyx; try lia.
  apply IH.
Qed.

Lemma compare_units_consistent : consistent Demo.compare_units.
Proof.
  split.
  - intros a b. destruct (Z.le_gt_cases (Demo.compare_units a b) 0) as [H | H]; [auto|].
    right. apply compare_units_sign. lia.
  - intros a. induction a as [|x a IH]; intros [|y b] [|z c]; simpl; try lia.
    destruct (x <? y)%N eqn:Hxy, (y <? x)%N eqn:Hyx,
             (y <? z)%N eqn:Hyz, (z <? y)%N eqn:Hzy,
             (x <? z)%N eqn:Hxz, (z <? x)%N eqn:Hzx;
      repeat match goal with
             | H : (_ <? _)%N = true |- _ => apply N.ltb_lt in H
             | H : (_ <? _)%N = false |- _ => apply N.ltb_ge in H
             end; try lia.
    apply IH.
Qed.

Lemma same_but_name_fields h c c' :
  delete (js "name") (fm_fields (parseFrontmatter h c))
  = delete (js "name") (fm_fields (parseFrontmatter h c')) →
  same_but_name h c c'.
Proof.
  intros Hd key Hkey. unfold fm_get.
  rewrite <- (lookup_delete_ne (fm_fields (parseFrontmatter h c)) (js "name") key)
    by congruence.
  rewrite Hd. apply lookup_delete_ne. congruence.
Qed.

Lemma entry_renamed_refl h e : entry_renamed h e e.
Proof.
  repeat split. destruct (d_skillFile e); try exact I. intros key _. reflexivity.
Qed.

Lemma missing_bin_gives_remove_witness :
  missingBins Demo.broken_health ≠ []
  ∧ main_rec Demo.broken_health 3 Demo.found_hub = remove.
Proof.
  split; [discriminate|].
  apply (missing_bin_gives_remove Demo.broken_health 3 Demo.found_hub). discriminate.
Defined.

Lemma concrete_version_keep_or_review_witness :
  main_rec Demo.sound_health 3 Demo.found_hub = keep
  ∧ main_rec Demo.sound_health 0 Demo.found_hub = review.
Proof.
  split.
  - apply (concrete_version_keep_or_review Demo.sound_health 3 Demo.found_hub);
      try reflexivity; try discriminate; lia.
  - apply (concrete_version_keep_or_review Demo.sound_health 0 Demo.found_hub);
      try reflexivity; discriminate.
Defined.

Lemma update_never_recommended_witness :
  ∃ results,
    main_results Demo.world Demo.config = Ok results
    ∧ List.length results = 3
    ∧ t_update (main_tally results) = 0.
Proof.
  destruct (main_results Demo.world Demo.config) as [results|] eqn:H;
    [|vm_compute in H; discriminate H].
  exists results. split; [reflexivity|]. split.
  - vm_compute in H. injection H as <-. reflexivity.
  - exact (proj2 (proj2 (proj2 update_never_recommended) _ _ _ H)).
Defined.

Lemma name_without_syntax_matches_occurrences_witness :
  ∃ r, RegExp_new Demo.world (pattern_source (js "web-search")) = Ok (Compiled r)
       ∧ occurrence (js "web-search") (js "Web Search")
       ∧ 1 ≤ match_count Demo.world (Compiled r) (js "ran Web Search twice").
Proof.
  assert (Hocc : occurrence (js "web-search") (js "Web Search")).
  { unfold occurrence, js. simpl.
    repeat (constructor;
            [ cbv [occurrence_char same_letter]; simpl;
              first [ left; reflexivity
                    | right; left; split; reflexivity
                    | right; reflexivity ] | ]).
    constructor. }
  destruct (name_without_syntax_matches_occurrences Demo.world (js "web-search"))
    as (r & Hr & Hmatch).
  { repeat constructor. }
  exists r. split; [exact Hr|]. split; [exact Hocc|].
  exact (proj1 (Hmatch (js "Web Search") Hocc) (js "ran ") (js " twice")).
Defined.

Lemma usage_zero_without_log_directory_witness :
  checkUsage Demo.world Demo.config_no_logs 0 (js "c++") = Ok 0.
Proof.
  apply (usage_zero_without_log_directory Demo.world Demo.config_no_logs).
  reflexivity.
Defined.

Lemma usage_counts_included_files_witness :
  ∃ p, RegExp_new Demo.world (pattern_source (js "web-search")) = Ok p
       ∧ checkUsage Demo.world Demo.config 0 (js "web-search")
         = Ok (list_sum
                 (List.map (fun f => if included Demo.cutoff (cutoff_string Demo.cutoff) f
                                     then match_count Demo.world p (text_of f) else 0)
                           Demo.log_files))
       ∧ List.map (included Demo.cutoff (cutoff_string Demo.cutoff)) Demo.log_files
         = [true; false; true; false; false]
       ∧ checkUsage Demo.world Demo.config 0 (js "web-search") = Ok 3.
Proof.
  eexists. split; [reflexivity|]. split; [|split].
  - refine (proj1 (usage_counts_included_files Demo.world Demo.config 0 (js "web-search")
                     Demo.log_files Demo.cutoff _ eq_refl eq_refl eq_refl _)).
    repeat constructor;
      try (intros H; first [ eexists; reflexivity | vm_compute in H; discriminate H ]);
      try (intros _ H; first [ eexists; reflexivity | vm_compute in H; discriminate H ]).
  - vm_compute. reflexivity.
  - vm_compute. reflexivity.
Defined.

Lemma headerless_skill_is_inventoried_witness :
  ¬ has_header Demo.plain_md
  ∧ skill_of_entry Demo.world (js "/home/u/skills") Demo.plain_entry
    = Ok (Some (default_record Demo.world (js "/home/u/skills") Demo.plain_entry)).
Proof.
  assert (Hno : ¬ has_header Demo.plain_md).
  { intros H. apply header_match_spec in H. destruct H as [yaml H].
    vm_compute in H. discriminate H. }
  split; [exact Hno|].
  exact (proj1 (headerless_skill_is_inventoried Demo.world (js "/home/u/skills")
                  Demo.plain_entry Demo.plain_md eq_refl eq_refl Hno)).
Defined.

Lemma demo_roots_readable alpha :
  Forall (readable_root (Demo.host alpha)) (SKILL_DIRS Demo.config).
Proof.
  repeat constructor; unfold readable_root; simpl;
    repeat constructor; simpl; discriminate.
Qed.

Lemma one_row_per_skill_directory_witness :
  ∃ skills,
    allSkills Demo.world Demo.config = Ok skills
    ∧ List.map (fun s : Skill => dirName s) skills
      = [js "alpha"; js "beta"; js "web-search"]
    ∧ List.map source skills = [js "~/skills"; js "/opt/skills"; js "/opt/skills"]
    ∧ StronglySorted (name_le Demo.world) skills.
Proof.
  destruct (one_row_per_skill_directory Demo.world Demo.config
              (demo_roots_readable Demo.alpha_md))
    as (skills & Hall & _ & _ & _ & Hsorted & _).
  exists skills. split; [exact Hall|].
  vm_compute in Hall. injection Hall as <-.
  split; [reflexivity|]. split; [reflexivity|].
  exact (Hsorted compare_units_consistent).
Defined.

Lemma demo_roots_renamed dir :
  root_renamed Demo.world
    (skillRoot Demo.world dir)
    (Demo.roots (Demo.root_entries Demo.alpha_renamed_md) dir).
Proof.
  simpl. unfold Demo.roots.
  destruct (decide (dir = js "/home/u/skills")); [|destruct (decide _)]; simpl.
  - constructor; [apply entry_renamed_refl|].
    constructor; [|repeat (constructor; [apply entry_renamed_refl|]); constructor].
    split; [reflexivity|]. split; [reflexivity|].
    cbn [d_skillFile]. apply same_but_name_fields.
    vm_compute. reflexivity.
  - clear. induction Demo.extra_entries; constructor; auto using entry_renamed_refl.
  - exact I.
Qed.

Lemma renaming_keeps_rows_witness :
  main_rows (Demo.host Demo.alpha_renamed_md) Demo.config
  = main_rows Demo.world Demo.config.
Proof.
  exact (proj2 (renaming_keeps_rows Demo.world
                  (Demo.roots (Demo.root_entries Demo.alpha_renamed_md))
                  demo_roots_renamed Demo.config)).
Defined.

End Instances.

(** ** The decision and the tally, further *)

Section Decision.

(** The chain of line 200 to 213 as a table: the registry and the
    variables take no part. *)
Lemma main_rec_table health usage hub :
  main_rec health usage hub
  = match missingBins health with
    | _ :: _ => remove
    | [] => if (0 <? usage)%nat then keep else review
    end.
Proof.
  unfold main_rec. destruct (missingBins health); simpl; [|reflexivity].
  destruct (_ && _); destruct (0 <? usage)%nat; try reflexivity;
    destruct (0 <? _)%nat; reflexivity.
Qed.

(** X2: the recommendation depends on two things only, whether a
    declared binary is missing and whether the usage count is zero; the
    registry's answer and the missing environment variables never
    change it. *)
Theorem recommendation_ignores_registry_and_env health health' usage usage' hub hub' :
  (missingBins health = [] ↔ missingBins health' = []) →
  (usage = 0 ↔ usage' = 0) →
  main_rec health usage hub = main_rec health' usage' hub'.
Proof.
  intros Hb Hu. rewrite !main_rec_table.
  destruct (missingBins health) as [|b l], (missingBins health') as [|b' l'];
    try reflexivity.
  - destruct usage, usage'; try reflexivity.
    + destruct Hu as [Hu _]. discriminate (Hu eq_refl).
    + destruct Hu as [_ Hu]. discriminate (Hu eq_refl).
  - destruct Hb as [Hb _]. discriminate (Hb eq_refl).
  - destruct Hb as [_ Hb]. discriminate (Hb eq_refl).
Qed.

Lemma tally_fold results : ∀ t,
  let t' := fold_left tally_incr results t in
  t_keep t' = t_keep t + recommended keep results
  ∧ t_update t' = t_update t + recommended update results
  ∧ t_review t' = t_review t + recommended review results
  ∧ t_remove t' = t_remove t + recommended remove results.
Proof.
  unfold recommended.
  induction results as [|r results IH]; intros t; simpl; [lia|].
  specialize (IH (tally_incr t r)). simpl in IH.
  destruct IH as (Hk & Hu & Hv & Hm). rewrite Hk, Hu, Hv, Hm.
  unfold tally_incr. destruct (r_rec r); simpl; lia.
Qed.

(** X3: each slot of the tally is the number of results with that
    recommendation, and the four slots add up to the number of skills
    reported. *)
Theorem tally_counts_each_recommendation results :
  t_keep (main_tally results) = recommended keep results
  ∧ t_update (main_tally results) = recommended update results
  ∧ t_review (main_tally results) = recommended review results
  ∧ t_remove (main_tally results) = recommended remove results
  ∧ t_keep (main_tally results) + t_update (main_tally results)
    + t_review (main_tally results) + t_remove (main_tally results)
    = List.length results.
Proof.
  destruct (tally_fold results tally0) as (Hk & Hu & Hv & Hm).
  unfold main_tally. rewrite Hk, Hu, Hv, Hm. simpl.
  repeat (split; [reflexivity|]).
  unfold recommended. clear. induction results as [|r results IH]; [reflexivity|].
  simpl. destruct (r_rec r); simpl; lia.
Qed.

End Decision.

(** ** Declared requirements *)

Section Health.

Variable h : Host.

Lemma getNestedField_keys_None keys : getNestedField_keys None keys = None.
Proof. destruct keys; reflexivity. Qed.

(** Walking a path in two legs. *)
Lemma getNestedField_keys_app keys keys' : ∀ val,
  getNestedField_keys val (keys ++ keys')
  = getNestedField_keys (getNestedField_keys val keys) keys'.
Proof.
  induction keys as [|k keys IH]; intros val; [reflexivity|].
  simpl. destruct val as [[| | | | |]|]; try apply IH;
    symmetry; apply getNestedField_keys_None.
Qed.

(** The two-step lookup of [checkHealth] reads what the three-key path
    reads. *)
Lemma declared_lookup meta key :
  or_else (get_prop (or_else (getNestedField meta (js "clawdbot.requires")) (JObj [])) key)
          (JArr [])
  = or_else (getNestedField_keys (Some meta) [js "clawdbot"; js "requires"; key]) (JArr []).
Proof.
  change [js "clawdbot"; js "requires"; key]
    with ([js "clawdbot"; js "requires"] ++ [key]).
  rewrite getNestedField_keys_app.
  change (getNestedField meta (js "clawdbot.requires"))
    with (getNestedField_keys (Some meta) [js "clawdbot"; js "requires"]).
  destruct (getNestedField_keys (Some meta) [js "clawdbot"; js "requires"])
    as [[|[]|q|[|c s]|l|o]|]; try reflexivity.
  simpl. destruct (negb _); reflexivity.
Qed.

Lemma checkHealth_paths meta :
  checkHealth h meta
  = (bins ← as_array (or_else (getNestedField meta (js "clawdbot.requires.bins")) (JArr []));
     envs ← as_array (or_else (getNestedField meta (js "clawdbot.requires.env")) (JArr []));
     Ok {| missingBins := List.filter (fun b => negb (commandExists h b)) bins;
           missingEnvs := List.filter (fun e => negb (envExists h e)) envs;
           bins := bins;
           envs := envs |}).
Proof.
  unfold checkHealth. cbv zeta. rewrite !declared_lookup. reflexivity.
Qed.




(** X5: the Bins column of a row lists the binaries that the health
    check examined, and the binaries reported missing are those of them
    that the shell does not find. *)
Theorem bins_column_lists_checked_binaries cfg k skill r :
  process_skill h cfg k skill = Ok r →
  r_bins r = str_or (Some (join_values h (js ", ") (bins (r_health r)))) [8212%N]
  ∧ (∀ b, In b (missingBins (r_health r))
          ↔ In b (bins (r_health r)) ∧ commandExists h b = false).
Proof.
  unfold process_skill. cbv zeta. rewrite checkHealth_paths.
  destruct (as_array (or_else (getNestedField (meta skill) (js "clawdbot.requires.bins")) _))
    as [bs|e]; simpl; [|discriminate].
  destruct (as_array _) as [es|e]; simpl; [|discriminate].
  destruct (checkUsage h cfg k (dirName skill)) as [usage|e]; simpl; [|discriminate].
  intros [= <-]. simpl. split; [reflexivity|].
  intros b. rewrite List.filter_In, negb_true_iff. reflexivity.
Qed.

(** X6: a descriptor whose metadata line is not JSON is inventoried as
    a skill without metadata: the parse error is swallowed, and the
    health check finds nothing declared and nothing missing. *)
Theorem unparsable_metadata_counts_as_none dir entry content c metadata :
  d_isDirectory entry = true →
  d_skillFile entry = SkillFileText content →
  fm_get (parseFrontmatter h content) (js "metadata") = Some (c :: metadata) →
  JSON_parse h (c :: metadata) = None →
  ∃ s, skill_of_entry h dir entry = Ok (Some s)
       ∧ meta s = JObj []
       ∧ checkHealth h (meta s) = Ok nothing_declared.
Proof.
  intros Hdir Hfile Hmeta Hparse. unfold skill_of_entry. rewrite Hdir, Hfile.
  eexists. split; [reflexivity|]. cbn [meta].
  assert (Hm : fm_meta (parseFrontmatter h content) = Some (JObj [])).
  { unfold fm_meta. rewrite parseFrontmatter_meta, Hmeta. simpl. rewrite Hparse.
    reflexivity. }
  rewrite Hm. split; reflexivity.
Qed.

End Health.

(** ** Dotted paths *)

Section Paths.

Lemma split_on_app sep q : ∀ p cur,
  split_on sep cur (p ++ sep :: q) = split_on sep cur p ++ split_on sep [] q.
Proof.
  induction p as [|c p IH]; intros cur; simpl.
  - rewrite N.eqb_refl. reflexivity.
  - destruct (c =? sep)%N; [rewrite IH; reflexivity | apply IH].
Qed.

Lemma split_on_whole sep : ∀ s cur,
  Forall (fun c => c ≠ sep) s → split_on sep cur s = [rev cur ++ s].
Proof.
  induction s as [|c s IH]; intros cur Hs; simpl.
  - rewrite app_nil_r. reflexivity.
  - apply Forall_cons in Hs as [Hc Hs].
    destruct (N.eqb_spec c sep) as [->|_]; [contradiction|].
    rewrite IH by exact Hs. simpl. rewrite <- app_assoc. reflexivity.
Qed.

(** Splitting undoes joining, for items without the separator. *)
Lemma split_join sep items :
  items ≠ [] →
  Forall (Forall (fun c => c ≠ sep)) items →
  split (join [sep] items) sep = items.
Proof.
  unfold split. induction items as [|x [|y items] IH]; intros Hne Hall.
  - contradiction.
  - simpl. apply Forall_cons in Hall as [Hx _]. apply (split_on_whole sep x []), Hx.
  - change (join [sep] (x :: y :: items)) with (x ++ sep :: join [sep] (y :: items)).
    apply Forall_cons in Hall as [Hx Hall].
    rewrite split_on_app, IH by (discriminate || exact Hall).
    rewrite (split_on_whole sep x []) by exact Hx. reflexivity.
Qed.



Lemma getNestedField_keys_nest v : ∀ keys,
  getNestedField_keys (Some (nest keys v)) keys = Some v.
Proof.
  induction keys as [|k keys IH]; [reflexivity|].
  simpl. rewrite decide_True by reflexivity. exact IH.
Qed.

(** X8: a value stored under nested keys is read back by the path that
    joins the keys with dots, when no key holds a dot. *)
Theorem getNestedField_reads_back keys v :
  keys ≠ [] →
  Forall (Forall (fun c => c ≠ 46%N)) keys →
  getNestedField (nest keys v) (join (js ".") keys) = Some v.
Proof.
  intros Hne Hkeys. unfold getNestedField.
  change (js ".") with [46%N]. rewrite split_join by assumption.
  apply getNestedField_keys_nest.
Qed.

End Paths.

(** ** Reading a header back *)

Section Header.

Variable h : Host.

Lemma span_app ok a c b :
  Forall (fun x => ok x = true) a → ok c = false → span ok (a ++ c :: b) = (a, c :: b).
Proof.
  intros Ha Hc. induction Ha as [|x a Hx Ha IH]; simpl.
  - rewrite Hc. reflexivity.
  - rewrite Hx, IH. reflexivity.
Qed.

Lemma span_all ok s : Forall (fun x => ok x = true) s → span ok s = (s, []).
Proof.
  intros Hs. induction Hs as [|x s Hx Hs IH]; simpl; [reflexivity|].
  rewrite Hx, IH. reflexivity.
Qed.

(** On a text of one line the value group is the text without its
    leading white space. *)
Lemma value_match_text v : field_text v → value_match v = Some (trimStart v).
Proof.
  intros [Hline Hsome]. induction v as [|c v IH]; [inversion Hsome|].
  apply Forall_cons in Hline as [Hc Hline].
  cbn [value_match trimStart]. rewrite Hc.
  assert (Hspan : span (fun x => negb (is_line_terminator x)) (c :: v) = (c :: v, [])).
  { apply span_all. constructor; [rewrite Hc; reflexivity|].
    eapply List.Forall_impl; [|exact Hline]. simpl. intros x ->. reflexivity. }
  rewrite Hspan. destruct (is_space c) eqn:Hs; [|reflexivity].
  rewrite IH; [reflexivity | exact Hline |].
  inversion Hsome as [? ? Hc'|]; [congruence | assumption].
Qed.

Lemma trimStart_idem s : trimStart (trimStart s) = trimStart s.
Proof.
  induction s as [|c s IH]; [reflexivity|].
  simpl. destruct (is_space c) eqn:Hc; [exact IH|]. simpl. rewrite Hc. reflexivity.
Qed.

Lemma trim_trimStart s : trim (trimStart s) = trim s.
Proof. unfold trim. rewrite trimStart_idem. reflexivity. Qed.

Lemma field_key_units k :
  field_key k →
  ∃ c k', k = c :: k' ∧ is_word c = true
          ∧ Forall (fun x => is_word x || (x =? HYPHEN)%N = true) k'.
Proof. destruct k as [|c k']; [contradiction|]. intros [Hc Hk]. eauto. Qed.

(** What the pattern of line 40 takes from a header line. *)
Lemma line_match_field k v :
  field_key k → field_text v →
  line_match (field_line (k, v)) = Some (k, trimStart v).
Proof.
  intros Hk Hv. apply field_key_units in Hk as (c & k' & -> & Hc & Hk').
  unfold field_line. cbn [fst snd]. simpl. rewrite Hc.
  rewrite (span_app _ k' COLON v Hk' eq_refl). simpl.
  rewrite value_match_text by exact Hv. reflexivity.
Qed.

Lemma find_first_past s p0 p rest :
  Forall (fun c => c ≠ p0) s →
  find_first (p0 :: p) (s ++ rest)
  = match find_first (p0 :: p) rest with
    | Some (pre, post) => Some (s ++ pre, post)
    | None => None
    end.
Proof.
  intros Hs. induction Hs as [|c s Hc Hs IH]; simpl app.
  - destruct (find_first _ rest) as [[pre post]|]; reflexivity.
  - rewrite find_first_unfold. cbn [startsWith].
    destruct (N.eqb_spec p0 c) as [->|_]; [contradiction|]. simpl andb. cbv iota.
    rewrite IH. destruct (find_first _ rest) as [[pre post]|]; reflexivity.
Qed.

Lemma find_first_end body : ∀ lines,
  Forall inner_line lines →
  find_first (LF :: js "---") (join [LF] lines ++ LF :: js "---" ++ body)
  = Some (join [LF] lines, body).
Proof.
  assert (Hend : find_first (LF :: js "---") (LF :: js "---" ++ body) = Some ([], body)).
  { rewrite find_first_unfold.
    rewrite (proj2 (startsWith_spec (LF :: js "---") (LF :: js "---" ++ body)))
      by (exists body; reflexivity).
    reflexivity. }
  induction lines as [|l [|l2 lines] IH]; intros Hl.
  - exact Hend.
  - apply Forall_cons in Hl as [(c & t & -> & _ & Hno) _]. simpl join.
    rewrite find_first_past by exact Hno. rewrite Hend, app_nil_r. reflexivity.
  - apply Forall_cons in Hl as [(c & t & -> & _ & Hno) Hl].
    change (join [LF] ((c :: t) :: l2 :: lines))
      with ((c :: t) ++ LF :: join [LF] (l2 :: lines)).
    rewrite <- app_assoc. rewrite find_first_past by exact Hno.
    rewrite <- app_comm_cons. rewrite find_first_unfold.
    specialize (IH Hl).
    pose proof Hl as Hl'. apply Forall_cons in Hl' as [(c2 & t2 & -> & Hc2 & _) _].
    assert (Hhead : ∃ u, join [LF] ((c2 :: t2) :: lines) = c2 :: u).
    { destruct lines; simpl; eauto. }
    destruct Hhead as [u Hu].
    assert (Hnot : startsWith (LF :: join [LF] ((c2 :: t2) :: lines) ++ LF :: js "---" ++ body)
                              (LF :: js "---") = false).
    { destruct (startsWith _ _) eqn:E; [|reflexivity].
      apply startsWith_spec in E as [q Hq]. rewrite Hu in Hq.
      injection Hq as Hq _. contradiction. }
    rewrite Hnot, IH. reflexivity.
Qed.

Lemma field_line_inner kv :
  field_key (fst kv) → field_text (snd kv) → inner_line (field_line kv).
Proof.
  destruct kv as [k v]. cbn [fst snd]. intros Hk [Hv _].
  apply field_key_units in Hk as (c & k' & -> & Hc & Hk').
  exists c, (k' ++ [COLON] ++ v). split; [reflexivity|]. split.
  - intros ->. discriminate Hc.
  - unfold field_line. cbn [fst snd]. constructor; [intros ->; discriminate Hc|].
    apply Forall_app. split; [|constructor; [discriminate|]].
    + eapply List.Forall_impl; [|exact Hk']. simpl. intros x Hx ->. discriminate Hx.
    + eapply List.Forall_impl; [|exact Hv]. simpl. intros x Hx ->. discriminate Hx.
Qed.

Lemma header_match_descriptor fields body :
  Forall (fun kv => field_key (fst kv) ∧ field_text (snd kv)) fields →
  header_match (descriptor fields body) = Some (join [LF] (List.map field_line fields)).
Proof.
  intros Hf. unfold header_match, descriptor.
  rewrite (proj2 (startsWith_spec (js "---" ++ [LF]) _))
    by (eexists; rewrite <- app_assoc; reflexivity).
  match goal with
  | |- context [skipn 4 (js "---" ++ [LF] ++ ?x)] =>
      change (skipn 4 (js "---" ++ [LF] ++ x)) with x
  end.
  change ([LF] ++ js "---" ++ body) with (LF :: js "---" ++ body).
  rewrite find_first_end; [reflexivity|].
  apply List.Forall_map. eapply List.Forall_impl; [|exact Hf].
  intros kv [Hk Hv]. apply field_line_inner; assumption.
Qed.

Lemma parse_lines_fields fields : ∀ acc,
  Forall (fun kv => field_key (fst kv) ∧ field_text (snd kv)) fields →
  fold_left (fun result line =>
               match line_match line with
               | Some (key, m2) => set_field result key (strip_quotes (trim m2))
               | None => result
               end) (List.map field_line fields) acc
  = fold_left (fun result kv => set_field result (fst kv) (strip_quotes (trim (snd kv))))
              fields acc.
Proof.
  induction fields as [|[k v] fields IH]; intros acc Hf; [reflexivity|].
  apply Forall_cons in Hf as [[Hk Hv] Hf]. simpl.
  rewrite line_match_field by assumption.
  rewrite trim_trimStart. apply IH, Hf.
Qed.

Lemma set_fields_stored fields :
  fold_left (fun result kv => set_field result (fst kv) (strip_quotes (trim (snd kv))))
            fields (∅ : gmap jsstring jsstring)
  = list_to_map (rev (stored fields)).
Proof.
  induction fields as [|kv fields IH] using rev_ind; [reflexivity|].
  rewrite fold_left_app, IH. simpl. unfold stored, set_field.
  rewrite List.filter_app, List.map_app, rev_app_distr. simpl.
  destruct (decide (fst kv = js "__proto__")) as [E|E].
  - rewrite bool_decide_true by exact E. reflexivity.
  - rewrite bool_decide_false by exact E. reflexivity.
Qed.

(** X9: a header written one field per line is read back: every field
    is stored with its text trimmed and its quotes removed, the last
    of two lines with one key wins, and a [__proto__] line stores
    nothing; what follows the header is not read. *)
Theorem descriptor_fields_read_back fields body :
  Forall (fun kv => field_key (fst kv) ∧ field_text (snd kv)) fields →
  fm_fields (parseFrontmatter h (descriptor fields body))
  = list_to_map (rev (stored fields)).
Proof.
  intros Hf. unfold parseFrontmatter.
  rewrite header_match_descriptor by exact Hf. cbn [fm_fields].
  rewrite <- set_fields_stored. unfold parse_lines.
  destruct fields as [|kv fields]; [reflexivity|].
  rewrite split_join.
  - apply parse_lines_fields, Hf.
  - discriminate.
  - apply List.Forall_map. eapply List.Forall_impl; [|exact Hf].
    intros kv' [Hk Hv]. destruct (field_line_inner kv' Hk Hv) as (c & t & _ & _ & Hno).
    exact Hno.
Qed.

End Header.

(** ** The window of the usage scan *)

Section Window.

Lemma civil_parts z :
  ∃ era yoe doy mp : Z,
    (0 ≤ yoe ≤ 399 ∧ 0 ≤ doy ≤ 365 ∧ 0 ≤ mp ≤ 11
     ∧ z + 719468 = era * 146097 + yoe * 365 + yoe / 4 - yoe / 100 + doy
     ∧ (yoe = 399 ∨ doy < 365 + (yoe + 1) / 4 - yoe / 4 - ((yoe + 1) / 100 - yoe / 100))
     ∧ mp = (5 * doy + 2) / 153
     ∧ civil_from_days z
       = (yoe + era * 400 + (if (if mp <? 10 then mp + 3 else mp - 9) <=? 2 then 1 else 0),
          if mp <? 10 then mp + 3 else mp - 9,
          doy - (153 * mp + 2) / 5 + 1))%Z.
Proof.
  unfold civil_from_days. cbv zeta.
  set (z1 := (z + 719468)%Z).
  set (era := (z1 / 146097)%Z).
  set (doe := (z1 - era * 146097)%Z).
  assert (Hdoe : (0 ≤ doe ≤ 146096)%Z) by (subst doe era; Z.div_mod_to_equations; lia).
  set (yoe := ((doe - doe / 1460 + doe / 36524 - doe / 146096) / 365)%Z).
  set (doy := (doe - (365 * yoe + yoe / 4 - yoe / 100))%Z).
  assert (Hy : (0 ≤ yoe ≤ 399 ∧ 0 ≤ doy ≤ 365)%Z).
  { subst doy yoe. clearbody doe. clear -Hdoe.
    repeat split; Z.div_mod_to_equations; lia. }
  assert (Hnext : (yoe = 399 ∨ doy < 365 + (yoe + 1) / 4 - yoe / 4 - ((yoe + 1) / 100 - yoe / 100))%Z).
  { subst doy yoe. clearbody doe. clear -Hdoe.
    Z.div_mod_to_equations; lia. }
  set (mp := ((5 * doy + 2) / 153)%Z).
  assert (Hmp : (0 ≤ mp ≤ 11)%Z) by (subst mp; Z.div_mod_to_equations; lia).
  exists era, yoe, doy, mp. repeat split; try lia.
Qed.

Lemma civil_from_days_increasing z1 z2 :
  (z1 < z2)%Z → date_lt (civil_from_days z1) (civil_from_days z2).
Proof.
  intros Hlt.
  destruct (civil_parts z1) as (e1 & y1 & d1 & m1 & Hy1 & Hd1 & Hm1 & Hz1 & Hn1 & Hmp1 & ->).
  destruct (civil_parts z2) as (e2 & y2 & d2 & m2 & Hy2 & Hd2 & Hm2 & Hz2 & Hn2 & Hmp2 & ->).
  assert (Hlex : (e1 < e2 ∨ (e1 = e2 ∧ (y1 < y2 ∨ (y1 = y2 ∧ d1 < d2))))%Z).
  { clear Hmp1 Hmp2 Hm1 Hm2. Z.div_mod_to_equations. lia. }
  assert (Hmono : (d1 < d2 → m1 < m2 ∨ (m1 = m2 ∧ d1 - (153 * m1 + 2) / 5 < d2 - (153 * m2 + 2) / 5))%Z).
  { clear Hlex Hz1 Hz2 Hn1 Hn2 Hlt. subst m1 m2. intros Hd.
    assert (E : ((5 * d1 + 2) / 153 ≤ (5 * d2 + 2) / 153)%Z)
      by (apply Z.div_le_mono; lia).
    destruct (Z.eq_dec ((5 * d1 + 2) / 153)%Z ((5 * d2 + 2) / 153)%Z) as [E'|E'].
    - right. split; [exact E'|]. rewrite E'. lia.
    - left. lia. }
  unfold date_lt.
  destruct (m1 <? 10)%Z eqn:E1; [apply Z.ltb_lt in E1 | apply Z.ltb_ge in E1];
    destruct (m2 <? 10)%Z eqn:E2; [apply Z.ltb_lt in E2 | apply Z.ltb_ge in E2 | apply Z.ltb_lt in E2 | apply Z.ltb_ge in E2];
    repeat match goal with
           | |- context [(?a <=? 2)%Z] =>
               destruct (Z.leb_spec a 2)
           end; try lia.
Qed.


Lemma date_lt_irrefl a : ¬ date_lt a a.
Proof. destruct a as [[y m] d]. unfold date_lt. lia. Qed.

Lemma date_lt_asym a b : date_lt a b → ¬ date_lt b a.
Proof. destruct a as [[y m] d], b as [[y' m'] d']. unfold date_lt. lia. Qed.

(** Dates follow the days: an earlier date is an earlier day. *)
Lemma date_lt_days z1 z2 :
  date_lt (civil_from_days z1) (civil_from_days z2) ↔ (z1 < z2)%Z.
Proof.
  split; [|apply civil_from_days_increasing].
  intros H. destruct (Z.lt_trichotomy z1 z2) as [Hlt|[->|Hgt]]; [exact Hlt| |].
  - destruct (date_lt_irrefl _ H).
  - destruct (date_lt_asym _ _ H (civil_from_days_increasing _ _ Hgt)).
Qed.

Lemma js_lt_app a : ∀ b s s',
  List.length a = List.length b →
  js_lt (a ++ s) (b ++ s') = true ↔ js_lt a b = true ∨ (a = b ∧ js_lt s s' = true).
Proof.
  induction a as [|x a IH]; intros [|y b] s s' Hlen; try discriminate Hlen.
  - simpl. split; [intros H; right; auto | intros [H|[_ H]]; [|exact H]].
    destruct s; discriminate H.
  - simpl in Hlen. injection Hlen as Hlen. simpl.
    rewrite !orb_true_iff, !andb_true_iff, (IH b s s' Hlen), N.eqb_eq.
    split.
    + intros [H|[-> [H|[-> H]]]]; auto.
    + intros [[H|[-> H]]|[[= -> ->] H]]; auto.
Qed.

Lemma digits_value_from s : ∀ v,
  fold_left (fun v d => (10 * v + (d - 48))%N) s v
  = (v * 10 ^ N.of_nat (List.length s) + digits_value s)%N.
Proof.
  unfold digits_value.
  induction s as [|d s IH]; intros v; [simpl; lia|].
  cbn [fold_left List.length]. rewrite IH, (IH (10 * 0 + (d - 48))%N).
  rewrite Nat2N.inj_succ, N.pow_succ_r'. lia.
Qed.

Lemma digits_value_cons d s :
  digits_value (d :: s) = ((d - 48) * 10 ^ N.of_nat (List.length s) + digits_value s)%N.
Proof.
  unfold digits_value at 1. cbn [fold_left]. rewrite digits_value_from. lia.
Qed.

Lemma digits_value_bound s :
  Forall (fun c => is_digit c = true) s →
  (digits_value s < 10 ^ N.of_nat (List.length s))%N.
Proof.
  induction 1 as [|d s Hd Hs IH]; [reflexivity|].
  rewrite digits_value_cons. cbn [List.length].
  rewrite Nat2N.inj_succ, N.pow_succ_r'.
  unfold is_digit in Hd. apply andb_true_iff in Hd as [H1 H2].
  apply N.leb_le in H1, H2. nia.
Qed.

(** Strings of digits of one length compare as the numbers they
    write. *)
Lemma js_lt_digits a : ∀ b,
  List.length a = List.length b →
  Forall (fun c => is_digit c = true) a →
  Forall (fun c => is_digit c = true) b →
  (js_lt a b = true ↔ (digits_value a < digits_value b)%N)
  ∧ (a = b ↔ digits_value a = digits_value b).
Proof.
  induction a as [|x a IH]; intros [|y b] Hlen Ha Hb; try discriminate Hlen.
  - split; split; try reflexivity; discriminate.
  - simpl in Hlen. injection Hlen as Hlen.
    apply Forall_cons in Ha as [Hx Ha]. apply Forall_cons in Hb as [Hy Hb].
    destruct (IH b Hlen Ha Hb) as [IH1 IH2].
    pose proof (digits_value_bound a Ha) as Ba.
    pose proof (digits_value_bound b Hb) as Bb.
    rewrite !digits_value_cons. rewrite <- Hlen in *.
    unfold is_digit in Hx, Hy.
    apply andb_true_iff in Hx as [Hx1 Hx2]. apply andb_true_iff in Hy as [Hy1 Hy2].
    apply N.leb_le in Hx1, Hx2, Hy1, Hy2.
    set (P := (10 ^ N.of_nat (List.length a))%N) in *.
    split.
    + simpl. rewrite orb_true_iff, andb_true_iff, N.ltb_lt, N.eqb_eq, IH1. split.
      * intros [H|[-> H]]; nia.
      * intros H. destruct (N.lt_trichotomy x y) as [Hlt|[->|Hgt]]; [auto| |nia].
        right. split; [reflexivity|]. nia.
    + split.
      * intros [= -> ->]. reflexivity.
      * intros H. assert (x = y) as -> by nia. f_equal. apply IH2. nia.
Qed.

Lemma digits_value_zeros k s : digits_value (repeat 48%N k ++ s) = digits_value s.
Proof.
  induction k as [|k IH]; [reflexivity|].
  simpl repeat. rewrite <- app_comm_cons, digits_value_cons, IH. lia.
Qed.

Lemma digits_value_pad w n : (0 ≤ n)%Z → digits_value (pad w n) = Z.to_N n.
Proof. intros _. unfold pad. rewrite digits_value_zeros. apply decimal_value. Qed.

(** Two numbers padded to one width compare as numbers, and then as
    what follows them. *)
Lemma js_lt_pad w a b s s' :
  (0 < w)%nat → (0 ≤ a < 10 ^ Z.of_nat w)%Z → (0 ≤ b < 10 ^ Z.of_nat w)%Z →
  js_lt (pad w a ++ s) (pad w b ++ s') = true
  ↔ (a < b)%Z ∨ (a = b ∧ js_lt s s' = true).
Proof.
  intros Hw Ha Hb.
  destruct (pad_shape w a Hw Ha) as [La Da]. destruct (pad_shape w b Hw Hb) as [Lb Db].
  rewrite js_lt_app by congruence.
  destruct (js_lt_digits (pad w a) (pad w b)) as [H1 H2]; [congruence|assumption..|].
  rewrite H1, H2, !digits_value_pad by lia. split.
  - intros [H|[H Hs]]; [left; lia | right; split; [lia | exact Hs]].
  - intros [H|[-> Hs]]; [left; lia | right; split; [reflexivity | exact Hs]].
Qed.

(** The date string in the years 0 to 9999. *)
Lemma cutoff_string_parts t :
  four_digit_year t →
  ∃ y m d, civil_from_days (t / msPerDay) = (y, m, d)
           ∧ (0 ≤ y < 10 ^ Z.of_nat 4 ∧ 0 ≤ m < 10 ^ Z.of_nat 2 ∧ 0 ≤ d < 10 ^ Z.of_nat 2)%Z
           ∧ cutoff_string t = pad 4 y ++ js "-" ++ pad 2 m ++ js "-" ++ pad 2 d ++ [].
Proof.
  intros Ht. pose proof (civil_from_days_bounds t Ht) as Hb.
  unfold cutoff_string, iso_date.
  destruct (civil_from_days (t / msPerDay)) as [[y m] d].
  destruct Hb as (Hy & Hm & Hd). exists y, m, d.
  assert (H4 : (10 ^ Z.of_nat 4 = 10000)%Z) by reflexivity.
  assert (H2 : (10 ^ Z.of_nat 2 = 100)%Z) by reflexivity.
  split; [reflexivity|]. split; [lia|].
  replace ((0 <=? y) && (y <=? 9999))%Z with true
    by (symmetry; apply andb_true_intro; split; apply Z.leb_le; lia).
  destruct (pad_shape 4 y) as [Ly _]; [lia | lia |].
  destruct (pad_shape 2 m) as [Lm _]; [lia | lia |].
  destruct (pad_shape 2 d) as [Ld _]; [lia | lia |].
  rewrite app_nil_r. apply firstn_all2.
  rewrite !length_app, Ly, Lm, Ld. simpl. lia.
Qed.

(** The date strings of two instants compare as their days. *)
Lemma js_lt_cutoff_string t c :
  four_digit_year t → four_digit_year c →
  js_lt (cutoff_string t) (cutoff_string c) = true ↔ (t / msPerDay < c / msPerDay)%Z.
Proof.
  intros Ht Hc. rewrite <- date_lt_days.
  destruct (cutoff_string_parts t Ht) as (y & m & d & -> & (Hy & Hm & Hd) & ->).
  destruct (cutoff_string_parts c Hc) as (y' & m' & d' & -> & (Hy' & Hm' & Hd') & ->).
  unfold date_lt.
  rewrite js_lt_pad by (assumption || lia).
  change (js_lt (js "-" ++ ?a) (js "-" ++ ?b)) with (js_lt a b).
  rewrite js_lt_pad by (assumption || lia).
  change (js_lt (js "-" ++ ?a) (js "-" ++ ?b)) with (js_lt a b).
  rewrite js_lt_pad by (assumption || lia).
  simpl js_lt. intuition (try discriminate; auto).
Qed.

Variable h : Host.

(** X10: a daily log, a file named for a day in the years 0 to 9999, is
    read exactly when its day is not before the day of the cutoff
    instant, both days taken in UTC; its modification time plays no
    part. *)
Theorem daily_log_scanned_from_cutoff_day (c t : Z) (p : Pattern) (n : nat)
  (f : LogFile) :
  four_digit_year c → four_digit_year t →
  f_name f = daily_log t →
  scan_file h (Some c) (cutoff_string c) p n f
  = if (c / msPerDay <=? t / msPerDay)%Z
    then content ← readFile f; Ok (n + match_count h p content)
    else Ok n.
Proof.
  intros Hc Ht Hname. unfold scan_file. rewrite Hname.
  rewrite (proj2 (dateMatch_spec (daily_log t) (cutoff_string t)))
    by (apply cutoff_string_shape, Ht).
  pose proof (js_lt_cutoff_string t c Ht Hc) as Hlt. unfold js_ge.
  destruct (js_lt (cutoff_string t) (cutoff_string c)).
  - rewrite (proj2 (Z.leb_gt _ _)) by (apply Hlt; reflexivity). reflexivity.
  - rewrite (proj2 (Z.leb_le _ _)); [reflexivity|].
    apply Z.nlt_ge. intros H. apply Hlt in H. discriminate H.
Qed.


(** X12: the scan fails before it reads anything when the window or the
    log directory is unusable, whatever the skill's name: an invalid
    cutoff date is a [RangeError], raised before the directory is
    listed, and a log directory that cannot be listed is a system
    error, raised before the pattern is compiled. *)
Theorem usage_scan_fails_before_reading (cfg : Config) (k : nat) (skillName : jsstring) :
  logDir h (MEMORY_DIR cfg) ≠ LogDirMissing →
  (cutoff_of h (clock h k) (DAYS_BACK cfg) = None →
   checkUsage h cfg k skillName = Throw RangeError)
  ∧ (DAYS_BACK cfg = None → checkUsage h cfg k skillName = Throw RangeError)
  ∧ (is_Some (cutoff_of h (clock h k) (DAYS_BACK cfg)) →
     logDir h (MEMORY_DIR cfg) = LogDirUnlistable →
     checkUsage h cfg k skillName = Throw SystemError).
Proof.
  intros Hdir. unfold checkUsage.
  destruct (logDir h (MEMORY_DIR cfg)) as [| |files] eqn:E; [contradiction| |].
  - split; [|split].
    + intros ->. reflexivity.
    + intros ->. reflexivity.
    + intros [c ->] _. reflexivity.
  - split; [|split].
    + intros ->. reflexivity.
    + intros ->. reflexivity.
    + intros _ H. discriminate H.
Qed.

End Window.

(** ** Failures of the collection *)

Section Collection.

Variable h : Host.

Lemma skill_of_entry_throws dir e err :
  skill_of_entry h dir e = Throw err ↔ err = SystemError ∧ unreadable_entry e.
Proof.
  unfold skill_of_entry, unreadable_entry.
  destruct (d_isDirectory e); [destruct (d_skillFile e)|];
    (split; [intros [= <-] | intros [-> [H1 H2]]]); try discriminate; auto.
Qed.

Lemma forM_skill_throws dir entries err :
  forM (skill_of_entry h dir) entries = Throw err
  ↔ err = SystemError ∧ Exists unreadable_entry entries.
Proof.
  induction entries as [|e entries IH].
  - simpl. split; [discriminate|]. intros [_ H]. inversion H.
  - cbn [forM]. rewrite Exists_cons.
    pose proof (skill_of_entry_throws dir e) as He.
    destruct (skill_of_entry h dir e) as [t|err'] eqn:E; simpl.
    + assert (Hok : ¬ unreadable_entry e).
      { intros H. discriminate (proj2 (He SystemError) (conj eq_refl H)). }
      destruct (forM _ entries) as [turns|err'']; simpl.
      * split; [discriminate|]. intros [-> [H|H]]; [contradiction|].
        discriminate (proj2 IH (conj eq_refl H)).
      * split.
        -- intros [= ->]. destruct (proj1 IH eq_refl) as [-> H]. auto.
        -- intros [-> [H|H]]; [contradiction|]. apply IH. auto.
    + destruct (proj1 (He err') eq_refl) as [-> H]. split.
      * intros [= <-]. auto.
      * intros [-> _]. reflexivity.
Qed.

Lemma unreadable_entry_exists entries :
  ¬ Forall (fun e => d_isDirectory e = true → d_skillFile e ≠ SkillFileUnreadable) entries →
  Exists unreadable_entry entries.
Proof.
  induction entries as [|e entries IH]; intros Hn.
  - destruct Hn. constructor.
  - destruct (d_isDirectory e) eqn:Hd; [destruct (d_skillFile e) eqn:Hf|];
      try (apply Exists_cons_tl, IH; intros Hall; apply Hn; constructor;
           [congruence | exact Hall]).
    apply Exists_cons_hd. split; assumption.
Qed.

Lemma getSkillsFromDir_throws root err :
  getSkillsFromDir h root = Throw err ↔ err = SystemError ∧ ¬ readable_root h root.
Proof.
  split.
  - intros H. split.
    + unfold getSkillsFromDir in H. destruct (skillRoot h root) as [| |entries].
      * discriminate H.
      * congruence.
      * destruct (forM _ entries) as [turns|err'] eqn:E; [discriminate H|].
        injection H as ->. apply (forM_skill_throws root entries err), E.
    + intros Hr. destruct (getSkillsFromDir_total h root Hr) as [skills E]. congruence.
  - intros [-> Hn]. unfold getSkillsFromDir. unfold readable_root in Hn.
    destruct (skillRoot h root) as [| |entries].
    + destruct Hn. exact I.
    + reflexivity.
    + apply unreadable_entry_exists in Hn.
      rewrite (proj2 (forM_skill_throws root entries SystemError) (conj eq_refl Hn)).
      reflexivity.
Qed.

Lemma collect_from_throws dirs err : ∀ m,
  collect_from h dirs m = Throw err
  ↔ err = SystemError ∧ Exists (fun root => ¬ readable_root h root) dirs.
Proof.
  unfold collect_from. induction dirs as [|root dirs IH]; intros m.
  - simpl. split; [discriminate|]. intros [_ H]. inversion H.
  - cbn [foldM]. rewrite Exists_cons.
    destruct (getSkillsFromDir h root) as [skills|err'] eqn:E; simpl.
    + rewrite IH. split; [intros [-> H]; auto|].
      intros [-> [Hn|H]]; [|auto].
      rewrite (proj2 (getSkillsFromDir_throws root SystemError) (conj eq_refl Hn)) in E.
      discriminate E.
    + apply getSkillsFromDir_throws in E as [-> Hn]. split.
      * intros [= <-]. auto.
      * intros [-> _]. reflexivity.
Qed.

(** X13: the collection fails exactly when a configured root exists
    and cannot be listed, or holds a [SKILL.md] that cannot be read; the
    failure is a system error, and the run ends without a report. *)
Theorem unreadable_root_aborts_audit (cfg : Config) :
  (∀ err, allSkills h cfg = Throw err
          ↔ err = SystemError
            ∧ Exists (fun root => ¬ readable_root h root) (SKILL_DIRS cfg))
  ∧ (Exists (fun root => ¬ readable_root h root) (SKILL_DIRS cfg) →
     main_results h cfg = Throw SystemError
     ∧ ∀ now, main h cfg now = Throw SystemError).
Proof.
  assert (Hall : ∀ err, allSkills h cfg = Throw err
                        ↔ err = SystemError
                          ∧ Exists (fun root => ¬ readable_root h root) (SKILL_DIRS cfg)).
  { intros err. rewrite <- (collect_from_throws (SKILL_DIRS cfg) err []).
    unfold allSkills, skillMap.
    destruct (collect_from h (SKILL_DIRS cfg) []) as [m|err']; simpl.
    - split; discriminate.
    - split; intros [= <-]; reflexivity. }
  split; [exact Hall|].
  intros Hex. pose proof (proj2 (Hall SystemError) (conj eq_refl Hex)) as E.
  unfold main_results, main. rewrite E. split; reflexivity.
Qed.

(** X14: the home directory at the head of a root is printed as a
    tilde, and a root in which the home directory does not occur is
    printed as it is. *)
Theorem dirLabel_abbreviates_home :
  (∀ rest, dirLabel h (homedir h ++ rest) = js "~" ++ rest)
  ∧ (∀ dir, (∀ pre post, dir ≠ pre ++ homedir h ++ post) → dirLabel h dir = dir).
Proof.
  unfold dirLabel, replace_first. split.
  - intros rest. rewrite find_first_unfold.
    rewrite (proj2 (startsWith_spec (homedir h) (homedir h ++ rest)))
      by (exists rest; reflexivity).
    rewrite drop_app_length. reflexivity.
  - intros dir Hno. destruct (find_first (homedir h) dir) as [[pre post]|] eqn:E;
      [|reflexivity].
    apply find_first_some in E. destruct (Hno pre post E).
Qed.

End Collection.

(** ** Skipping the registry *)

Section Registry.

Variable h : Host.
Variable cfg : Config.

Lemma process_skill_skip_hub k skill :
  process_skill h (skip_hub cfg) k skill
  = outcome_map without_hub (process_skill h cfg k skill).
Proof.
  unfold process_skill. cbv zeta.
  change (checkUsage h (skip_hub cfg)) with (checkUsage h cfg).
  change (hubAvailable h (skip_hub cfg)) with false. cbv iota.
  destruct (checkHealth h (meta skill)) as [health|]; [|reflexivity]. simpl.
  destruct (checkUsage h cfg k (dirName skill)) as [usage|]; [|reflexivity]. simpl.
  destruct (as_array _) as [declared|]; [|reflexivity]. simpl.
  unfold without_hub. simpl. rewrite !main_rec_table. reflexivity.
Qed.

Lemma process_from_skip_hub skills : ∀ k,
  process_from h (skip_hub cfg) k skills
  = outcome_map (List.map without_hub) (process_from h cfg k skills).
Proof.
  induction skills as [|s skills IH]; intros k; [reflexivity|].
  cbn [process_from]. rewrite process_skill_skip_hub, IH.
  destruct (process_skill h cfg k s) as [r|]; [|reflexivity]. simpl.
  destruct (process_from h cfg (S k) skills) as [rs|]; reflexivity.
Qed.

(** X15: switching the registry checks off changes nothing but the
    registry column: the same skills are reported in the same order
    with the same health, usage and recommendation, and a run that
    fails fails the same way. *)
Theorem skipping_the_registry_changes_the_hub_only :
  main_results h (skip_hub cfg)
  = outcome_map (List.map without_hub) (main_results h cfg).
Proof.
  unfold main_results.
  change (allSkills h (skip_hub cfg)) with (allSkills h cfg).
  destruct (allSkills h cfg) as [skills|]; [|reflexivity]. simpl.
  apply process_from_skip_hub.
Qed.

End Registry.

(** ** The report *)

Section Attention.

Variable h : Host.

Lemma rec_remove_lacks_bin r :
  r_rec r = main_rec (r_health r) (r_usage r) (r_hub r) →
  rec_eqb (r_rec r) remove = lacks_bin r.
Proof.
  intros ->. rewrite main_rec_table. unfold lacks_bin.
  destruct (missingBins (r_health r)); [|reflexivity].
  destruct (0 <? r_usage r)%nat; reflexivity.
Qed.

Lemma filters_by_health results :
  Forall (fun r => r_rec r = main_rec (r_health r) (r_usage r) (r_hub r)) results →
  broken results = List.filter lacks_bin results
  ∧ envIssues results = List.filter lacks_env_only results.
Proof.
  intros Hrec. rewrite List.Forall_forall in Hrec. unfold broken, envIssues.
  split; apply List.filter_ext_in; intros r Hr.
  - apply rec_remove_lacks_bin, Hrec, Hr.
  - rewrite (rec_remove_lacks_bin r (Hrec r Hr)). unfold lacks_bin, lacks_env_only.
    destruct (missingBins (r_health r)), (missingEnvs (r_health r)); reflexivity.
Qed.

Lemma troubled_count results :
  forallb nothing_missing results
  = (List.length (List.filter lacks_bin results) =? 0)%nat
    && (List.length (List.filter lacks_env_only results) =? 0)%nat
  ∧ List.length (List.filter lacks_bin results)
    + List.length (List.filter lacks_env_only results)
    = List.length (List.filter (fun r => negb (nothing_missing r)) results).
Proof.
  induction results as [|r results [IH1 IH2]]; [split; reflexivity|].
  assert (Hcase : (nothing_missing r = true ∧ lacks_bin r = false ∧ lacks_env_only r = false)
                  ∨ (nothing_missing r = false ∧ lacks_bin r = true
                     ∧ lacks_env_only r = false)
                  ∨ (nothing_missing r = false ∧ lacks_bin r = false
                     ∧ lacks_env_only r = true)).
  { unfold nothing_missing, lacks_bin, lacks_env_only.
    destruct (missingBins (r_health r)), (missingEnvs (r_health r)); auto. }
  simpl.
  destruct Hcase as [(-> & -> & ->)|[(-> & -> & ->)|(-> & -> & ->)]]; simpl.
  - split; [exact IH1 | exact IH2].
  - split; [reflexivity | lia].
  - split; [rewrite andb_false_r; reflexivity | lia].
Qed.

(** X16: the attention section says that there are no critical issues
    exactly when no reported skill misses a binary or a variable;
    otherwise it has one line for each skill that misses something, the
    skills with a missing binary first and as broken, whatever
    variables they miss as well. *)
Theorem attention_lists_each_troubled_skill_once (cfg : Config) (results : list Result) :
  main_results h cfg = Ok results →
  attention h results
  = (if forallb nothing_missing results then [js "_No critical issues found._"]
     else List.map (broken_line h) (List.filter lacks_bin results)
          ++ List.map (env_line h) (List.filter lacks_env_only results))
  ∧ (forallb nothing_missing results = false →
     List.length (attention h results)
     = List.length (List.filter (fun r => negb (nothing_missing r)) results)).
Proof.
  intros Hres.
  assert (Hrec : Forall (fun r => r_rec r = main_rec (r_health r) (r_usage r) (r_hub r))
                        results).
  { unfold main_results in Hres. destruct (allSkills h cfg) as [skills|]; [|discriminate Hres].
    exact (process_from_rec h cfg skills 0 results Hres). }
  destruct (filters_by_health results Hrec) as [Hb He].
  destruct (troubled_count results) as [Hnone Hcount].
  assert (Hatt : attention h results
                 = if forallb nothing_missing results
                   then [js "_No critical issues found._"]
                   else List.map (broken_line h) (List.filter lacks_bin results)
                        ++ List.map (env_line h) (List.filter lacks_env_only results)).
  { unfold attention. rewrite Hb, He, Hnone. reflexivity. }
  split; [exact Hatt|].
  intros Hsome. rewrite Hatt, Hsome, length_app, !length_map. exact Hcount.
Qed.

End Attention.

Section ReportFields.

Variable h : Host.
Variable roots' : jsstring → RootState.

Local Abbreviation h' := (with_skillRoot h roots').

Lemma tally_forget results : ∀ t,
  fold_left tally_incr (List.map forget_result results) t = fold_left tally_incr results t.
Proof. induction results as [|r results IH]; intros t; [reflexivity|]. simpl. apply IH. Qed.

Lemma filter_forget (keep_it : Result → bool) results :
  (∀ r, keep_it (forget_result r) = keep_it r) →
  List.filter keep_it (List.map forget_result results)
  = List.map forget_result (List.filter keep_it results).
Proof.
  intros Hk. induction results as [|r results IH]; [reflexivity|].
  simpl. rewrite Hk, IH. destruct (keep_it r); reflexivity.
Qed.

Lemma attention_forget results :
  attention h' (List.map forget_result results) = attention h results.
Proof.
  unfold attention, broken, envIssues.
  rewrite !filter_forget by reflexivity.
  rewrite !length_map, !List.map_map. reflexivity.
Qed.

(** The report reads the skills for their number, and the results
    without the declared names. *)
Lemma report_lines_forget cfg now skills skills' results :
  List.length skills' = List.length skills →
  report_lines h' cfg now skills' (List.map forget_result results)
  = report_lines h cfg now skills results.
Proof.
  intros Hlen. unfold report_lines, report_head, main_tally. cbv zeta.
  rewrite tally_forget, Hlen, render_rows_forget, attention_forget. reflexivity.
Qed.

End ReportFields.

Section ReportRenaming.

Variable h : Host.
Variable roots' : jsstring → RootState.

Local Abbreviation h' := (with_skillRoot h roots').

Hypothesis Hroots : ∀ dir, root_renamed h (skillRoot h dir) (roots' dir).

(** X17: two runs over descriptors that differ only in their [name]
    fields print the same report, from its first line to its last, or
    fail the same way: a declared name is nowhere in the output. *)
Theorem report_ignores_declared_names (cfg : Config) (now : Z) :
  main h' cfg now = main h cfg now.
Proof.
  unfold main. pose proof (allSkills_renamed h roots' Hroots cfg) as Hskills.
  destruct (allSkills h' cfg) as [l'|], (allSkills h cfg) as [l|];
    simpl in Hskills; try discriminate Hskills; [|injection Hskills as ->; reflexivity].
  injection Hskills as Hskills. cbv beta iota delta [mbind outcome_bind].
  pose proof (process_from_forget h roots' cfg l l' 0 Hskills) as Hres.
  destruct (process_from h' cfg 0 l') as [rs'|], (process_from h cfg 0 l) as [rs|];
    simpl in Hres; try discriminate Hres; [|injection Hres as ->; reflexivity].
  injection Hres as Hres. cbv beta iota delta [mbind outcome_bind]. do 2 f_equal.
  assert (Hlen : List.length l' = List.length l).
  { apply (f_equal (@List.length _)) in Hskills. rewrite !length_map in Hskills.
    exact Hskills. }
  rewrite <- (report_lines_forget h roots' cfg now l l' rs Hlen), <- Hres.
  symmetry. exact (report_lines_forget h' roots' cfg now l' l' rs' eq_refl).
Qed.

End ReportRenaming.

(** ** What the pattern of a name finds *)

Section Found.

Variable up : N → N.

Lemma Canonicalize_ascii ch :
  ((Canonicalize up ch < 128)%N ↔ (ch < 128)%N)
  ∧ ((ch < 128)%N →
     Canonicalize up ch = if is_lower ch then (ch - 32)%N else ch).
Proof.
  unfold Canonicalize.
  destruct (N.ltb_spec ch 128) as [Hlt|Hge].
  - split; [|reflexivity]. unfold is_lower.
    destruct (_ && _); split; intros _; lia.
  - split; [|lia].
    destruct (N.ltb_spec (up ch) 128); split; lia.
Qed.

(** A code unit that a pattern character in ASCII accepts is the same
    letter. *)
Lemma accepted_same_letter c ch :
  (c < 128)%N → accepts_char up c ch = true → same_letter c ch.
Proof.
  intros Hc H. unfold accepts_char in H. apply N.eqb_eq in H.
  destruct (Canonicalize_ascii c) as [Hc1 Hc2]. specialize (Hc2 Hc).
  destruct (Canonicalize_ascii ch) as [Hch1 Hch2].
  assert (Hch : (ch < 128)%N) by (apply Hch1; rewrite H; apply Hc1, Hc).
  rewrite Hc2, (Hch2 Hch) in H. clear Hc1 Hc2 Hch1 Hch2.
  unfold same_letter, is_upper. unfold is_lower in *.
  destruct (N.leb_spec 97 c), (N.leb_spec c 122), (N.leb_spec 97 ch), (N.leb_spec ch 122);
    simpl in H |- *;
    first [ left; lia
          | right; left; split; [reflexivity | lia]
          | right; right; split; [apply andb_true_iff; rewrite !N.leb_le; lia | lia] ].
Qed.

Lemma accepted_space_or_hyphen ch :
  keeps_space up → accepts_space_dash up ch = true → ch = HYPHEN ∨ is_space ch = true.
Proof.
  intros Hup H. unfold accepts_space_dash in H.
  apply existsb_exists in H as (a & Ha & Heq). apply N.eqb_eq in Heq.
  apply in_app_or in Ha as [Ha|[<-|[]]].
  - right. apply (Hup a ch); [|exact Heq].
    unfold is_space. apply existsb_exists. exists a. split; [exact Ha | apply N.eqb_refl].
  - left. destruct (Canonicalize_ascii HYPHEN) as [H1 H2].
    destruct (Canonicalize_ascii ch) as [H3 H4].
    assert (Hch : (ch < 128)%N) by (apply H3; rewrite <- Heq; apply H1; reflexivity).
    rewrite (H2 eq_refl), (H4 Hch) in Heq. simpl in Heq. unfold is_lower in Heq.
    unfold HYPHEN in *.
    destruct (N.leb_spec 97 ch), (N.leb_spec ch 122); simpl in Heq; lia.
Qed.

(** What the sequence of a name's atoms consumes is an occurrence of
    the name. *)
Lemma matcher_atoms_found id :
  keeps_space up → ascii_name id →
  ∀ text i k e,
    matcher up (seq_of (List.map atom id)) (i, text) k = Some e →
    ∃ occ rest, text = occ ++ rest ∧ occurrence id occ
                ∧ k ((i + List.length id)%nat, rest) = Some e.
Proof.
  intros Hup Hid. induction Hid as [|c id Hc Hid IH]; intros text i k e H.
  - exists [], text. simpl in H. rewrite Nat.add_0_r.
    split; [reflexivity|]. split; [constructor | exact H].
  - cbn [List.map seq_of fold_right matcher] in H.
    assert (Hstep : ∃ ch t, text = ch :: t ∧ occurrence_char c ch
                            ∧ matcher up (seq_of (List.map atom id)) (S i, t) k = Some e).
    { unfold atom, occurrence_char in *.
      destruct (c =? HYPHEN)%N; cbn [matcher] in H; unfold step_if in H; simpl in H;
        destruct text as [|ch t]; try discriminate H.
      - destruct (accepts_space_dash up ch) eqn:Ha; [|discriminate H].
        exists ch, t. split; [reflexivity|]. split; [|exact H].
        apply accepted_space_or_hyphen; assumption.
      - destruct (accepts_char up c ch) eqn:Ha; [|discriminate H].
        exists ch, t. split; [reflexivity|]. split; [|exact H].
        apply accepted_same_letter; assumption. }
    destruct Hstep as (ch & t & -> & Hch & Hrest).
    destruct (IH t (S i) k e Hrest) as (occ & rest & -> & Hocc & Hk).
    exists (ch :: occ), rest. split; [reflexivity|]. split; [constructor; assumption|].
    rewrite <- Hk. f_equal. f_equal. simpl. lia.
Qed.

(** A count above zero comes from a match at some index. *)
Lemma count_from_positive r : ∀ rest i skip,
  0 < count_from up r i rest skip →
  ∃ before after e,
    rest = before ++ after ∧ match_at up r (i + List.length before) after = Some e.
Proof.
  induction rest as [|c rest IH]; intros i skip H.
  - destruct skip; simpl in H; [|lia].
    destruct (match_at up r i []) as [e|] eqn:E; [|lia].
    exists [], [], e. rewrite Nat.add_0_r. split; [reflexivity | exact E].
  - destruct skip as [|skip]; cbn [count_from] in H.
    + destruct (match_at up r i (c :: rest)) as [e|] eqn:E.
      * exists [], (c :: rest), e. rewrite Nat.add_0_r. split; [reflexivity | exact E].
      * destruct (IH (S i) 0 H) as (before & after & e & -> & He).
        exists (c :: before), after, e. split; [reflexivity|].
        rewrite <- He. f_equal. simpl. lia.
    + destruct (IH (S i) skip H) as (before & after & e & -> & He).
      exists (c :: before), after, e. split; [reflexivity|].
      rewrite <- He. f_equal. simpl. lia.
Qed.

End Found.

(** X18: the pattern of a name in ASCII without syntax characters finds
    nothing but the name: where the count of a text is above zero, the
    text holds an occurrence of the name, with each hyphen written as a
    hyphen or as white space, and in any letter case. *)
Theorem name_pattern_finds_only_occurrences h id p text :
  Forall (fun c => is_syntax c = false) id →
  ascii_name id →
  keeps_space (unicodeUpper h) →
  RegExp_new h (pattern_source id) = Ok p →
  0 < match_count h p text →
  ∃ before occ after, text = before ++ occ ++ after ∧ occurrence id occ.
Proof.
  intros Hid Hascii Hup Hp Hcount.
  unfold RegExp_new in Hp. rewrite parse_pattern_source in Hp by exact Hid.
  injection Hp as <-. simpl in Hcount. unfold count_matches in Hcount.
  destruct (count_from_positive _ _ _ _ _ Hcount) as (before & rest & e & -> & He).
  unfold match_at in He.
  destruct (matcher_atoms_found _ id Hup Hascii _ _ _ _ He) as (occ & after & -> & Hocc & _).
  exists before, occ, after. split; [reflexivity | exact Hocc].
Qed.

(** ** The registry's answer *)

Section Hub.

Variable h : Host.

Lemma trimStart_blank lead s : blank lead → trimStart (lead ++ s) = trimStart s.
Proof. induction 1 as [|c lead Hc Hl IH]; [reflexivity|]. simpl. rewrite Hc. exact IH. Qed.

Lemma trimStart_word c s : is_space c = false → trimStart (c :: s) = c :: s.
Proof. intros Hc. simpl. rewrite Hc. reflexivity. Qed.








End Hub.

(** ** Reading the configuration *)

Section Configuration.

Variable E : Env.

Lemma digits_fuel_acc fuel : ∀ n acc, ∃ pre, digits_fuel fuel n acc = pre ++ acc.
Proof.
  induction fuel as [|fuel IH]; intros n acc; [exists []; reflexivity|].
  cbn [digits_fuel]. destruct (n <? 10)%N.
  - exists [(48 + n mod 10)%N]. reflexivity.
  - destruct (IH (n / 10)%N ((48 + n mod 10)%N :: acc)) as [pre ->].
    exists (pre ++ [(48 + n mod 10)%N]). rewrite <- app_assoc. reflexivity.
Qed.

(** The digits of a number: at least one, all of them digits, no more
    than the number needs. *)
Lemma decimal_shape n w :
  (0 < w)%nat → (n < 10 ^ N.of_nat w)%N →
  ∃ d ds, decimal n = d :: ds
          ∧ Forall (fun c => is_digit c = true) (d :: ds)
          ∧ (List.length (d :: ds) ≤ w)%nat.
Proof.
  intros Hw Hn.
  assert (Hne : decimal n ≠ []).
  { unfold decimal. cbn [digits_fuel]. destruct (n <? 10)%N; [discriminate|].
    destruct (digits_fuel_acc (N.to_nat (N.log2 n)) (n / 10)%N [(48 + n mod 10)%N])
      as [pre ->].
    destruct pre; discriminate. }
  destruct (decimal n) as [|d ds] eqn:Ed; [contradiction|].
  exists d, ds. split; [reflexivity|]. rewrite <- Ed. split.
  - apply digits_fuel_digits. constructor.
  - apply (digits_fuel_length _ n [] w Hw Hn).
Qed.

Lemma span_digits ds junk :
  Forall (fun c => is_digit c = true) ds → no_digit_ahead junk →
  span is_digit (ds ++ junk) = (ds, junk).
Proof.
  intros Hds Hjunk. destruct junk as [|c junk].
  - rewrite app_nil_r. apply span_all, Hds.
  - apply span_app; assumption.
Qed.

Lemma parse_digits_value text negative ds junk :
  ds ≠ [] → Forall (fun c => is_digit c = true) ds → (List.length ds ≤ 15)%nat →
  no_digit_ahead junk →
  parse_digits E text negative (ds ++ junk)
  = Some (if negative then (- Z.of_N (digits_value ds))%Z else Z.of_N (digits_value ds)).
Proof.
  intros Hne Hds Hlen Hjunk. unfold parse_digits. cbv zeta.
  rewrite span_digits by assumption. cbn [fst].
  destruct ds as [|d ds]; [contradiction|].
  rewrite (proj2 (Nat.leb_le _ _) Hlen). reflexivity.
Qed.

Lemma digit_cases d :
  is_digit d = true →
  (d = 48 ∨ d = 49 ∨ d = 50 ∨ d = 51 ∨ d = 52 ∨ d = 53 ∨ d = 54 ∨ d = 55 ∨ d = 56
   ∨ d = 57)%N.
Proof.
  unfold is_digit. intros H. apply andb_true_iff in H as [H1 H2].
  apply N.leb_le in H1, H2. lia.
Qed.

(** A text that begins with a digit has no sign to read. *)
Lemma parseInt_unsigned text d s :
  trimStart text = d :: s → is_digit d = true →
  parseInt E text = parse_digits E text false (d :: s).
Proof.
  intros Ht Hd. unfold parseInt. rewrite Ht.
  destruct (digit_cases d Hd) as [->|[->|[->|[->|[->|[->|[->|[->|[->| ->]]]]]]]]];
    reflexivity.
Qed.

Lemma trimStart_digits lead d s :
  blank lead → is_digit d = true → trimStart (lead ++ d :: s) = d :: s.
Proof.
  intros Hlead Hd. rewrite trimStart_blank by exact Hlead. apply trimStart_word.
  destruct (digit_cases d Hd) as [->|[->|[->|[->|[->|[->|[->|[->|[->| ->]]]]]]]]];
    reflexivity.
Qed.

Lemma trimStart_Forall (P : N → Prop) s : Forall P s → Forall P (trimStart s).
Proof.
  induction 1 as [|c s Hc Hs IH]; [constructor|].
  simpl. destruct (is_space c); [exact IH | constructor; assumption].
Qed.

Lemma parse_digits_none text negative s :
  Forall (fun c => is_digit c = false) s → parse_digits E text negative s = None.
Proof.
  intros Hs. unfold parse_digits. destruct Hs as [|c s Hc Hs]; [reflexivity|].
  simpl. rewrite Hc. reflexivity.
Qed.

(** X20: the window reads back from the variable: white space, a sign
    and up to fifteen digits give the number they write, whatever
    follows the digits; an unset or empty variable gives seven days,
    and a text without a digit gives [NaN]. *)
Theorem audit_days_reads_back :
  (∀ lead n junk,
      blank lead → (n < 10 ^ 15)%N → no_digit_ahead junk →
      parseInt E (lead ++ decimal n ++ junk) = Some (Z.of_N n)
      ∧ parseInt E (lead ++ js "+" ++ decimal n ++ junk) = Some (Z.of_N n)
      ∧ parseInt E (lead ++ js "-" ++ decimal n ++ junk) = Some (- Z.of_N n)%Z)
  ∧ (unset E (js "AUDIT_DAYS") → DAYS_BACK (config_of E) = Some 7%Z)
  ∧ (∀ text, Forall (fun c => is_digit c = false) text → parseInt E text = None).
Proof.
  split; [|split].
  - intros lead n junk Hlead Hn Hjunk.
    destruct (decimal_shape n 15) as (d & ds & Ed & Hds & Hlen); [lia | exact Hn |].
    pose proof (decimal_value n) as Hv. rewrite Ed in *.
    pose proof Hds as Hd. apply Forall_cons in Hd as [Hd _].
    assert (Hval : ∀ text negative,
               parse_digits E text negative ((d :: ds) ++ junk)
               = Some (if negative then (- Z.of_N n)%Z else Z.of_N n)).
    { intros text negative. rewrite parse_digits_value by (assumption || discriminate).
      rewrite Hv. reflexivity. }
    split; [|split].
    + rewrite (parseInt_unsigned _ d (ds ++ junk)); [apply Hval | | exact Hd].
      rewrite <- app_comm_cons. apply trimStart_digits; assumption.
    + unfold parseInt. rewrite trimStart_blank by exact Hlead.
      change (js "+" ++ (d :: ds) ++ junk) with (43%N :: (d :: ds) ++ junk).
      rewrite trimStart_word by reflexivity. apply Hval.
    + unfold parseInt. rewrite trimStart_blank by exact Hlead.
      change (js "-" ++ (d :: ds) ++ junk) with (45%N :: (d :: ds) ++ junk).
      rewrite trimStart_word by reflexivity. apply Hval.
  - intros [Hu|Hu]; unfold config_of; cbn [DAYS_BACK]; rewrite Hu; reflexivity.
  - intros text Hno. unfold parseInt.
    pose proof (trimStart_Forall _ _ Hno) as Ht.
    destruct (trimStart text) as [|c s]; [reflexivity|].
    pose proof Ht as Hs. apply Forall_cons in Hs as [_ Hs].
    assert (H45 : parse_digits E text true s = None) by (apply parse_digits_none, Hs).
    assert (H43 : parse_digits E text false s = None) by (apply parse_digits_none, Hs).
    assert (H0 : parse_digits E text false (c :: s) = None)
      by (apply parse_digits_none, Ht).
    destruct c as [|p]; [exact H0|].
    do 6 (destruct p as [p|p|]; try exact H0); first [exact H45 | exact H43 | exact H0].
Qed.

(** X21: the roots read back from the variable: a list of paths joined
    by commas gives one root for each, trimmed and resolved, in the
    order of the list; an unset or empty variable gives the one root
    [./skills]. *)
Theorem skill_dirs_read_back :
  (∀ dirs,
      dirs ≠ [] → Forall (Forall (fun c => c ≠ 44%N)) dirs →
      join (js ",") dirs ≠ [] →
      getenv E (js "SKILL_DIRS") = Some (join (js ",") dirs) →
      SKILL_DIRS (config_of E) = List.map (fun d => resolve E (trim d)) dirs)
  ∧ (unset E (js "SKILL_DIRS") → SKILL_DIRS (config_of E) = [resolve E (js "./skills")]).
Proof.
  split.
  - intros dirs Hne Hdirs Hjoin Henv. unfold config_of. cbn [SKILL_DIRS]. rewrite Henv.
    destruct (join (js ",") dirs) as [|c s] eqn:Ej; [contradiction|].
    rewrite <- Ej. change (js ",") with [44%N]. rewrite split_join by assumption.
    reflexivity.
  - intros [Hu|Hu]; unfold config_of; cbn [SKILL_DIRS]; rewrite Hu; reflexivity.
Qed.

End Configuration.

(** ** The further statements on the concrete host *)

Section Further.

(** The report that the model prints for the world. *)
Example report_of_the_world :
  main Demo.world Demo.config Demo.now = Ok (join [LF] Tour.report).
Proof. vm_compute. reflexivity. Qed.

Example timestamps :
  List.map timestamp [0; 951782400000; 1793610000123; -1]%Z
  = [js "1970-01-01 00:00:00"; js "2000-02-29 00:00:00"; js "2026-11-02 09:00:00";
     js "1969-12-31 23:59:59"].
Proof. vm_compute. reflexivity. Qed.

Lemma field_key_check k :
  match k with
  | c :: k' => is_word c && forallb (fun x => is_word x || (x =? HYPHEN)%N) k'
  | [] => false
  end = true →
  field_key k.
Proof.
  destruct k as [|c k']; [discriminate|]. intros H.
  apply andb_true_iff in H as [Hc Hk]. split; [exact Hc|].
  apply List.Forall_forall. rewrite List.forallb_forall in Hk. exact Hk.
Qed.

Lemma field_text_check v :
  forallb (fun c => negb (is_line_terminator c)) v
  && existsb (fun c => negb (is_space c)) v = true →
  field_text v.
Proof.
  intros H. apply andb_true_iff in H as [Hl Hs]. split.
  - apply List.Forall_forall. rewrite List.forallb_forall in Hl.
    intros c Hc. apply negb_true_iff, Hl, Hc.
  - apply List.Exists_exists. apply existsb_exists in Hs as (c & Hc & Hs).
    exists c. split; [exact Hc | apply negb_true_iff, Hs].
Qed.

(** With no case mapping at all, white space is kept. *)
Lemma identity_keeps_space : keeps_space (fun c => c).
Proof.
  intros a ch Ha Heq.
  assert (Hch : Canonicalize (fun c => c) ch = ch
                ∨ ((97 ≤ ch ≤ 122)%N ∧ Canonicalize (fun c => c) ch = (ch - 32)%N)).
  { unfold Canonicalize, is_lower.
    destruct (N.ltb_spec ch 128); [|left; reflexivity].
    destruct (N.leb_spec 97 ch), (N.leb_spec ch 122); simpl; auto. }
  unfold is_space in Ha. apply existsb_exists in Ha as (w & Hw & Ha).
  apply N.eqb_eq in Ha. subst w. unfold whitespace in Hw. simpl in Hw.
  assert (Hor : a = ch ∨ ((97 ≤ ch ≤ 122)%N ∧ a = (ch - 32)%N)).
  { repeat (destruct Hw as [Hw|Hw];
            [subst a; destruct Hch as [Hch|[Hb Hch]]; rewrite Hch in Heq;
             [left | right; split; [exact Hb|]]; exact Heq |]).
    destruct Hw. }
  destruct Hor as [<-|[Hb ->]].
  - unfold is_space. apply existsb_exists. exists a. split; [exact Hw | apply N.eqb_refl].
  - exfalso. repeat (destruct Hw as [Hw|Hw]; [lia|]). destruct Hw.
Qed.

Lemma recommendation_ignores_registry_and_env_witness :
  main_rec Demo.sound_health 3 Demo.found_hub = main_rec Tour.env_health 5 Tour.absent_hub.
Proof.
  apply (recommendation_ignores_registry_and_env
           Demo.sound_health Tour.env_health 3 5 Demo.found_hub Tour.absent_hub).
  - split; reflexivity.
  - split; intros H; discriminate H.
Defined.


Lemma bins_column_lists_checked_binaries_witness :
  ∃ r, process_skill Demo.world Demo.config 1 Tour.beta_skill = Ok r
       ∧ r_bins r = js "zzznotarealbin"
       ∧ missingBins (r_health r) = [JStr (js "zzznotarealbin")].
Proof.
  destruct (process_skill Demo.world Demo.config 1 Tour.beta_skill) as [r|] eqn:E;
    [|vm_compute in E; discriminate E].
  exists r. split; [reflexivity|].
  destruct (bins_column_lists_checked_binaries Demo.world Demo.config 1 Tour.beta_skill r E)
    as [Hbins _].
  split; [rewrite Hbins|]; vm_compute in E; injection E as <-; reflexivity.
Defined.

Lemma unparsable_metadata_counts_as_none_witness :
  ∃ s, skill_of_entry Demo.world (js "/opt/skills") Tour.broken_entry = Ok (Some s)
       ∧ meta s = JObj []
       ∧ checkHealth Demo.world (meta s) = Ok nothing_declared.
Proof.
  apply (unparsable_metadata_counts_as_none Demo.world (js "/opt/skills")
           Tour.broken_entry Tour.broken_md 123%N (js "clawdbot}")).
  - reflexivity.
  - reflexivity.
  - vm_compute. reflexivity.
  - vm_compute. reflexivity.
Defined.

Lemma getNestedField_reads_back_witness :
  getNestedField Tour.string_bins (js "clawdbot.requires.bins") = Some (JStr (js "curl")).
Proof.
  apply (getNestedField_reads_back [js "clawdbot"; js "requires"; js "bins"]
           (JStr (js "curl"))).
  - discriminate.
  - repeat first [discriminate | constructor].
Defined.

Lemma descriptor_fields_read_back_witness :
  fm_fields (parseFrontmatter Demo.world Tour.skill_md)
  = list_to_map (rev (stored Tour.fields))
  ∧ stored Tour.fields
    = [(js "name", js "first"); (js "description", js "A  quoted text");
       (js "name", js "second")]
  ∧ fm_get (parseFrontmatter Demo.world Tour.skill_md) (js "name") = Some (js "second").
Proof.
  assert (H : fm_fields (parseFrontmatter Demo.world Tour.skill_md)
              = list_to_map (rev (stored Tour.fields))).
  { apply (descriptor_fields_read_back Demo.world Tour.fields (LF :: js "# Body")).
    repeat (apply List.Forall_cons;
            [split; [apply field_key_check | apply field_text_check]; reflexivity|]).
    apply List.Forall_nil. }
  split; [exact H|]. split; [vm_compute; reflexivity|].
  unfold fm_get. rewrite H. vm_compute. reflexivity.
Defined.

Lemma daily_log_scanned_from_cutoff_day_witness :
  scan_file Demo.world (Some Demo.cutoff) (cutoff_string Demo.cutoff) Tour.pattern 0 Tour.log
  = Ok 2.
Proof.
  rewrite (daily_log_scanned_from_cutoff_day Demo.world Demo.cutoff Tour.yesterday
             Tour.pattern 0 Tour.log).
  - vm_compute. reflexivity.
  - unfold four_digit_year, Demo.cutoff, Demo.now, msPerDay. lia.
  - unfold four_digit_year, Tour.yesterday, Demo.now, msPerDay. lia.
  - reflexivity.
Defined.


Lemma usage_scan_fails_before_reading_witness :
  checkUsage Demo.world Tour.config_nan 0 (js "c++") = Throw RangeError
  ∧ checkUsage Tour.host_unlistable_logs Demo.config 0 (js "c++") = Throw SystemError.
Proof.
  split.
  - apply (usage_scan_fails_before_reading Demo.world Tour.config_nan 0 (js "c++"));
      [discriminate | reflexivity].
  - apply (usage_scan_fails_before_reading Tour.host_unlistable_logs Demo.config 0
             (js "c++")); [discriminate | eexists; reflexivity | reflexivity].
Defined.

Lemma unreadable_root_aborts_audit_witness :
  main Tour.host_unlistable_root Demo.config Demo.now = Throw SystemError.
Proof.
  apply (proj2 (unreadable_root_aborts_audit Tour.host_unlistable_root Demo.config)).
  apply Exists_cons_tl, Exists_cons_hd. intros H. exact H.
Defined.

Lemma attention_lists_each_troubled_skill_once_witness :
  ∃ results,
    main_results Demo.world Demo.config = Ok results
    ∧ forallb nothing_missing results = false
    ∧ List.length (attention Demo.world results) = 1.
Proof.
  destruct (main_results Demo.world Demo.config) as [results|] eqn:H;
    [|vm_compute in H; discriminate H].
  exists results. split; [reflexivity|].
  destruct (attention_lists_each_troubled_skill_once Demo.world Demo.config results H)
    as [_ Hlen].
  assert (Hsome : forallb nothing_missing results = false).
  { vm_compute in H. injection H as <-. reflexivity. }
  split; [exact Hsome|]. rewrite (Hlen Hsome).
  vm_compute in H. injection H as <-. reflexivity.
Defined.

Lemma report_ignores_declared_names_witness :
  main (Demo.host Demo.alpha_renamed_md) Demo.config Demo.now
  = main Demo.world Demo.config Demo.now.
Proof.
  exact (report_ignores_declared_names Demo.world
           (Demo.roots (Demo.root_entries Demo.alpha_renamed_md))
           demo_roots_renamed Demo.config Demo.now).
Defined.

Lemma name_pattern_finds_only_occurrences_witness :
  ∃ before occ after,
    js "run Web Search" = before ++ occ ++ after ∧ occurrence (js "web-search") occ.
Proof.
  apply (name_pattern_finds_only_occurrences Demo.world (js "web-search")
           (Compiled (seq_of (List.map atom (js "web-search")))) (js "run Web Search")).
  - repeat constructor.
  - repeat constructor.
  - exact identity_keeps_space.
  - reflexivity.
  - vm_compute. repeat constructor.
Defined.


Lemma audit_days_reads_back_witness :
  parseInt Tour.env (js " 14 days") = Some 14%Z
  ∧ DAYS_BACK (config_of Tour.env) = Some 14%Z.
Proof.
  assert (H : parseInt Tour.env (js " 14 days") = Some 14%Z).
  { refine (proj1 (proj1 (audit_days_reads_back Tour.env) (js " ") 14%N (js " days")
                     _ _ _)).
    - repeat constructor.
    - reflexivity.
    - reflexivity. }
  split; [exact H|]. exact H.
Defined.

Lemma skill_dirs_read_back_witness :
  SKILL_DIRS (config_of Tour.env) = [js "/home/u/skills"; js "/opt/skills"].
Proof.
  refine (proj1 (skill_dirs_read_back Tour.env) [js "/home/u/skills"; js " /opt/skills"]
            _ _ _ _).
  - discriminate.
  - repeat first [discriminate | constructor].
  - discriminate.
  - reflexivity.
Defined.

End Further.
